(** * git-patch-viewer: the patch parser ([PatchParser] in [js/urlHandler.js])

    A shallow embedding of the parser module and of two functions that
    read its results, [extractFileContent] of the diff viewer adapter
    ([js/reactDiffAdapter.js]) and [generatePatchName] of the storage
    manager, with the proofs of their specification.

    Conventions of the embedding.
    - A JavaScript string is a [string]: a sequence of code units, here
      restricted to the range U+0000..U+00FF (one [ascii] per code unit).
      In that range the line terminators are LF and CR, and the white space
      characters are TAB, LF, VT, FF, CR, SPACE and NBSP.
    - A JavaScript value handed to a function that tests its type is a
      [JsValue].
    - Counters ([additions], [deletions], [filesChanged]) are [nat]: they
      count lines of the input, and Number arithmetic is exact below 2^53.
    - The numbers that [parseInt] reads are Numbers, that is doubles
      ([float]): the double nearest to the integer that the digits denote,
      so that an integer from 2^53 on may be rounded.
    - Objects that the parser mutates after storing them in an array (the
      file and hunk records) live in an explicit store and are named by
      locations, so that an object pushed twice is one object seen twice.
    - A function that can [throw] returns a [completion]. *)

From Stdlib Require Import String Ascii List ZArith NArith Lia PrimFloat Floats DecimalString.
From stdpp Require Import base option list strings gmap.

Open Scope string_scope.

(** ** JavaScript values and completions *)

Inductive JsValue :=
| JUndefined
| JNull
| JBoolean (b : bool)
| JNumber (x : float)
| JBigInt (z : Z)
| JString (s : string)
| JSymbol
| JObject.

(** [ToBoolean]: the values that an [if] or a [!] takes as true. *)
Definition truthy (v : JsValue) : bool :=
  match v with
  | JUndefined | JNull => false
  | JBoolean b => b
  | JNumber x => negb (PrimFloat.eqb x 0%float || PrimFloat.is_nan x)
  | JBigInt z => negb (Z.eqb z 0)
  | JString s => negb (String.eqb s "")
  | JSymbol | JObject => true
  end.

(** [typeof v === 'string'] *)
Definition is_string (v : JsValue) : bool :=
  match v with JString _ => true | _ => false end.

Inductive exn := Error (message : string).

Inductive completion (A : Type) :=
| Return (a : A)
| Throw (e : exn).
Arguments Return {A} a.
Arguments Throw {A} e.

(** ** Characters *)

Definition code (c : ascii) : nat := nat_of_ascii c.

Definition between (lo hi : nat) (c : ascii) : bool :=
  (lo <=? code c)%nat && (code c <=? hi)%nat.

(** LineTerminator: what [.] does not match and where [^] matches under
    the [m] flag. *)
Definition is_line_terminator (c : ascii) : bool :=
  (code c =? 10)%nat || (code c =? 13)%nat.

(** WhiteSpace and LineTerminator: what [\s] matches and [trim] strips. *)
Definition is_white_space (c : ascii) : bool :=
  between 9 13 c || (code c =? 32)%nat || (code c =? 160)%nat.

(** [\d] *)
Definition is_digit (c : ascii) : bool := between 48 57 c.

(** [[0-9a-f]] *)
Definition is_hex_lower (c : ascii) : bool := between 48 57 c || between 97 102 c.

(** [.] *)
Definition dot (c : ascii) : bool := negb (is_line_terminator c).

(** [[^x]] *)
Definition not_char (x c : ascii) : bool := negb (Ascii.eqb c x).

(** The simple lower-case mapping of a code unit: A-Z, and the Latin-1
    capitals U+00C0..U+00DE without the multiplication sign U+00D7. *)
Definition lower_char (c : ascii) : ascii :=
  if between 65 90 c || between 192 214 c || between 216 222 c
  then ascii_of_nat (code c + 32)
  else c.

(** ** String methods *)

(** [s.toLowerCase()] *)
Fixpoint toLowerCase (s : string) : string :=
  match s with
  | "" => ""
  | String c s' => String (lower_char c) (toLowerCase s')
  end.

(** [s.startsWith(p)] *)
Definition startsWith (s p : string) : bool := String.prefix p s.

(** [s.substring(n)] *)
Fixpoint substring_from (n : nat) (s : string) : string :=
  match n, s with
  | O, _ => s
  | S n', String _ s' => substring_from n' s'
  | S _, "" => ""
  end.

(** [s.substring(0, n)] *)
Fixpoint substring_to (n : nat) (s : string) : string :=
  match n, s with
  | S n', String c s' => String c (substring_to n' s')
  | _, _ => ""
  end.

Fixpoint trimStart (s : string) : string :=
  match s with
  | String c s' => if is_white_space c then trimStart s' else s
  | "" => ""
  end.

Fixpoint trimEnd (s : string) : string :=
  match s with
  | String c s' =>
      match trimEnd s' with
      | "" => if is_white_space c then "" else String c ""
      | t => String c t
      end
  | "" => ""
  end.

(** [s.trim()] *)
Definition trim (s : string) : string := trimEnd (trimStart s).

(** [s.split(sep)] for a separator of one character: never empty. *)
Fixpoint split (sep : ascii) (s : string) : list string :=
  match s with
  | "" => [""]
  | String c s' =>
      if Ascii.eqb c sep then "" :: split sep s'
      else match split sep s' with
           | piece :: pieces => String c piece :: pieces
           | [] => [String c ""]
           end
  end.

(** [pieces.join(' ')] *)
Fixpoint join (sep : string) (pieces : list string) : string :=
  match pieces with
  | [] => ""
  | [p] => p
  | p :: ps => p ++ sep ++ join sep ps
  end.

(** The digits of a decimal numeral, read from the left up to the first
    character that is no digit: the integer that they denote. *)
Definition digit_value (c : ascii) : N := N.of_nat (code c - 48).

Fixpoint parseInt_from (acc : N) (s : string) : N :=
  match s with
  | String c s' => if is_digit c then parseInt_from (10 * acc + digit_value c) s' else acc
  | "" => acc
  end.

(** The Number for an integer that is not negative: the double nearest to
    it with ties to even, [Infinity] past the largest double. Below 2^53
    the Number is the integer itself. *)
Definition to_Number (n : N) : float :=
  SF2Prim (binary_normalize prec emax (Z.of_N n) 0 false).

(** [parseInt(s)] on a string of decimal digits, which is what the
    groups [\d+] and [\d*] of the hunk header hold: the Number for the
    integer that the digits denote, and [NaN] when no digit leads. All
    the digits are read (past twenty significant digits the language lets
    a host read the later ones as zeros). *)
Definition parseInt (s : string) : float :=
  match s with
  | String c _ => if is_digit c then to_Number (parseInt_from 0 s) else nan
  | "" => nan
  end.

(** ** Regular expressions

    The patterns of the parser are sequences of literals, quantified
    character classes, capture groups and the anchors [^] and [$]. The
    matcher is the backtracking one of the language: a quantifier tries its
    longest (greedy) or shortest (lazy) repetition first and gives way when
    the rest of the pattern fails. *)

Inductive regex :=
| Lit (s : string)
| Rep (cls : ascii -> bool) (lo : nat) (hi : option nat) (greedy : bool)
| Group (r : regex)
| Cat (r1 r2 : regex)
| Bol
| Eol.

Module RegexNotations.
Declare Scope regex_scope.
Delimit Scope regex_scope with re.
Infix "·" := Cat (at level 41, right associativity) : regex_scope.
(** [c+], [c+?], [c*], [c?], [c{n}] *)
Definition plus cls := Rep cls 1 None true.
Definition plus_lazy cls := Rep cls 1 None false.
Definition star cls := Rep cls 0 None true.
Definition opt cls := Rep cls 0 (Some 1) true.
Definition times n cls := Rep cls n (Some n) true.
End RegexNotations.
Import RegexNotations.

(** A match is the array [[whole; group 1; group 2; ...]]. *)
Definition MatchResult := list string.

Definition cont := option ascii -> string -> list string -> option MatchResult.

(** The text between two positions, the second one given by what is left
    of the input there. *)
Definition consumed (s rest : string) : string :=
  substring_to (String.length s - String.length rest) s.

Fixpoint last_char (prev : option ascii) (s : string) : option ascii :=
  match s with
  | "" => prev
  | String c s' => last_char (Some c) s'
  end.

Definition at_bol (multiline : bool) (prev : option ascii) : bool :=
  match prev with
  | None => true
  | Some c => multiline && is_line_terminator c
  end.

Definition at_eol (multiline : bool) (s : string) : bool :=
  match s with
  | "" => true
  | String c _ => multiline && is_line_terminator c
  end.

Definition may_repeat (hi : option nat) : bool :=
  match hi with Some O => false | _ => true end.

Fixpoint rep (cls : ascii -> bool) (greedy : bool) (lo : nat) (hi : option nat)
    (prev : option ascii) (s : string)
    (k : option ascii -> string -> option MatchResult) : option MatchResult :=
  match s with
  | String c s' =>
      if cls c && may_repeat hi then
        if greedy then
          match rep cls greedy (pred lo) (pred <$> hi) (Some c) s' k with
          | Some m => Some m
          | None => match lo with O => k prev s | S _ => None end
          end
        else
          match (match lo with O => k prev s | S _ => None end) with
          | Some m => Some m
          | None => rep cls greedy (pred lo) (pred <$> hi) (Some c) s' k
          end
      else match lo with O => k prev s | S _ => None end
  | "" => match lo with O => k prev s | S _ => None end
  end.

Fixpoint run (multiline : bool) (r : regex) (prev : option ascii) (s : string)
    (caps : list string) (k : cont) : option MatchResult :=
  match r with
  | Lit l =>
      if String.prefix l s
      then k (last_char prev l) (substring_from (String.length l) s) caps
      else None
  | Rep cls lo hi greedy => rep cls greedy lo hi prev s (fun p s' => k p s' caps)
  | Group r1 =>
      run multiline r1 prev s caps (fun p s' caps' => k p s' (caps' ++ [consumed s s'])%list)
  | Cat r1 r2 =>
      run multiline r1 prev s caps (fun p s' caps' => run multiline r2 p s' caps' k)
  | Bol => if at_bol multiline prev then k prev s caps else None
  | Eol => if at_eol multiline s then k prev s caps else None
  end.

(** The match that starts at the current position, if there is one. *)
Definition match_here (multiline : bool) (r : regex) (prev : option ascii) (s : string)
    : option MatchResult :=
  run multiline r prev s [] (fun _ s' caps => Some (consumed s s' :: caps)).

(** The leftmost match. *)
Fixpoint search (multiline : bool) (r : regex) (prev : option ascii) (s : string)
    : option MatchResult :=
  match match_here multiline r prev s with
  | Some m => Some m
  | None =>
      match s with
      | "" => None
      | String c s' => search multiline r (Some c) s'
      end
  end.

(** [s.match(/r/)] and [/r/.test(s)], [/r/m.test(s)] *)
Definition regex_match (r : regex) (s : string) : option MatchResult :=
  search false r None s.

Definition regex_test (multiline : bool) (r : regex) (s : string) : bool :=
  bool_decide (is_Some (search multiline r None s)).

(** [m[i]] *)
Definition group (m : MatchResult) (i : nat) : string := nth i m "".

(** The class of one character. *)
Definition char (x : ascii) : ascii -> bool := fun c => Ascii.eqb c x.

(** ** The document model *)

Module HunkLine.
Inductive kind := add | del | context.
Record t := mk { type : kind; content : string }.
End HunkLine.

Module Hunk.
Record t := mk {
  oldStart : float;
  oldLines : float;
  newStart : float;
  newLines : float;
  heading : string;
  lines : list HunkLine.t
}.
Definition push_line (l : HunkLine.t) (h : t) : t :=
  mk (oldStart h) (oldLines h) (newStart h) (newLines h) (heading h) (lines h ++ [l])%list.
End Hunk.

(** A file record holds its hunks as [H]: locations while the parser runs,
    hunks once the result is read. *)
Module FileDiff.
Inductive kind := modified | added | deleted | renamed.
Record t (H : Type) := mk {
  oldPath : string;
  newPath : string;
  type : kind;
  hunks : list H;
  additions : nat;
  deletions : nat;
  isBinary : bool
}.
Arguments mk {H}.
Arguments oldPath {H}.
Arguments newPath {H}.
Arguments type {H}.
Arguments hunks {H}.
Arguments additions {H}.
Arguments deletions {H}.
Arguments isBinary {H}.

Section Updates.
Context {H : Type}.
Definition set_oldPath (p : string) (f : t H) : t H :=
  mk p (newPath f) (type f) (hunks f) (additions f) (deletions f) (isBinary f).
Definition set_newPath (p : string) (f : t H) : t H :=
  mk (oldPath f) p (type f) (hunks f) (additions f) (deletions f) (isBinary f).
Definition set_type (k : kind) (f : t H) : t H :=
  mk (oldPath f) (newPath f) k (hunks f) (additions f) (deletions f) (isBinary f).
Definition push_hunk (h : H) (f : t H) : t H :=
  mk (oldPath f) (newPath f) (type f) (hunks f ++ [h])%list (additions f) (deletions f)
     (isBinary f).
Definition incr_additions (f : t H) : t H :=
  mk (oldPath f) (newPath f) (type f) (hunks f) (S (additions f)) (deletions f) (isBinary f).
Definition incr_deletions (f : t H) : t H :=
  mk (oldPath f) (newPath f) (type f) (hunks f) (additions f) (S (deletions f)) (isBinary f).
Definition set_isBinary (b : bool) (f : t H) : t H :=
  mk (oldPath f) (newPath f) (type f) (hunks f) (additions f) (deletions f) b.
End Updates.

Definition with_hunks {H H' : Type} (hs : list H') (f : t H) : t H' :=
  mk (oldPath f) (newPath f) (type f) hs (additions f) (deletions f) (isBinary f).
End FileDiff.

Module DiffStats.
Record t := mk { filesChanged : nat; additions : nat; deletions : nat }.
End DiffStats.

Module CommitMetadata.
Record t := mk {
  commitHash : option string;
  author : option string;
  authorEmail : option string;
  date : option string;
  message : string;
  refs : list string
}.
End CommitMetadata.

Module ParsedPatch.
Record t := mk {
  metadata : CommitMetadata.t;
  files : list (FileDiff.t Hunk.t);
  stats : DiffStats.t;
  raw : string
}.
End ParsedPatch.

(** ** parseFiles

    The loop owns three variables, [files], [currentFile] and
    [currentHunk]; the last two name objects of the store, and so do the
    entries of [files] and of every [hunks] array. *)

(** A location of the store. *)
Abbreviation loc := nat (only parsing).

Module Parser.
Record state := mk {
  file_objs : list (FileDiff.t loc);
  hunk_objs : list Hunk.t;
  files : list loc;
  currentFile : option loc;
  currentHunk : option loc
}.

Definition initial : state := mk [] [] [] None None.

Definition set_currentHunk (h : option loc) (σ : state) : state :=
  mk (file_objs σ) (hunk_objs σ) (files σ) (currentFile σ) h.

(** [file.field = ...], [file.hunks.push(...)], [file.additions++] *)
Definition update_file (f : loc) (upd : FileDiff.t loc -> FileDiff.t loc) (σ : state) : state :=
  mk (alter upd f (file_objs σ)) (hunk_objs σ) (files σ) (currentFile σ) (currentHunk σ).

(** [hunk.lines.push(...)] *)
Definition update_hunk (h : loc) (upd : Hunk.t -> Hunk.t) (σ : state) : state :=
  mk (file_objs σ) (alter upd h (hunk_objs σ)) (files σ) (currentFile σ) (currentHunk σ).

(** [files.push(f)] *)
Definition push_file (f : loc) (σ : state) : state :=
  mk (file_objs σ) (hunk_objs σ) (files σ ++ [f])%list (currentFile σ) (currentHunk σ).

(** [currentFile = { ... }]: a new object. *)
Definition new_file (o : FileDiff.t loc) (σ : state) : state :=
  mk (file_objs σ ++ [o])%list (hunk_objs σ) (files σ)
     (Some (length (file_objs σ))) (currentHunk σ).

(** [currentHunk = { ... }]: a new object. *)
Definition new_hunk (o : Hunk.t) (σ : state) : state :=
  mk (file_objs σ) (hunk_objs σ ++ [o])%list (files σ)
     (currentFile σ) (Some (length (hunk_objs σ))).
End Parser.

(** [/diff --git a\/(.+?) b\/(.+)/] *)
Definition re_file_header : regex :=
  (Lit "diff --git a/" · Group (plus_lazy dot) · Lit " b/" · Group (plus dot))%re.

(** [/^Binary files .* differ/] *)
Definition re_binary : regex :=
  (Bol · Lit "Binary files " · star dot · Lit " differ")%re.

(** The hunk header pattern: [@@ -], digits (group 1), an optional comma,
    optional digits (group 2), [ +], digits (group 3), an optional comma,
    optional digits (group 4), [ @@], the rest of the line (group 5). *)
Definition re_hunk_header : regex :=
  (Lit "@@ -" · Group (plus is_digit) · opt (char ",") · Group (star is_digit)
   · Lit " +" · Group (plus is_digit) · opt (char ",") · Group (star is_digit)
   · Lit " @@" · Group (star dot))%re.

Section ParseFiles.
Import Parser.

(** [if (currentHunk) { currentFile.hunks.push(currentHunk); }] *)
Definition save_hunk (f : loc) (σ : state) : state :=
  match currentHunk σ with
  | Some h => update_file f (FileDiff.push_hunk h) σ
  | None => σ
  end.

(** File header (diff --git) *)
Definition file_header (line : string) (σ : state) : state :=
  if startsWith line "diff --git " then
    let σ1 :=
      match currentFile σ with
      | Some f =>
          let σ' :=
            match currentHunk σ with
            | Some h => set_currentHunk None (update_file f (FileDiff.push_hunk h) σ)
            | None => σ
            end in
          push_file f σ'
      | None => σ
      end in
    match regex_match re_file_header line with
    | Some m =>
        new_file (FileDiff.mk (group m 1) (group m 2) FileDiff.modified [] 0 0 false) σ1
    | None => σ1
    end
  else σ.

(** The marker lines: each changes the current file, when there is one. *)
Definition marker (hit : bool) (upd : FileDiff.t loc -> FileDiff.t loc) (σ : state) : state :=
  if hit then
    match currentFile σ with
    | Some f => update_file f upd σ
    | None => σ
    end
  else σ.

Definition new_file_mode (line : string) : state -> state :=
  marker (startsWith line "new file mode")
    (fun o => FileDiff.set_oldPath "/dev/null" (FileDiff.set_type FileDiff.added o)).

Definition deleted_file_mode (line : string) : state -> state :=
  marker (startsWith line "deleted file mode")
    (fun o => FileDiff.set_newPath "/dev/null" (FileDiff.set_type FileDiff.deleted o)).

Definition rename_from (line : string) : state -> state :=
  marker (startsWith line "rename from") (FileDiff.set_type FileDiff.renamed).

Definition binary_files (line : string) : state -> state :=
  marker (bool_decide (is_Some (regex_match re_binary line))) (FileDiff.set_isBinary true).

(** Hunk header (@@ -X,Y +A,B @@) *)
Definition hunk_header (line : string) (σ : state) : state :=
  if startsWith line "@@" then
    match currentFile σ with
    | Some f =>
        let σ1 := save_hunk f σ in
        match regex_match re_hunk_header line with
        | Some m =>
            new_hunk
              (Hunk.mk (parseInt (group m 1))
                       (if String.eqb (group m 2) "" then 1%float else parseInt (group m 2))
                       (parseInt (group m 3))
                       (if String.eqb (group m 4) "" then 1%float else parseInt (group m 4))
                       (trim (group m 5))
                       [])
              σ1
        | None => σ1
        end
    | None => σ
    end
  else σ.

(** Hunk content lines. The two cursors name objects of the store (lemma
    [closed_step]); the last branches of the two [match] are there for
    totality. *)
Definition hunk_content (line : string) (σ : state) : state :=
  match currentHunk σ, currentFile σ with
  | Some h, Some f =>
      match file_objs σ !! f, hunk_objs σ !! h with
      | Some fo, Some ho =>
          if negb (FileDiff.isBinary fo) then
            if startsWith line "+" && negb (startsWith line "+++") then
              update_file f FileDiff.incr_additions
                (update_hunk h
                   (Hunk.push_line (HunkLine.mk HunkLine.add (substring_from 1 line))) σ)
            else if startsWith line "-" && negb (startsWith line "---") then
              update_file f FileDiff.incr_deletions
                (update_hunk h
                   (Hunk.push_line (HunkLine.mk HunkLine.del (substring_from 1 line))) σ)
            else if startsWith line " " && (0 <? length (Hunk.lines ho))%nat then
              update_hunk h
                (Hunk.push_line (HunkLine.mk HunkLine.context (substring_from 1 line))) σ
            else σ
          else σ
      | _, _ => σ
      end
  | _, _ => σ
  end.

(** One turn of the [while] loop. *)
Definition step (σ : state) (line : string) : state :=
  hunk_content line
    (hunk_header line
       (binary_files line
          (rename_from line
             (deleted_file_mode line
                (new_file_mode line
                   (file_header line σ)))))).

(** Save last file *)
Definition save_last (σ : state) : state :=
  match currentFile σ with
  | Some f => push_file f (save_hunk f σ)
  | None => σ
  end.

Definition run_lines (lines : list string) : state :=
  save_last (fold_left step lines initial).
End ParseFiles.

(** Reading the result: the array [files] with every location replaced
    by the object it names. A location is always that of an object (lemma
    [parseFiles_reads_objects]), so the default values are never read. *)
Definition empty_hunk : Hunk.t := Hunk.mk 0%float 0%float 0%float 0%float "" [].
Definition empty_file : FileDiff.t loc := FileDiff.mk "" "" FileDiff.modified [] 0 0 false.

Definition read_hunk (σ : Parser.state) (h : loc) : Hunk.t :=
  default empty_hunk (Parser.hunk_objs σ !! h).

Definition read_file (σ : Parser.state) (f : loc) : FileDiff.t Hunk.t :=
  let o := default empty_file (Parser.file_objs σ !! f) in
  FileDiff.with_hunks (read_hunk σ <$> FileDiff.hunks o) o.

Definition read_files (σ : Parser.state) : list (FileDiff.t Hunk.t) :=
  read_file σ <$> Parser.files σ.

Definition parseFiles (lines : list string) : list (FileDiff.t Hunk.t) :=
  read_files (run_lines lines).

(** ** extractMetadata *)

(** [/^From ([0-9a-f]{40})/] *)
Definition re_commit_hash : regex :=
  (Bol · Lit "From " · Group (times 40 is_hex_lower))%re.

(** [/^From: (.+?) <(.+?)>/] *)
Definition re_author : regex :=
  (Bol · Lit "From: " · Group (plus_lazy dot) · Lit " <" · Group (plus_lazy dot) · Lit ">")%re.

(** A line that is a parenthesised list: [^], optional white space, an
    opening parenthesis, anything, a closing parenthesis, [$]. *)
Definition re_refs_line : regex :=
  (Bol · star is_white_space · Lit "(" · star dot · Lit ")" · Eol)%re.

(** [/\(([^)]+)\)/] *)
Definition re_refs : regex :=
  (Lit "(" · Group (plus (not_char ")")) · Lit ")")%re.

Module Meta.
Record state := mk {
  metadata : CommitMetadata.t;
  inMessage : bool;
  messageLines : list string
}.

Definition initial : state :=
  mk (CommitMetadata.mk None None None None "" []) false [].

Definition update (upd : CommitMetadata.t -> CommitMetadata.t) (σ : state) : state :=
  mk (upd (metadata σ)) (inMessage σ) (messageLines σ).

Definition set_commitHash (h : string) (m : CommitMetadata.t) : CommitMetadata.t :=
  CommitMetadata.mk (Some h) (CommitMetadata.author m) (CommitMetadata.authorEmail m)
    (CommitMetadata.date m) (CommitMetadata.message m) (CommitMetadata.refs m).
Definition set_author (a : string) (m : CommitMetadata.t) : CommitMetadata.t :=
  CommitMetadata.mk (CommitMetadata.commitHash m) (Some a) (CommitMetadata.authorEmail m)
    (CommitMetadata.date m) (CommitMetadata.message m) (CommitMetadata.refs m).
Definition set_authorEmail (a : string) (m : CommitMetadata.t) : CommitMetadata.t :=
  CommitMetadata.mk (CommitMetadata.commitHash m) (CommitMetadata.author m) (Some a)
    (CommitMetadata.date m) (CommitMetadata.message m) (CommitMetadata.refs m).
Definition set_date (d : string) (m : CommitMetadata.t) : CommitMetadata.t :=
  CommitMetadata.mk (CommitMetadata.commitHash m) (CommitMetadata.author m)
    (CommitMetadata.authorEmail m) (Some d) (CommitMetadata.message m) (CommitMetadata.refs m).
Definition set_message (t : string) (m : CommitMetadata.t) : CommitMetadata.t :=
  CommitMetadata.mk (CommitMetadata.commitHash m) (CommitMetadata.author m)
    (CommitMetadata.authorEmail m) (CommitMetadata.date m) t (CommitMetadata.refs m).
Definition set_refs (r : list string) (m : CommitMetadata.t) : CommitMetadata.t :=
  CommitMetadata.mk (CommitMetadata.commitHash m) (CommitMetadata.author m)
    (CommitMetadata.authorEmail m) (CommitMetadata.date m) (CommitMetadata.message m) r.
End Meta.

Section ExtractMetadata.
Import Meta.

(** Commit hash from format-patch *)
Definition commit_hash (line : string) (σ : state) : state :=
  if startsWith line "From " then
    match regex_match re_commit_hash line with
    | Some m => update (set_commitHash (group m 1)) σ
    | None => σ
    end
  else σ.

(** Author *)
Definition author (line : string) (σ : state) : state :=
  if startsWith line "From: " then
    match regex_match re_author line with
    | Some m => update (fun md => set_authorEmail (group m 2) (set_author (group m 1) md)) σ
    | None => update (set_author (trim (substring_from 6 line))) σ
    end
  else σ.

(** Date *)
Definition date (line : string) (σ : state) : state :=
  if startsWith line "Date: " then update (set_date (trim (substring_from 6 line))) σ else σ.

(** Continue message *)
Definition continue_message (line : string) (σ : state) : state :=
  if inMessage σ then
    if String.eqb (trim line) "" || startsWith line "---"
    then mk (metadata σ) false (messageLines σ)
    else mk (metadata σ) true (messageLines σ ++ [trim line])%list
  else σ.

(** Refs (branches, tags) *)
Definition refs (line : string) (σ : state) : state :=
  if regex_test false re_refs_line line then
    match regex_match re_refs line with
    | Some m => update (set_refs (trim <$> split "," (group m 1))) σ
    | None => σ
    end
  else σ.

(** One turn of the [for] loop; a [Subject: ] line ends its turn early. *)
Definition meta_step (σ : state) (line : string) : state :=
  let σ := date line (author line (commit_hash line σ)) in
  if startsWith line "Subject: " then
    mk (metadata σ) true (messageLines σ ++ [trim (substring_from 9 line)])%list
  else refs line (continue_message line σ).

Definition extractMetadata (lines : list string) : CommitMetadata.t :=
  let σ := fold_left meta_step (take 50 lines) initial in
  set_message (trim (join " " (messageLines σ))) (metadata σ).
End ExtractMetadata.

(** ** calculateStats and parse *)

Definition calculateStats (files : list (FileDiff.t Hunk.t)) : DiffStats.t :=
  fold_left
    (fun stats file =>
       DiffStats.mk (DiffStats.filesChanged stats)
         (DiffStats.additions stats + FileDiff.additions file)
         (DiffStats.deletions stats + FileDiff.deletions file))
    files
    (DiffStats.mk (length files) 0 0).

Definition LF : ascii := "010"%char.

Definition InvalidInput : exn := Error "Invalid patch: empty or not a string".

(** The text of a value known to be a string. *)
Definition string_of (v : JsValue) : string :=
  match v with JString s => s | _ => "" end.

Definition parse (patchText : JsValue) : completion ParsedPatch.t :=
  if negb (truthy patchText) || negb (is_string patchText) then Throw InvalidInput
  else
    let lines := split LF (string_of patchText) in
    let metadata := extractMetadata lines in
    let files := parseFiles lines in
    let stats := calculateStats files in
    Return (ParsedPatch.mk metadata files stats (string_of patchText)).

(** ** getFileExtension and detectLanguage *)

(** [/\.([^.]+)$/] *)
Definition re_extension : regex :=
  (Lit "." · Group (plus (not_char ".")) · Eol)%re.

Definition getFileExtension (filePath : string) : string :=
  match regex_match re_extension filePath with
  | Some m => group m 1
  | None => ""
  end.

Definition languageMap : list (string * string) :=
  [ ("js", "javascript"); ("jsx", "jsx"); ("ts", "typescript"); ("tsx", "tsx");
    ("py", "python"); ("java", "java"); ("go", "go"); ("rs", "rust"); ("c", "c");
    ("cpp", "cpp"); ("cc", "cpp"); ("cxx", "cpp"); ("h", "c"); ("hpp", "cpp");
    ("cs", "csharp"); ("php", "php"); ("rb", "ruby"); ("css", "css"); ("scss", "scss");
    ("sass", "sass"); ("less", "less"); ("html", "markup"); ("xml", "markup");
    ("svg", "markup"); ("md", "markdown"); ("json", "json"); ("yaml", "yaml");
    ("yml", "yaml"); ("toml", "toml"); ("sh", "bash"); ("bash", "bash"); ("zsh", "bash");
    ("sql", "sql"); ("dockerfile", "docker"); ("makefile", "makefile") ].

(** What an object literal inherits from [Object.prototype]. *)
Definition object_prototype_keys : list string :=
  [ "constructor"; "__defineGetter__"; "__defineSetter__"; "hasOwnProperty";
    "__lookupGetter__"; "__lookupSetter__"; "isPrototypeOf"; "propertyIsEnumerable";
    "toString"; "valueOf"; "__proto__"; "toLocaleString" ].

Fixpoint own_property (o : list (string * string)) (key : string) : option string :=
  match o with
  | [] => None
  | (k, v) :: o' => if String.eqb k key then Some v else own_property o' key
  end.

(** [o[key]] on an object literal whose own properties are strings: an
    inherited member is an object (a function, or the prototype itself). *)
Definition get (o : list (string * string)) (key : string) : JsValue :=
  match own_property o key with
  | Some v => JString v
  | None => if existsb (String.eqb key) object_prototype_keys then JObject else JUndefined
  end.

Definition detectLanguage (filePath : string) : JsValue :=
  let ext := toLowerCase (getFileExtension filePath) in
  let filename := toLowerCase (List.last (split "/" filePath) "") in
  if String.eqb filename "dockerfile" then JString "docker"
  else if String.eqb filename "makefile" then JString "makefile"
  else if String.eqb filename ".gitignore" then JString "git"
  else
    let v := get languageMap ext in
    if truthy v then v else JString "plaintext".

(** ** isValidPatch *)

(** [/^diff --git/m], [/^--- /m], [/^\+\+\+ /m], [/^@@ /m] *)
Definition indicators : list regex :=
  [ (Bol · Lit "diff --git")%re; (Bol · Lit "--- ")%re; (Bol · Lit "+++ ")%re;
    (Bol · Lit "@@ ")%re ].

Definition isValidPatch (patchText : JsValue) : bool :=
  if negb (truthy patchText) || negb (is_string patchText) then false
  else existsb (fun r => regex_test true r (string_of patchText)) indicators.

(** ** formatRelativeTime

    The numbers of this function are the difference of two time values
    and its quotients, each floored at once: integers, or [NaN] when the
    date is invalid. *)

Module Number.
Inductive t := NaN | Int (z : Z).

Definition sub (a b : t) : t :=
  match a, b with
  | Int x, Int y => Int (x - y)
  | _, _ => NaN
  end.

(** [Math.floor(a / d)] for a positive integer [d] *)
Definition floor_div (a : t) (d : Z) : t :=
  match a with
  | Int x => Int (x / d)
  | NaN => NaN
  end.

(** [a < n]: false when [a] is [NaN] *)
Definition lt (a : t) (n : Z) : bool :=
  match a with
  | Int x => (x <? n)%Z
  | NaN => false
  end.

(** [a !== n]: true when [a] is [NaN] *)
Definition neq (a : t) (n : Z) : bool :=
  match a with
  | Int x => negb (x =? n)%Z
  | NaN => true
  end.

Definition toString (a : t) : string :=
  match a with
  | Int x => NilZero.string_of_int (Z.to_int x)
  | NaN => "NaN"
  end.
End Number.

Section FormatRelativeTime.
(** The host: the time value of [new Date(s)], absent for an Invalid
    Date, and the time value of [new Date()]. Constructing a date does
    not throw. *)
Variable Date_parse : string -> option Z.
Variable Date_now : Z.

Definition time_value (s : string) : Number.t :=
  match Date_parse s with
  | Some t => Number.Int t
  | None => Number.NaN
  end.

Definition ago (n : Number.t) (unit : string) : string :=
  Number.toString n ++ " " ++ unit ++ (if Number.neq n 1 then "s" else "") ++ " ago".

(** The body of the [try] block. *)
Definition relative_time (dateString : string) : completion string :=
  let date := time_value dateString in
  let now := Number.Int Date_now in
  let diffMs := Number.sub now date in
  let diffSec := Number.floor_div diffMs 1000 in
  let diffMin := Number.floor_div diffSec 60 in
  let diffHour := Number.floor_div diffMin 60 in
  let diffDay := Number.floor_div diffHour 24 in
  let diffWeek := Number.floor_div diffDay 7 in
  let diffMonth := Number.floor_div diffDay 30 in
  let diffYear := Number.floor_div diffDay 365 in
  if Number.lt diffSec 60 then Return "just now"
  else if Number.lt diffMin 60 then Return (ago diffMin "minute")
  else if Number.lt diffHour 24 then Return (ago diffHour "hour")
  else if Number.lt diffDay 7 then Return (ago diffDay "day")
  else if Number.lt diffWeek 4 then Return (ago diffWeek "week")
  else if Number.lt diffMonth 12 then Return (ago diffMonth "month")
  else Return (ago diffYear "year").

Definition formatRelativeTime (dateString : string) : string :=
  if negb (truthy (JString dateString)) then ""
  else
    match relative_time dateString with
    | Return label => label
    | Throw _ => dateString
    end.
End FormatRelativeTime.

(** ** groupFilesByDirectory

    The object [grouped] is a map from directory names to arrays of
    files. A name that it does not own may still be found in
    [Object.prototype]: the member found there is truthy and has no
    [push]. *)

Inductive TypeError := NotAFunction.

(** [file.newPath !== '/dev/null' ? file.newPath : file.oldPath] *)
Definition path {H : Type} (file : FileDiff.t H) : string :=
  if negb (String.eqb (FileDiff.newPath file) "/dev/null")
  then FileDiff.newPath file
  else FileDiff.oldPath file.

(** [parts.length > 1 ? parts.slice(0, -1).join('/') : '/'] *)
Definition dir {H : Type} (file : FileDiff.t H) : string :=
  let parts := split "/" (path file) in
  if (1 <? length parts)%nat then join "/" (removelast parts) else "/".

Section GroupFilesByDirectory.
Context {H : Type}.

(** The body of the [forEach] callback. *)
Definition group_file (grouped : gmap string (list (FileDiff.t H))) (file : FileDiff.t H)
    : TypeError + gmap string (list (FileDiff.t H)) :=
  match grouped !! dir file with
  | Some files => inr (<[dir file := (files ++ [file])%list]> grouped)
  | None =>
      if bool_decide (dir file ∈ object_prototype_keys) then inl NotAFunction
      else inr (<[dir file := [file]]> grouped)
  end.

Definition groupFilesByDirectory (files : list (FileDiff.t H))
    : TypeError + gmap string (list (FileDiff.t H)) :=
  fold_left
    (fun grouped file =>
       match grouped with
       | inl e => inl e
       | inr g => group_file g file
       end)
    files (inr ∅).

End GroupFilesByDirectory.

(** ** extractFileContent

    The adapter of the diff viewer rebuilds the two sides of a file from
    its hunks. The argument is absent ([None]) or a file as the parser
    returns them. *)

(** The callback of the inner [forEach]. *)
Definition push_content (acc : list string * list string) (line : HunkLine.t)
    : list string * list string :=
  let '(oldLines, newLines) := acc in
  match HunkLine.type line with
  | HunkLine.context =>
      ((oldLines ++ [HunkLine.content line])%list, (newLines ++ [HunkLine.content line])%list)
  | HunkLine.del => ((oldLines ++ [HunkLine.content line])%list, newLines)
  | HunkLine.add => (oldLines, (newLines ++ [HunkLine.content line])%list)
  end.

(** The pair [(oldContent, newContent)]. *)
Definition extractFileContent (file : option (FileDiff.t Hunk.t)) : string * string :=
  match file with
  | None => ("", "")
  | Some f =>
      if (length (FileDiff.hunks f) =? 0)%nat then ("", "")
      else
        let '(oldLines, newLines) :=
          fold_left (fun acc hunk => fold_left push_content (Hunk.lines hunk) acc)
            (FileDiff.hunks f) ([], []) in
        (join (String LF "") oldLines, join (String LF "") newLines)
  end.

(** ** generatePatchName

    The storage manager names a patch that is saved without a name: by
    its message, else by its first file, else by its statistics. *)

(** [`${n}`] for a count *)
Definition decimal (n : nat) : string := Number.toString (Number.Int (Z.of_nat n)).

Definition generatePatchName (patchData : ParsedPatch.t) : string :=
  let metadata := ParsedPatch.metadata patchData in
  let stats := ParsedPatch.stats patchData in
  if negb (String.eqb (CommitMetadata.message metadata) "") then
    substring_to 50 (hd "" (split LF (CommitMetadata.message metadata)))
  else
    match ParsedPatch.files patchData with
    | file :: _ =>
        let firstFile :=
          if negb (String.eqb (FileDiff.newPath file) "")
          then FileDiff.newPath file
          else FileDiff.oldPath file in
        "Patch for " ++ List.last (split "/" firstFile) ""
    | [] =>
        "Patch (" ++ decimal (DiffStats.filesChanged stats) ++ " files, +"
          ++ decimal (DiffStats.additions stats) ++ " -"
          ++ decimal (DiffStats.deletions stats) ++ ")"
    end.

(** * The vocabulary of the specification *)

(** A value that [parse] accepts: a string that is not empty. *)
Definition nonempty_string (v : JsValue) : Prop :=
  exists s, v = JString s /\ s <> "".

(** Absent, empty or not textual. *)
Definition rejected (v : JsValue) : Prop :=
  v = JNull \/ v = JUndefined \/ v = JString "" \/ is_string v = false.

Definition scenario : string :=
"diff --git a/foo.txt b/foo.txt
index 123..456 100644
--- a/foo.txt
+++ b/foo.txt
@@ -1,2 +1,2 @@
 line one
-old line
+new line".

(** What the scenario expects of [parse], for a given content of
    [files[0].hunks[0].lines]. *)
Definition scenario_result (expected : list HunkLine.t) : Prop :=
  exists r f h,
    parse (JString scenario) = Return r
    /\ length (ParsedPatch.files r) = 1
    /\ ParsedPatch.files r !! 0 = Some f
    /\ FileDiff.additions f = 1
    /\ FileDiff.deletions f = 1
    /\ FileDiff.hunks f !! 0 = Some h
    /\ Hunk.lines h = expected.

#[global] Instance kind_eq_dec : EqDecision HunkLine.kind.
Proof. solve_decision. Defined.

(** The lines of a kind in a hunk, and in the hunks of a file. *)
Definition count (k : HunkLine.kind) (ls : list HunkLine.t) : nat :=
  length (filter (fun l => HunkLine.type l = k) ls).

Definition count_lines (k : HunkLine.kind) (f : FileDiff.t Hunk.t) : nat :=
  sum_list ((fun h => count k (Hunk.lines h)) <$> FileDiff.hunks f).

(** The counter that a file keeps for a kind of line; context lines have
    none. *)
Definition counter {H : Type} (k : HunkLine.kind) (o : FileDiff.t H) : nat :=
  match k with
  | HunkLine.add => FileDiff.additions o
  | HunkLine.del => FileDiff.deletions o
  | HunkLine.context => 0
  end.

(** The lines of a text, as the [m] flag delimits them: each line
    terminator (LF or CR) ends a line. *)
Fixpoint text_lines (s : string) : list string :=
  match s with
  | "" => [""]
  | String c s' =>
      if is_line_terminator c then "" :: text_lines s'
      else match text_lines s' with
           | line :: rest => String c line :: rest
           | [] => [String c ""]
           end
  end.

(** No character of the string is a line terminator. *)
Fixpoint one_line (p : string) : bool :=
  match p with
  | "" => true
  | String c p' => negb (is_line_terminator c) && one_line p'
  end.

(** Some line of the text starts with one of the prefixes. *)
Definition has_line_starting (prefixes : list string) (text : string) : Prop :=
  exists line p, line ∈ text_lines text /\ p ∈ prefixes /\ startsWith line p = true.

(** The four line starts as the specification words them, and as the
    patterns have them. *)
Definition claimed_line_starts : list string := ["diff --git"; "---"; "+++"; "@@ "].
Definition indicator_line_starts : list string := ["diff --git"; "--- "; "+++ "; "@@ "].

(** What the specification promises of a binary file. *)
Definition binary_file_is_empty (f : FileDiff.t Hunk.t) : Prop :=
  FileDiff.isBinary f = true
  /\ FileDiff.hunks f = []
  /\ FileDiff.additions f = 0
  /\ FileDiff.deletions f = 0.

(** A binary section with a hunk header after the binary line, and one
    with a hunk before it. *)
Definition binary_then_hunk : string :=
"diff --git a/x.png b/x.png
Binary files a/x.png and b/x.png differ
@@ -1 +1 @@
+x".

Definition hunk_then_binary : string :=
"diff --git a/x.png b/x.png
@@ -1 +1 @@
+x
Binary files a/x.png and b/x.png differ".

(** The patterns that are blind to letter case. *)
Fixpoint case_blind (r : regex) : Prop :=
  match r with
  | Lit l => toLowerCase l = l /\ forall s, String.prefix l (toLowerCase s) = String.prefix l s
  | Rep cls _ _ _ => forall c, cls (lower_char c) = cls c
  | Group r1 => case_blind r1
  | Cat r1 r2 => case_blind r1 /\ case_blind r2
  | Bol | Eol => True
  end.

Definition lower_match (m : option MatchResult) : option MatchResult :=
  fmap (M := option) (fmap (M := list) toLowerCase) m.

(** ** Invariants of the parser state *)

Section FileInvariants.
Import Parser.

(** A hunk cursor needs a file cursor. *)
Definition cursor_ok (σ : state) : Prop :=
  currentFile σ = None -> currentHunk σ = None.

(** The hunk at a location has no line. *)
Definition empty_at (σ : state) (h : loc) : Prop :=
  exists ho, hunk_objs σ !! h = Some ho /\ Hunk.lines ho = [].

(** The file at [t] is current, and nothing was recorded for it. *)
Definition fresh (t : loc) (σ : state) : Prop :=
  currentFile σ = Some t /\ currentHunk σ = None
  /\ exists o, file_objs σ !! t = Some o
       /\ FileDiff.hunks o = [] /\ FileDiff.additions o = 0 /\ FileDiff.deletions o = 0.

(** The file at [t] is binary with no line counted, its hunks have no
    line, and so has the current hunk while the file is current; once
    another file is current, the current hunk is none of its hunks. *)
Definition quiet (t : loc) (σ : state) : Prop :=
  exists o, file_objs σ !! t = Some o
    /\ FileDiff.isBinary o = true
    /\ FileDiff.additions o = 0 /\ FileDiff.deletions o = 0
    /\ Forall (empty_at σ) (FileDiff.hunks o)
    /\ forall h, currentHunk σ = Some h ->
         (currentFile σ = Some t /\ empty_at σ h)
         \/ (currentFile σ <> Some t /\ h ∉ FileDiff.hunks o).

(** The file at [t] is at index [k] of [files], or is current and will
    be pushed there. *)
Definition pending (k : nat) (t : loc) (σ : state) : Prop :=
  (length (files σ) = k /\ currentFile σ = Some t) \/ files σ !! k = Some t.

(** The file at [t] has no hunk and is not current any more. *)
Definition frozen (t : loc) (σ : state) : Prop :=
  (exists o, file_objs σ !! t = Some o /\ FileDiff.hunks o = [])
  /\ currentFile σ <> Some t.

(** An update of the marker lines: it leaves hunks and counters alone
    and does not clear [isBinary]. *)
Definition benign (upd : FileDiff.t loc -> FileDiff.t loc) : Prop :=
  forall o,
    FileDiff.hunks (upd o) = FileDiff.hunks o
    /\ FileDiff.additions (upd o) = FileDiff.additions o
    /\ FileDiff.deletions (upd o) = FileDiff.deletions o
    /\ (FileDiff.isBinary o = true -> FileDiff.isBinary (upd o) = true).

(** Every location held by the cursors, by [files] and by the [hunks] of
    a file is a location of the store. *)
Definition hunks_in (n : nat) (o : FileDiff.t loc) : Prop :=
  Forall (fun h => h < n) (FileDiff.hunks o).

Definition closed (σ : state) : Prop :=
  (forall f, currentFile σ = Some f -> f < length (file_objs σ))
  /\ (forall h, currentHunk σ = Some h -> h < length (hunk_objs σ))
  /\ Forall (fun f => f < length (file_objs σ)) (files σ)
  /\ Forall (hunks_in (length (hunk_objs σ))) (file_objs σ).


(** The lines of a kind in the hunks at some locations, and in the
    current hunk. *)
Definition recorded (k : HunkLine.kind) (σ : state) (hs : list loc) : nat :=
  sum_list ((fun h => count k (Hunk.lines (read_hunk σ h))) <$> hs).

Definition open (k : HunkLine.kind) (σ : state) : nat :=
  match currentHunk σ with
  | Some h => count k (Hunk.lines (read_hunk σ h))
  | None => 0
  end.

(** The current hunk is in no [hunks] array yet. *)
Definition unpushed (σ : state) : Prop :=
  forall h, currentHunk σ = Some h ->
    Forall (fun o => h ∉ FileDiff.hunks o) (file_objs σ).

(** Each counter of a file is the number of such lines in its hunks,
    and in the current hunk when the file is the current one. *)
Definition balanced (σ : state) : Prop :=
  forall k, k <> HunkLine.context ->
  forall f o, file_objs σ !! f = Some o ->
    counter k o
    = recorded k σ (FileDiff.hunks o)
      + (if decide (currentFile σ = Some f) then open k σ else 0).

Definition sound (σ : state) : Prop := unpushed σ /\ balanced σ.

(** A line that starts neither a file nor a hunk. *)
Definition plain (line : string) : Prop :=
  startsWith line "diff --git " = false /\ startsWith line "@@" = false.

(** A line that starts no hunk and is not the header of a file; it may
    start with [diff --git] when it does not hold the two paths. *)
Definition no_hunk_no_file (line : string) : Prop :=
  startsWith line "@@" = false
  /\ (startsWith line "diff --git " = true -> regex_match re_file_header line = None).

(** The lines after a section: none, or the header of the next file. *)
Definition section_ends (rest : list string) : Prop :=
  rest = []
  \/ exists header rest',
       rest = header :: rest'
       /\ startsWith header "diff --git " = true
       /\ is_Some (regex_match re_file_header header).

(** The lines that start with [@@] are hunk headers. *)
Definition hunk_headers_match (lines : list string) : Prop :=
  Forall (fun l => startsWith l "@@" = true -> is_Some (regex_match re_hunk_header l)) lines.

End FileInvariants.

(** The string holds no occurrence of the character. *)
Fixpoint lacks (x : ascii) (s : string) : bool :=
  match s with
  | "" => true
  | String c s' => negb (Ascii.eqb c x) && lacks x s'
  end.

(** Every character of the string is in the class. *)
Fixpoint all_in (cls : ascii -> bool) (s : string) : bool :=
  match s with
  | "" => true
  | String c s' => cls c && all_in cls s'
  end.

(** The pieces of a text with another text added to the last piece. *)
Fixpoint app_last (pieces : list string) (b : string) : list string :=
  match pieces with
  | [] => [b]
  | [p] => [p ++ b]
  | p :: ps => p :: app_last ps b
  end.

(** A line that starts a file: it starts with [diff --git ] and holds
    the two paths. *)
Definition valid_header (line : string) : Prop :=
  startsWith line "diff --git " = true /\ is_Some (regex_match re_file_header line).

(** The lines that start with [diff --git ]. *)
Definition header_lines (lines : list string) : list string :=
  filter (fun l => startsWith l "diff --git " = true) lines.

(** ** A file section that is well formed *)

(** The three kinds of content line. *)
Definition added_line (l : string) : bool :=
  startsWith l "+" && negb (startsWith l "+++").
Definition deleted_line (l : string) : bool :=
  startsWith l "-" && negb (startsWith l "---").
Definition context_line (l : string) : bool := startsWith l " ".

Definition content_line (l : string) : Prop :=
  added_line l = true \/ deleted_line l = true \/ context_line l = true.

(** The entry of a content line: its kind, and its text without the
    sign. *)
Definition entry (l : string) : HunkLine.t :=
  HunkLine.mk (if startsWith l "+" then HunkLine.add
               else if startsWith l "-" then HunkLine.del
               else HunkLine.context)
              (substring_from 1 l).

(** The body of a hunk from its first added or deleted line on. *)
Fixpoint drop_leading_context (body : list string) : list string :=
  match body with
  | [] => []
  | l :: body' => if context_line l then drop_leading_context body' else body
  end.

(** A line that opens a hunk, and the hunk of such a line and of the
    content lines after it. *)
Definition hunk_start (l : string) : Prop :=
  startsWith l "@@" = true /\ is_Some (regex_match re_hunk_header l).

Definition hunk_of (l : string) (body : list string) : Hunk.t :=
  let m := default [] (regex_match re_hunk_header l) in
  Hunk.mk (parseInt (group m 1))
          (if String.eqb (group m 2) "" then 1%float else parseInt (group m 2))
          (parseInt (group m 3))
          (if String.eqb (group m 4) "" then 1%float else parseInt (group m 4))
          (trim (group m 5))
          (entry <$> drop_leading_context body).

(** A line between the header of a file and its first hunk, and what it
    makes of the file. *)
Definition preamble_line (l : string) : Prop :=
  startsWith l "diff --git " = false
  /\ startsWith l "@@" = false
  /\ startsWith l "Binary files " = false.

Definition mark {H : Type} (l : string) (o : FileDiff.t H) : FileDiff.t H :=
  if startsWith l "new file mode"
  then FileDiff.set_oldPath "/dev/null" (FileDiff.set_type FileDiff.added o)
  else if startsWith l "deleted file mode"
  then FileDiff.set_newPath "/dev/null" (FileDiff.set_type FileDiff.deleted o)
  else if startsWith l "rename from" then FileDiff.set_type FileDiff.renamed o
  else o.

(** The lines of a kind in some hunks. *)
Definition total (k : HunkLine.kind) (hs : list Hunk.t) : nat :=
  sum_list ((fun h => count k (Hunk.lines h)) <$> hs).

(** The file with the paths and the kind of [o], that holds the hunks
    [hs] and counts their lines. *)
Definition section_file {H : Type} (o : FileDiff.t H) (hs : list Hunk.t) : FileDiff.t Hunk.t :=
  FileDiff.mk (FileDiff.oldPath o) (FileDiff.newPath o) (FileDiff.type o) hs
    (total HunkLine.add hs) (total HunkLine.del hs) false.

(** The state of the parser in such a section: one file, current, that
    holds all hunks but the last, which is current. *)
Definition section_state (o : FileDiff.t loc) (hs : list Hunk.t) : Parser.state :=
  Parser.mk
    [FileDiff.mk (FileDiff.oldPath o) (FileDiff.newPath o) (FileDiff.type o)
       (seq 0 (pred (length hs))) (total HunkLine.add hs) (total HunkLine.del hs) false]
    hs [] (Some 0)
    (match hs with [] => None | _ => Some (pred (length hs)) end).

(** The lines of a hunk after one more content line, as the loop adds
    them. *)
Definition lines_after (ls : list HunkLine.t) (l : string) : list HunkLine.t :=
  if added_line l || deleted_line l || (context_line l && (0 <? length ls)%nat)
  then (ls ++ [entry l])%list else ls.

Definition with_lines (ls : list HunkLine.t) (h : Hunk.t) : Hunk.t :=
  Hunk.mk (Hunk.oldStart h) (Hunk.oldLines h) (Hunk.newStart h) (Hunk.newLines h)
    (Hunk.heading h) ls.

(** ** Two runs of the parser, one after the other

    The state of a run that goes on from the end of another: the objects
    of the second run stand after those of the first, under locations
    that are shifted by the number of objects of the first. *)
Definition shift_file (nh : nat) (o : FileDiff.t loc) : FileDiff.t loc :=
  FileDiff.with_hunks (Nat.add nh <$> FileDiff.hunks o) o.

Definition graft (β τ : Parser.state) : Parser.state :=
  Parser.mk
    (Parser.file_objs β ++ (shift_file (length (Parser.hunk_objs β)) <$> Parser.file_objs τ))%list
    (Parser.hunk_objs β ++ Parser.hunk_objs τ)%list
    (Parser.files β ++ (Nat.add (length (Parser.file_objs β)) <$> Parser.files τ))%list
    (Nat.add (length (Parser.file_objs β)) <$> Parser.currentFile τ)
    (Nat.add (length (Parser.hunk_objs β)) <$> Parser.currentHunk τ).

(** The text ends, or goes on with a line terminator. *)
Definition ends_line (rest : string) : Prop :=
  match rest with
  | "" => True
  | String c _ => is_line_terminator c = true
  end.

(** The optional count of a hunk header: a comma and digits, or nothing;
    and the number that the parser makes of it. *)
Definition count_text (o : option string) : string :=
  match o with
  | Some b => "," ++ b
  | None => ""
  end.

Definition count_of (o : option string) : float :=
  match o with
  | Some b => if String.eqb b "" then 1%float else parseInt b
  | None => 1%float
  end.

(** ** The mail headers of a patch *)

(** A line that the metadata loop passes over once the message is
    closed: no header of the four, and not a parenthesised list. *)
Definition meta_quiet (l : string) : Prop :=
  startsWith l "From " = false
  /\ startsWith l "From: " = false
  /\ startsWith l "Date: " = false
  /\ startsWith l "Subject: " = false
  /\ regex_test false re_refs_line l = false.

(** A line that goes on with the message of the subject: not empty once
    trimmed, and no start of the three dashes. *)
Definition message_line (l : string) : Prop :=
  startsWith l "Subject: " = false /\ trim l <> "" /\ startsWith l "---" = false.

(** ** Files grouped by directory *)

(** The files of a directory, in their order, and the entry that a map
    holds for them: none when there is no such file. *)
Definition group_of {H : Type} (d : string) (files : list (FileDiff.t H)) : list (FileDiff.t H) :=
  filter (fun f => dir f = d) files.

Definition entry_of {A : Type} (l : list A) : option (list A) :=
  match l with
  | [] => None
  | _ => Some l
  end.

(** The directory of the file is a name that every object inherits. *)
Definition inherited_dir {H : Type} (file : FileDiff.t H) : Prop :=
  dir file ∈ object_prototype_keys.

(** The two paths of a file record are not empty, a file that is added
    has no old path and a file that is deleted has no new path. *)
Definition consistent {H : Type} (o : FileDiff.t H) : Prop :=
  FileDiff.oldPath o <> "" /\ FileDiff.newPath o <> ""
  /\ (FileDiff.type o = FileDiff.added -> FileDiff.oldPath o = "/dev/null")
  /\ (FileDiff.type o = FileDiff.deleted -> FileDiff.newPath o = "/dev/null").

(** Every file object of the store is consistent. *)
Definition named (σ : Parser.state) : Prop := Forall consistent (Parser.file_objs σ).

(** ** The label of an age in milliseconds *)


(** A line that the loop of [parseFiles] does not read. *)
Definition unread (l : string) : Prop :=
  startsWith l "+++" = true
  \/ startsWith l "---" = true
  \/ (startsWith l "diff --git " = false
      /\ startsWith l "new file mode" = false
      /\ startsWith l "deleted file mode" = false
      /\ startsWith l "rename from" = false
      /\ startsWith l "Binary files " = false
      /\ startsWith l "@@" = false
      /\ startsWith l "+" = false
      /\ startsWith l "-" = false
      /\ startsWith l " " = false).

(** * Proofs *)

Ltac each_char c := destruct c as [[] [] [] [] [] [] [] []].

Ltac state_simpl :=
  cbn [Parser.file_objs Parser.hunk_objs Parser.files Parser.currentFile Parser.currentHunk
       Parser.update_file Parser.update_hunk Parser.push_file Parser.new_file
       Parser.new_hunk Parser.set_currentHunk] in *.

(** ** The statistics *)

Lemma calculateStats_fold (files : list (FileDiff.t Hunk.t)) (n a d : nat) :
  fold_left
    (fun stats file =>
       DiffStats.mk (DiffStats.filesChanged stats)
         (DiffStats.additions stats + FileDiff.additions file)
         (DiffStats.deletions stats + FileDiff.deletions file))
    files (DiffStats.mk n a d)
  = DiffStats.mk n (a + sum_list (FileDiff.additions <$> files))
                   (d + sum_list (FileDiff.deletions <$> files)).
Proof.
  revert a d. induction files as [|f files IH]; intros a d; cbn.
  - f_equal; lia.
  - rewrite IH. f_equal; lia.
Qed.

Lemma calculateStats_sums (files : list (FileDiff.t Hunk.t)) :
  calculateStats files
  = DiffStats.mk (length files) (sum_list (FileDiff.additions <$> files))
                 (sum_list (FileDiff.deletions <$> files)).
Proof. unfold calculateStats. now rewrite calculateStats_fold. Qed.

Lemma guard_accepts (v : JsValue) :
  negb (truthy v) || negb (is_string v) = false <-> nonempty_string v.
Proof.
  split.
  - destruct v as [ | |b|x|z|s| | ]; cbn;
      try discriminate; try (rewrite orb_true_r; discriminate).
    destruct (String.eqb_spec s ""); cbn; [discriminate|].
    intros _. exists s. auto.
  - intros (s & -> & Hs). cbn.
    destruct (String.eqb_spec s ""); [contradiction|reflexivity].
Qed.

Lemma guard_rejects (v : JsValue) :
  negb (truthy v) || negb (is_string v) = true <-> ~ nonempty_string v.
Proof.
  rewrite <- guard_accepts. destruct (negb (truthy v) || negb (is_string v)); split; congruence.
Qed.

(** C2. For every string that [parse] accepts, the [stats] of the result
    are the aggregate of its [files]: [filesChanged] is their number,
    [additions] and [deletions] are the sums of the files' counters. *)
Theorem parse_stats_aggregate (s : string) (r : ParsedPatch.t) :
  parse (JString s) = Return r ->
  DiffStats.filesChanged (ParsedPatch.stats r) = length (ParsedPatch.files r)
  /\ DiffStats.additions (ParsedPatch.stats r)
     = sum_list (FileDiff.additions <$> ParsedPatch.files r)
  /\ DiffStats.deletions (ParsedPatch.stats r)
     = sum_list (FileDiff.deletions <$> ParsedPatch.files r).
Proof.
  unfold parse. destruct (negb (truthy (JString s)) || negb (is_string (JString s))).
  - discriminate.
  - intros [= <-]. cbn [ParsedPatch.stats ParsedPatch.files].
    rewrite calculateStats_sums. cbn. auto.
Qed.

Lemma parse_stats_aggregate_witness :
  exists r, parse (JString scenario) = Return r
    /\ DiffStats.filesChanged (ParsedPatch.stats r) = length (ParsedPatch.files r)
    /\ DiffStats.additions (ParsedPatch.stats r)
       = sum_list (FileDiff.additions <$> ParsedPatch.files r)
    /\ DiffStats.deletions (ParsedPatch.stats r)
       = sum_list (FileDiff.deletions <$> ParsedPatch.files r).
Proof.
  eexists. split; [vm_compute; reflexivity|].
  eapply (parse_stats_aggregate scenario). vm_compute. reflexivity.
Defined.

(** ** The minimal single-file patch *)

(** C3, as stated: the hunk would hold the context line, the deleted line
    and the added line. It does not: the context line comes first, when the
    hunk has no line yet, and such a line is skipped. *)
Lemma scenario_three_lines_refuted :
  ~ scenario_result
      [ HunkLine.mk HunkLine.context "line one";
        HunkLine.mk HunkLine.del "old line";
        HunkLine.mk HunkLine.add "new line" ].
Proof.
  intros (r & f & h & Hr & _ & Hf & _ & _ & Hh & Hl).
  vm_compute in Hr. injection Hr as <-.
  vm_compute in Hf. injection Hf as <-.
  vm_compute in Hh. injection Hh as <-.
  discriminate Hl.
Qed.

(** C3, amended: on the scenario [parse] returns one file with one
    addition and one deletion, and the lines of its first hunk are the
    deleted line and the added line, in that order; the leading context
    line is not recorded. *)
Theorem scenario_two_lines :
  scenario_result
    [ HunkLine.mk HunkLine.del "old line";
      HunkLine.mk HunkLine.add "new line" ].
Proof.
  unfold scenario_result. eexists _, _, _.
  split; [vm_compute; reflexivity|].
  cbn [ParsedPatch.files]. repeat split; reflexivity.
Qed.

(** ** Invalid input *)

Lemma rejected_iff (v : JsValue) : rejected v <-> ~ nonempty_string v.
Proof.
  unfold rejected, nonempty_string. split.
  - intros [->|[->|[->|H]]] (s & E & Hs); try discriminate.
    + injection E as <-. contradiction.
    + subst v. discriminate.
  - intros H. destruct v as [ | |b|x|z|s| | ]; auto.
    destruct (String.eqb_spec s "") as [->|Hs]; auto.
    exfalso. apply H. eauto.
Qed.

Lemma parse_rejected (v : JsValue) : rejected v -> parse v = Throw InvalidInput.
Proof.
  intros H. apply rejected_iff, guard_rejects in H. unfold parse. now rewrite H.
Qed.

(** C7. [parse] throws the InvalidInput error exactly on the inputs that
    are absent, empty or not a string; the error is the whole outcome, no
    result comes with it; on every other input, the strings that are not
    empty, [parse] returns a result, whose [raw] is the input. *)
Theorem parse_throws_iff_rejected (v : JsValue) :
  (parse v = Throw InvalidInput <-> rejected v)
  /\ (nonempty_string v <->
      exists r, parse v = Return r /\ JString (ParsedPatch.raw r) = v).
Proof.
  rewrite rejected_iff, <- guard_rejects. unfold parse.
  destruct (negb (truthy v) || negb (is_string v)) eqn:G.
  - split; [tauto|]. split.
    + intros H. apply guard_accepts in H. congruence.
    + intros (r & H & _). discriminate.
  - split; [split; intros; discriminate|].
    apply guard_accepts in G. split; [|tauto].
    intros _. destruct G as (s & -> & _). eexists. split; reflexivity.
Qed.

Lemma parse_throws_iff_rejected_witness :
  parse JUndefined = Throw InvalidInput
  /\ exists r, parse (JString "x") = Return r /\ JString (ParsedPatch.raw r) = JString "x".
Proof.
  split.
  - apply (proj1 (parse_throws_iff_rejected JUndefined)). right. left. reflexivity.
  - apply (proj2 (parse_throws_iff_rejected (JString "x"))).
    exists "x". split; [reflexivity|discriminate].
Defined.

(** C9. On an input that is absent, empty or not a string, [isValidPatch]
    returns false (it has no [throw] and calls nothing that throws), where
    [parse] throws InvalidInput. *)
Theorem isValidPatch_rejected (v : JsValue) :
  rejected v -> isValidPatch v = false /\ parse v = Throw InvalidInput.
Proof.
  intros H. split.
  - apply rejected_iff, guard_rejects in H. unfold isValidPatch. now rewrite H.
  - now apply parse_rejected.
Qed.

Lemma isValidPatch_rejected_witness :
  isValidPatch (JNumber 42%float) = false /\ parse (JNumber 42%float) = Throw InvalidInput.
Proof.
  apply (isValidPatch_rejected (JNumber 42%float)).
  right. right. right. reflexivity.
Defined.

(** ** formatRelativeTime on an invalid date *)

(** C6. A string that is not empty and that the host does not read as a
    date has the time value NaN: every comparison fails, the last [return]
    is taken, and the label is built from NaN. The [catch] clause, which
    would return the input, is never entered. *)
Theorem formatRelativeTime_invalid_date
    (Date_parse : string -> option Z) (Date_now : Z) (dateString : string) :
  dateString <> "" ->
  Date_parse dateString = None ->
  formatRelativeTime Date_parse Date_now dateString = "NaN years ago".
Proof.
  intros Hne Hinv. unfold formatRelativeTime, relative_time, time_value.
  rewrite Hinv. cbn.
  destruct (String.eqb_spec dateString ""); [contradiction|reflexivity].
Qed.

Lemma formatRelativeTime_invalid_date_witness :
  formatRelativeTime (fun _ => None) 0 "not a date" = "NaN years ago"
  /\ formatRelativeTime (fun _ => None) 0 "not a date" <> "not a date".
Proof.
  assert (E : formatRelativeTime (fun _ => None) 0 "not a date" = "NaN years ago").
  { apply (formatRelativeTime_invalid_date (fun _ => None) 0 "not a date");
      [discriminate|reflexivity]. }
  split; [exact E|]. rewrite E. discriminate.
Defined.

(** ** A hunk header that does not match *)

(** C1. After a hunk with one added line, a line that starts with [@@] and
    is no hunk header leaves the hunk current although it was pushed; the
    end of the input pushes it again. The file then counts one addition,
    and its hunks hold two added lines. *)
Theorem counts_diverge_after_bad_hunk_header :
  exists r f,
    parse (JString "diff --git a/f b/f
@@ -1 +1 @@
+x
@@ bad") = Return r
    /\ ParsedPatch.files r = [f]
    /\ FileDiff.additions f = 1
    /\ count_lines HunkLine.add f = 2.
Proof.
  eexists _, _. split; [vm_compute; reflexivity|].
  cbn [ParsedPatch.files]. split; [reflexivity|]. split; reflexivity.
Qed.

(** C5. The content line after a hunk header that does not match is not
    dropped: it is added to the hunk before, which stays current; it is
    counted; and that hunk is in the file's [hunks] twice. *)
Theorem bad_hunk_header_keeps_hunk_open :
  exists r f h,
    parse (JString "diff --git a/f b/f
@@ -1 +1 @@
+x
@@ bad
+y") = Return r
    /\ ParsedPatch.files r = [f]
    /\ FileDiff.hunks f = [h; h]
    /\ Hunk.lines h = [HunkLine.mk HunkLine.add "x"; HunkLine.mk HunkLine.add "y"]
    /\ FileDiff.additions f = 2.
Proof.
  eexists _, _, _. split; [vm_compute; reflexivity|].
  cbn [ParsedPatch.files]. split; [reflexivity|].
  cbn [FileDiff.hunks]. split; [reflexivity|]. split; reflexivity.
Qed.

(** ** Matching and letter case

    A pattern whose literals hold no letter and whose classes do not tell
    lower case from upper case matches a text and its lower-case form at
    the same places. *)

Lemma lower_char_line_terminator (c : ascii) :
  is_line_terminator (lower_char c) = is_line_terminator c.
Proof. each_char c; reflexivity. Qed.

Lemma lower_char_dot (c : ascii) : Ascii.eqb (lower_char c) "." = Ascii.eqb c ".".
Proof. each_char c; reflexivity. Qed.

Lemma lower_char_slash (c : ascii) : Ascii.eqb (lower_char c) "/" = Ascii.eqb c "/".
Proof. each_char c; reflexivity. Qed.

Lemma toLowerCase_length (s : string) : String.length (toLowerCase s) = String.length s.
Proof. induction s; simpl; congruence. Qed.

Lemma toLowerCase_app (s t : string) : toLowerCase (s ++ t) = toLowerCase s ++ toLowerCase t.
Proof.
  induction s as [|c s IH]; [reflexivity|].
  change (toLowerCase (String c (s ++ t)) = String (lower_char c) (toLowerCase s ++ toLowerCase t)).
  simpl. now rewrite IH.
Qed.

Lemma toLowerCase_substring_from (n : nat) (s : string) :
  substring_from n (toLowerCase s) = toLowerCase (substring_from n s).
Proof. revert s. induction n; intros [|c s]; simpl; auto. Qed.

Lemma toLowerCase_substring_to (n : nat) (s : string) :
  substring_to n (toLowerCase s) = toLowerCase (substring_to n s).
Proof. revert s. induction n; intros [|c s]; simpl; auto. now rewrite IHn. Qed.

Lemma toLowerCase_consumed (s rest : string) :
  consumed (toLowerCase s) (toLowerCase rest) = toLowerCase (consumed s rest).
Proof.
  unfold consumed. now rewrite !toLowerCase_length, toLowerCase_substring_to.
Qed.

Lemma last_char_lower (prev : option ascii) (l : string) :
  toLowerCase l = l -> last_char (lower_char <$> prev) l = lower_char <$> last_char prev l.
Proof.
  revert prev. induction l as [|c l IH]; intros prev E; simpl; [reflexivity|].
  injection E as Ec El. rewrite <- (IH (Some c) El). simpl. now rewrite Ec.
Qed.

Lemma at_bol_lower (m : bool) (prev : option ascii) :
  at_bol m (lower_char <$> prev) = at_bol m prev.
Proof. destruct prev; simpl; [|reflexivity]. now rewrite lower_char_line_terminator. Qed.

Lemma at_eol_lower (m : bool) (s : string) : at_eol m (toLowerCase s) = at_eol m s.
Proof. destruct s; simpl; [reflexivity|]. now rewrite lower_char_line_terminator. Qed.

Lemma rep_lower (cls : ascii -> bool) (greedy : bool)
    (k k' : option ascii -> string -> option MatchResult) :
  (forall c, cls (lower_char c) = cls c) ->
  (forall p s, k' (lower_char <$> p) (toLowerCase s) = lower_match (k p s)) ->
  forall s lo hi prev,
    rep cls greedy lo hi (lower_char <$> prev) (toLowerCase s) k'
    = lower_match (rep cls greedy lo hi prev s k).
Proof.
  intros Hcls Hk. induction s as [|c s IH]; intros lo hi prev.
  - simpl. destruct lo; [apply (Hk prev "")|reflexivity].
  - cbn [toLowerCase rep]. rewrite Hcls.
    assert (Hstop : match lo with
                    | O => k' (lower_char <$> prev) (String (lower_char c) (toLowerCase s))
                    | S _ => None
                    end
                    = lower_match (match lo with O => k prev (String c s) | S _ => None end)).
    { destruct lo; [apply (Hk prev (String c s))|reflexivity]. }
    specialize (IH (pred lo) (pred <$> hi) (Some c)). cbn [fmap option_fmap option_map] in IH.
    destruct (cls c && may_repeat hi); [|exact Hstop].
    destruct greedy.
    + rewrite IH. destruct (rep cls true (pred lo) (pred <$> hi) (Some c) s k);
        [reflexivity|exact Hstop].
    + rewrite Hstop. destruct (match lo with O => k prev (String c s) | S _ => None end);
        [reflexivity|exact IH].
Qed.

Lemma run_lower (m : bool) (r : regex) :
  case_blind r ->
  forall (k k' : cont),
    (forall p s caps,
        k' (lower_char <$> p) (toLowerCase s) (toLowerCase <$> caps) = lower_match (k p s caps)) ->
    forall prev s caps,
      run m r (lower_char <$> prev) (toLowerCase s) (toLowerCase <$> caps) k'
      = lower_match (run m r prev s caps k).
Proof.
  induction r as [l|cls lo hi greedy|r1 IH1|r1 IH1 r2 IH2| | ];
    intros Hr k k' Hk prev s caps; cbn [run].
  - destruct Hr as [Hl Hp]. rewrite Hp. destruct (String.prefix l s); [|reflexivity].
    rewrite last_char_lower, toLowerCase_substring_from by exact Hl. apply Hk.
  - apply (rep_lower cls greedy (fun p s' => k p s' caps)
             (fun p s' => k' p s' (toLowerCase <$> caps)) Hr).
    intros p s'. apply Hk.
  - apply IH1; [exact Hr|]. intros p s' caps'.
    rewrite toLowerCase_consumed.
    replace ((toLowerCase <$> caps') ++ [toLowerCase (consumed s s')])%list
      with (toLowerCase <$> (caps' ++ [consumed s s'])%list)
      by (now rewrite fmap_app).
    apply Hk.
  - destruct Hr as [Hr1 Hr2]. apply IH1; [exact Hr1|]. intros p s' caps'.
    apply IH2; assumption.
  - rewrite at_bol_lower. destruct (at_bol m prev); [apply Hk|reflexivity].
  - rewrite at_eol_lower. destruct (at_eol m s); [apply Hk|reflexivity].
Qed.

Lemma match_here_lower (m : bool) (r : regex) :
  case_blind r ->
  forall prev s,
    match_here m r (lower_char <$> prev) (toLowerCase s) = lower_match (match_here m r prev s).
Proof.
  intros Hr prev s. unfold match_here.
  refine (run_lower m r Hr (fun _ s' caps => Some (consumed s s' :: caps))
            (fun _ s' caps => Some (consumed (toLowerCase s) s' :: caps)) _ prev s []).
  intros p s' caps. cbn. now rewrite toLowerCase_consumed.
Qed.

Lemma search_lower (m : bool) (r : regex) :
  case_blind r ->
  forall s prev,
    search m r (lower_char <$> prev) (toLowerCase s) = lower_match (search m r prev s).
Proof.
  intros Hr. induction s as [|c s IH]; intros prev.
  - pose proof (match_here_lower m r Hr prev "") as E.
    cbn [toLowerCase search] in *. rewrite E.
    destruct (match_here m r prev ""); reflexivity.
  - pose proof (match_here_lower m r Hr prev (String c s)) as E.
    cbn [toLowerCase search] in *. rewrite E.
    destruct (match_here m r prev (String c s)); [reflexivity|]. apply (IH (Some c)).
Qed.

Lemma prefix_one_char (x c : ascii) (s : string) :
  String.prefix (String x "") (String c s) = Ascii.eqb c x.
Proof.
  cbn. destruct (ascii_dec x c) as [->|N].
  - rewrite Ascii.eqb_refl. now destruct s.
  - symmetry. apply Ascii.eqb_neq. congruence.
Qed.

Lemma case_blind_extension : case_blind re_extension.
Proof.
  cbn. repeat split; try reflexivity.
  - intros [|c s]; [reflexivity|]. cbn [toLowerCase].
    now rewrite !prefix_one_char, lower_char_dot.
  - intros c. unfold not_char. now rewrite lower_char_dot.
Qed.

Lemma getFileExtension_lower (p : string) :
  getFileExtension (toLowerCase p) = toLowerCase (getFileExtension p).
Proof.
  unfold getFileExtension, regex_match.
  pose proof (search_lower false re_extension case_blind_extension p None) as E.
  cbn [fmap option_fmap option_map] in E. rewrite E.
  destruct (search false re_extension None p) as [m|]; [|reflexivity].
  cbn. unfold group. destruct m as [|w [|g m]]; reflexivity.
Qed.

Lemma split_slash_lower (p : string) :
  split "/" (toLowerCase p) = toLowerCase <$> split "/" p.
Proof.
  induction p as [|c p IH]; [reflexivity|].
  cbn [toLowerCase split]. rewrite lower_char_slash, IH.
  destruct (Ascii.eqb c "/"); [reflexivity|].
  destruct (split "/" p); reflexivity.
Qed.

Lemma last_lower (l : list string) :
  List.last (toLowerCase <$> l) "" = toLowerCase (List.last l "").
Proof.
  induction l as [|a l IH]; [reflexivity|].
  destruct l; [reflexivity|]. exact IH.
Qed.

Lemma filename_lower (p : string) :
  List.last (split "/" (toLowerCase p)) "" = toLowerCase (List.last (split "/" p) "").
Proof. now rewrite split_slash_lower, last_lower. Qed.

(** [detectLanguage] reads its argument through [toLowerCase] only. *)
Lemma detectLanguage_lower (p q : string) :
  toLowerCase p = toLowerCase q -> detectLanguage p = detectLanguage q.
Proof.
  intros E. unfold detectLanguage.
  now rewrite <- !getFileExtension_lower, <- !filename_lower, E.
Qed.

(** C10. The lookup of the extension is blind to letter case: two paths
    that differ only in the case of the letters after a dot, the last one
    in particular, have the same language; [a.PY] and [a.py] are both
    python. *)
Theorem detectLanguage_extension_case :
  (forall stem e1 e2 : string,
      toLowerCase e1 = toLowerCase e2 ->
      detectLanguage (stem ++ "." ++ e1) = detectLanguage (stem ++ "." ++ e2))
  /\ detectLanguage "a.PY" = JString "python"
  /\ detectLanguage "a.py" = JString "python".
Proof.
  split; [|split; reflexivity].
  intros stem e1 e2 E. apply detectLanguage_lower.
  now rewrite !toLowerCase_app, E.
Qed.

Lemma detectLanguage_extension_case_witness :
  detectLanguage ("src/Main" ++ "." ++ "Rs") = detectLanguage ("src/Main" ++ "." ++ "rS")
  /\ detectLanguage ("src/Main" ++ "." ++ "Rs") = JString "rust".
Proof.
  split; [|reflexivity].
  apply (proj1 detectLanguage_extension_case "src/Main" "Rs" "rS"). reflexivity.
Defined.

(** ** isValidPatch *)

Lemma prefix_nil_l (s : string) : String.prefix "" s = true.
Proof. now destruct s. Qed.

Lemma prefix_cons (a c : ascii) (p s : string) :
  String.prefix (String a p) (String c s) = Ascii.eqb a c && String.prefix p s.
Proof.
  cbn. destruct (ascii_dec a c) as [->|N].
  - now rewrite Ascii.eqb_refl.
  - apply Ascii.eqb_neq in N. now rewrite N.
Qed.

Lemma text_lines_cons (s : string) : exists line rest, text_lines s = line :: rest.
Proof.
  induction s as [|c s (line & rest & E)]; cbn; [eauto|].
  destruct (is_line_terminator c); [eauto|]. rewrite E. eauto.
Qed.

(** A prefix without line terminator is a prefix of the first line. *)
Lemma prefix_first_line (p s : string) :
  one_line p = true -> String.prefix p s = String.prefix p (hd "" (text_lines s)).
Proof.
  revert p. induction s as [|c s IH]; intros p Hp; [reflexivity|].
  destruct p as [|a p]; [now rewrite !prefix_nil_l|].
  cbn in Hp. apply andb_true_iff in Hp as [Ha Hp].
  cbn [text_lines]. destruct (is_line_terminator c) eqn:Hc.
  - cbn [hd]. rewrite prefix_cons.
    destruct (Ascii.eqb_spec a c) as [->|N]; [|reflexivity].
    rewrite Hc in Ha. discriminate.
  - destruct (text_lines_cons s) as (line & rest & E). rewrite E. cbn [hd].
    rewrite !prefix_cons, (IH p Hp), E. reflexivity.
Qed.

Lemma match_here_bol_lit (p : string) (prev : option ascii) (s : string) :
  is_Some (match_here true (Bol · Lit p)%re prev s)
  <-> at_bol true prev = true /\ String.prefix p s = true.
Proof.
  unfold match_here. cbn [run].
  destruct (at_bol true prev), (String.prefix p s); split; intros H;
    try (destruct H as [x H]; discriminate H);
    try (destruct H as [H1 H2]; discriminate);
    eauto.
Qed.

Lemma search_bol_lit (p : string) :
  one_line p = true ->
  forall s prev,
    is_Some (search true (Bol · Lit p)%re prev s)
    <-> (at_bol true prev = true /\ String.prefix p (hd "" (text_lines s)) = true)
        \/ (exists line, line ∈ tl (text_lines s) /\ String.prefix p line = true).
Proof.
  intros Hp. induction s as [|c s IH]; intros prev.
  - cbn [search text_lines hd tl].
    pose proof (match_here_bol_lit p prev "") as M.
    destruct (match_here true (Bol · Lit p)%re prev "") as [m|].
    + split; [intros _; left; apply M; eauto|eauto].
    + split; [intros [? [=]]|].
      intros [H|(line & Hin & _)]; [apply M, H|]. inversion Hin.
  - cbn [search].
    pose proof (match_here_bol_lit p prev (String c s)) as M.
    rewrite (prefix_first_line p (String c s) Hp) in M.
    specialize (IH (Some c)). cbn [at_bol andb] in IH.
    destruct (text_lines_cons s) as (line & rest & E).
    cbn [text_lines] in *. rewrite E in *. cbn [hd tl] in IH.
    destruct (match_here true (Bol · Lit p)%re prev (String c s)) as [m|].
    + split; [intros _; left; apply M; eauto|eauto].
    + assert (NM : ~ is_Some (@None MatchResult)) by (intros [x Hx]; discriminate Hx).
      rewrite IH. destruct (is_line_terminator c); cbn [hd tl] in *.
      * split.
        -- intros [[_ H]|(l & Hin & H)]; right.
           ++ exists line. split; [apply elem_of_cons; auto|exact H].
           ++ exists l. split; [apply elem_of_cons; auto|exact H].
        -- intros [H|(l & Hin & H)]; [apply M in H; contradiction|].
           apply elem_of_cons in Hin as [->|Hin]; [left; auto|right; eauto].
      * split.
        -- intros [[Hf _]|H]; [discriminate Hf|right; exact H].
        -- intros [H|H]; [apply M in H; contradiction|right; exact H].
Qed.

Lemma regex_test_bol_lit (p s : string) :
  one_line p = true ->
  regex_test true (Bol · Lit p)%re s = true
  <-> exists line, line ∈ text_lines s /\ String.prefix p line = true.
Proof.
  intros Hp. unfold regex_test. rewrite bool_decide_eq_true, (search_bol_lit p Hp s None).
  destruct (text_lines_cons s) as (first & rest & E). rewrite E. cbn [at_bol hd tl].
  split.
  - intros [[_ H]|(l & Hin & H)].
    + exists first. split; [apply elem_of_cons; auto|exact H].
    + exists l. split; [apply elem_of_cons; auto|exact H].
  - intros (l & Hin & H). apply elem_of_cons in Hin as [->|Hin]; [left; auto|right; eauto].
Qed.

Lemma indicators_line_starts :
  indicators = (fun p => (Bol · Lit p)%re) <$> indicator_line_starts.
Proof. reflexivity. Qed.

Lemma indicator_line_starts_one_line (p : string) :
  p ∈ indicator_line_starts -> one_line p = true /\ p <> "".
Proof.
  unfold indicator_line_starts. rewrite !elem_of_cons, elem_of_nil.
  intros [->|[->|[->|[->|[]]]]]; split; (reflexivity || discriminate).
Qed.

Lemma isValidPatch_lines (s : string) :
  isValidPatch (JString s) = true <-> has_line_starting indicator_line_starts s.
Proof.
  unfold isValidPatch, has_line_starting, startsWith.
  destruct (negb (truthy (JString s)) || negb (is_string (JString s))) eqn:G.
  - split; [discriminate|]. intros (line & p & Hin & Hp & H). exfalso.
    assert (s = "") as ->.
    { apply guard_rejects in G. destruct (String.eqb_spec s ""); [assumption|].
      exfalso. apply G. exists s. auto. }
    cbn in Hin. apply list_elem_of_singleton in Hin as ->.
    apply indicator_line_starts_one_line in Hp as [_ Hp].
    destruct p; [contradiction|discriminate H].
  - cbn [string_of]. rewrite existsb_exists, indicators_line_starts. split.
    + intros (r & Hr & Ht). apply list_elem_of_In, list_elem_of_fmap in Hr as (p & -> & Hp).
      apply regex_test_bol_lit in Ht as (line & Hin & H);
        [|now apply indicator_line_starts_one_line].
      eauto.
    + intros (line & p & Hin & Hp & H). exists (Bol · Lit p)%re. split.
      * apply list_elem_of_In, list_elem_of_fmap. eauto.
      * apply regex_test_bol_lit; [now apply indicator_line_starts_one_line|eauto].
Qed.

(** C8, as stated: a line that starts with three dashes, or three plus
    signs, would do. The text [---] has such a line and is not accepted:
    the patterns want a space after the dashes and after the plus signs. *)
Lemma isValidPatch_three_dashes_refuted :
  ~ (isValidPatch (JString "---") = true <-> has_line_starting claimed_line_starts "---").
Proof.
  intros [_ H]. enough (E : isValidPatch (JString "---") = true) by discriminate E.
  apply H. exists "---", "---". split; [|split; [|reflexivity]].
  - apply (list_elem_of_lookup_2 _ 0). reflexivity.
  - apply (list_elem_of_lookup_2 _ 1). reflexivity.
Qed.

(** C8, amended: [isValidPatch] accepts a text exactly when one of its
    lines, a line ending at each LF and at each CR, starts with
    [diff --git], with [--- ], with [+++ ] or with [@@ ], the last three
    with their space; [random text] is refused and [@@ -1 +1 @@] is
    accepted. *)
Theorem isValidPatch_iff_indicator_line :
  (forall s : string,
      isValidPatch (JString s) = true <-> has_line_starting indicator_line_starts s)
  /\ isValidPatch (JString "random text") = false
  /\ isValidPatch (JString "@@ -1 +1 @@") = true.
Proof. split; [exact isValidPatch_lines|split; reflexivity]. Qed.

Lemma isValidPatch_iff_indicator_line_witness :
  isValidPatch (JString "a
+++ b/f") = true.
Proof.
  apply (proj1 isValidPatch_iff_indicator_line). exists "+++ b/f", "+++ ".
  split; [|split; [|reflexivity]].
  - apply (list_elem_of_lookup_2 _ 1). reflexivity.
  - apply (list_elem_of_lookup_2 _ 2). reflexivity.
Defined.

(** ** Binary files

    The file that a header line starts is followed through the rest of the
    run: first while it is new and has no hunk, then once it is marked as
    binary. *)

Lemma prefix_compatible (p q s : string) :
  String.prefix p s = true -> String.prefix q s = true ->
  String.prefix p q = true \/ String.prefix q p = true.
Proof.
  revert p q. induction s as [|c s IH]; intros p q Hp Hq.
  - destruct p; [|discriminate Hp]. left. apply prefix_nil_l.
  - destruct p as [|a p]; [left; apply prefix_nil_l|].
    destruct q as [|b q]; [right; apply prefix_nil_l|].
    rewrite prefix_cons in Hp, Hq. rewrite !prefix_cons.
    apply andb_true_iff in Hp as [Ha Hp]. apply andb_true_iff in Hq as [Hb Hq].
    apply Ascii.eqb_eq in Ha as ->. apply Ascii.eqb_eq in Hb as ->.
    rewrite Ascii.eqb_refl. cbn [andb]. now apply IH.
Qed.

(** Two line starts of which neither begins the other are not found on
    the same line. *)
Lemma startsWith_excludes (line p q : string) :
  String.prefix p q = false -> String.prefix q p = false ->
  startsWith line p = true -> startsWith line q = false.
Proof.
  unfold startsWith. intros Hpq Hqp Hp.
  destruct (String.prefix q line) eqn:Hq; [|reflexivity].
  destruct (prefix_compatible p q line Hp Hq); congruence.
Qed.

Lemma search_bol_after_start (r : regex) (s : string) (c : ascii) :
  search false (Bol · r)%re (Some c) s = None.
Proof. revert c. induction s as [|c' s IH]; intros c; cbn; auto. Qed.

Lemma binary_line_start (line : string) :
  is_Some (regex_match re_binary line) -> startsWith line "Binary files " = true.
Proof.
  unfold regex_match, startsWith, re_binary.
  assert (H : match_here false re_binary None line = None
              \/ String.prefix "Binary files " line = true).
  { unfold match_here, re_binary. cbn [run at_bol].
    destruct (String.prefix "Binary files " line); auto. }
  destruct H as [H|H]; [|auto].
  intros [m Hm]. exfalso. destruct line as [|c line]; cbn [search] in Hm.
  - unfold re_binary in H. rewrite H in Hm. discriminate.
  - unfold re_binary in H. rewrite H in Hm.
    now rewrite search_bol_after_start in Hm.
Qed.


Section FileProofs.
Import Parser.

Lemma file_header_other (line : string) (σ : state) :
  startsWith line "diff --git " = false -> file_header line σ = σ.
Proof. unfold file_header. now intros ->. Qed.

Lemma hunk_header_other (line : string) (σ : state) :
  startsWith line "@@" = false -> hunk_header line σ = σ.
Proof. unfold hunk_header. now intros ->. Qed.

Lemma hunk_content_no_hunk (line : string) (σ : state) :
  currentHunk σ = None -> hunk_content line σ = σ.
Proof. unfold hunk_content. now intros ->. Qed.

(** *** A new file *)

Lemma marker_fresh (t : loc) (hit : bool) (upd : FileDiff.t loc -> FileDiff.t loc) (σ : state) :
  benign upd -> fresh t σ -> fresh t (marker hit upd σ).
Proof.
  intros Hb (Hf & Hh & o & Ho & H1 & H2 & H3). unfold marker.
  destruct hit; [|now repeat split; eauto 10]. rewrite Hf.
  split; [exact Hf|]. split; [exact Hh|].
  exists (upd o). state_simpl. rewrite list_lookup_alter_eq, Ho.
  destruct (Hb o) as (B1 & B2 & B3 & _). rewrite B1, B2, B3. auto.
Qed.

Lemma benign_new_file_mode :
  benign (fun o => FileDiff.set_oldPath "/dev/null" (FileDiff.set_type FileDiff.added o)).
Proof. intros o. cbn. auto. Qed.

Lemma benign_deleted_file_mode :
  benign (fun o => FileDiff.set_newPath "/dev/null" (FileDiff.set_type FileDiff.deleted o)).
Proof. intros o. cbn. auto. Qed.

Lemma benign_rename_from : benign (FileDiff.set_type FileDiff.renamed).
Proof. intros o. cbn. auto. Qed.

Lemma benign_binary_files : benign (FileDiff.set_isBinary true).
Proof. intros o. cbn. auto. Qed.

Lemma markers_fresh (t : loc) (line : string) (σ : state) :
  fresh t σ ->
  fresh t (binary_files line (rename_from line (deleted_file_mode line (new_file_mode line σ)))).
Proof.
  intros H. apply marker_fresh; [apply benign_binary_files|].
  apply marker_fresh; [apply benign_rename_from|].
  apply marker_fresh; [apply benign_deleted_file_mode|].
  apply marker_fresh; [apply benign_new_file_mode|exact H].
Qed.

(** A line of the section that is neither a file header nor a hunk
    header leaves the file new. *)
Lemma step_fresh (t : loc) (line : string) (σ : state) :
  startsWith line "diff --git " = false -> startsWith line "@@" = false ->
  fresh t σ -> fresh t (step σ line).
Proof.
  intros Hd Hh H. unfold step. rewrite (file_header_other line σ Hd).
  pose proof (markers_fresh t line σ H) as H'.
  rewrite hunk_header_other by exact Hh.
  rewrite hunk_content_no_hunk; [exact H'|apply H'].
Qed.

(** The header line of a file makes a new file current. *)
Lemma file_header_fresh (line : string) (σ : state) :
  startsWith line "diff --git " = true ->
  is_Some (regex_match re_file_header line) ->
  cursor_ok σ ->
  fresh (length (file_objs σ)) (file_header line σ)
  /\ length (files (file_header line σ)) = length (files (save_last σ)).
Proof.
  intros Hd [m Hm] Hc. unfold file_header, save_last, save_hunk. rewrite Hd, Hm.
  destruct (currentFile σ) as [f|] eqn:Hf.
  - destruct (currentHunk σ) as [h|] eqn:Hh; unfold fresh; state_simpl;
      rewrite ?length_alter, ?length_app, ?Hh;
      (split; [|reflexivity]); (split; [reflexivity|]); (split; [reflexivity|]);
      eexists; (split; [apply list_lookup_middle; now rewrite ?length_alter|]);
      cbn; auto.
  - unfold fresh. state_simpl.
    split; [|reflexivity]. split; [reflexivity|]. split; [now apply Hc|].
    eexists. split; [now apply list_lookup_middle|]. cbn. auto.
Qed.

Lemma step_header_fresh (line : string) (σ : state) :
  startsWith line "diff --git " = true ->
  is_Some (regex_match re_file_header line) ->
  cursor_ok σ ->
  fresh (length (file_objs σ)) (step σ line)
  /\ pending (length (files (save_last σ))) (length (file_objs σ)) (step σ line).
Proof.
  intros Hd Hm Hc. destruct (file_header_fresh line σ Hd Hm Hc) as [H Hlen].
  pose proof (markers_fresh _ line _ H) as H'.
  assert (Hh : startsWith line "@@" = false).
  { now apply (startsWith_excludes line "diff --git " "@@"). }
  unfold step. rewrite hunk_header_other by exact Hh.
  rewrite hunk_content_no_hunk by apply H'. split; [exact H'|].
  left. split; [|apply H'].
  rewrite <- Hlen. unfold binary_files, rename_from, deleted_file_mode, new_file_mode, marker.
  repeat match goal with
         | |- context [if ?b then _ else _] => destruct b
         | |- context [match currentFile ?s with _ => _ end] => destruct (currentFile s)
         end; reflexivity.
Qed.
(** *** A binary file *)

Lemma empty_at_new_hunk (o : Hunk.t) (σ : state) (h : loc) :
  empty_at σ h -> empty_at (new_hunk o σ) h.
Proof.
  intros (ho & Hl & He). exists ho. split; [|exact He].
  state_simpl. now apply lookup_app_l_Some.
Qed.

Lemma empty_at_update_hunk (h' : loc) (upd : Hunk.t -> Hunk.t) (σ : state) (h : loc) :
  h <> h' -> empty_at σ h -> empty_at (update_hunk h' upd σ) h.
Proof.
  intros Hne (ho & Hl & He). exists ho. split; [|exact He].
  state_simpl. rewrite list_lookup_alter_ne; auto.
Qed.

(** An update of the current file. *)
Lemma quiet_update_current (t f : loc) (upd : FileDiff.t loc -> FileDiff.t loc) (σ : state) :
  currentFile σ = Some f ->
  (f = t -> forall o,
      file_objs σ !! t = Some o -> FileDiff.isBinary o = true ->
      FileDiff.isBinary (upd o) = true
      /\ FileDiff.additions (upd o) = FileDiff.additions o
      /\ FileDiff.deletions (upd o) = FileDiff.deletions o
      /\ forall h, h ∈ FileDiff.hunks (upd o) ->
           h ∈ FileDiff.hunks o \/ currentHunk σ = Some h) ->
  quiet t σ -> quiet t (update_file f upd σ).
Proof.
  intros Hf Hupd (o & Ho & Hb & Ha & Hd & Hhs & Hcur). unfold quiet. state_simpl.
  destruct (decide (f = t)) as [->|Hne].
  - destruct (Hupd eq_refl o Ho Hb) as (Ub & Ua & Ud & Uh).
    exists (upd o). rewrite list_lookup_alter_eq, Ho.
    split; [reflexivity|]. split; [exact Ub|]. split; [congruence|]. split; [congruence|].
    assert (Hall : forall h, h ∈ FileDiff.hunks (upd o) -> empty_at σ h).
    { intros h Hin. destruct (Uh h Hin) as [Hold|Hc].
      - rewrite Forall_forall in Hhs. now apply Hhs.
      - destruct (Hcur h Hc) as [[_ He]|[Hn _]]; [exact He|contradiction]. }
    split; [apply Forall_forall; exact Hall|].
    intros h Hc. left. split; [exact Hf|].
    destruct (Hcur h Hc) as [[_ He]|[Hn _]]; [exact He|contradiction].
  - exists o. rewrite list_lookup_alter_ne by exact Hne.
    repeat (split; [assumption|]). exact Hcur.
Qed.

Lemma marker_quiet (t : loc) (hit : bool) (upd : FileDiff.t loc -> FileDiff.t loc) (σ : state) :
  benign upd -> quiet t σ -> quiet t (marker hit upd σ).
Proof.
  intros Hb H. unfold marker. destruct hit; [|exact H].
  destruct (currentFile σ) as [f|] eqn:Hf; [|exact H].
  apply quiet_update_current; [exact Hf| |exact H].
  intros _ o _ Hbin. destruct (Hb o) as (B1 & B2 & B3 & B4).
  rewrite B1. auto.
Qed.

Lemma markers_quiet (t : loc) (line : string) (σ : state) :
  quiet t σ ->
  quiet t (binary_files line (rename_from line (deleted_file_mode line (new_file_mode line σ)))).
Proof.
  intros H. apply marker_quiet; [apply benign_binary_files|].
  apply marker_quiet; [apply benign_rename_from|].
  apply marker_quiet; [apply benign_deleted_file_mode|].
  apply marker_quiet; [apply benign_new_file_mode|exact H].
Qed.

(** The line [Binary files ... differ] on a new file. *)
Lemma binary_files_fresh_quiet (t : loc) (line : string) (σ : state) :
  is_Some (regex_match re_binary line) -> fresh t σ -> quiet t (binary_files line σ).
Proof.
  intros Hm (Hf & Hh & o & Ho & H1 & H2 & H3).
  unfold binary_files, marker. rewrite bool_decide_eq_true_2 by exact Hm. rewrite Hf.
  exists (FileDiff.set_isBinary true o). state_simpl.
  rewrite list_lookup_alter_eq, Ho. cbn. rewrite H1.
  repeat (split; [auto|]). intros h Hc. congruence.
Qed.

(** [if (currentHunk) currentFile.hunks.push(currentHunk)] *)
Lemma save_hunk_quiet (t f : loc) (σ : state) :
  currentFile σ = Some f -> quiet t σ -> quiet t (save_hunk f σ).
Proof.
  intros Hf H. unfold save_hunk. destruct (currentHunk σ) as [h|] eqn:Hh; [|exact H].
  apply quiet_update_current; [exact Hf| |exact H].
  intros _ o _ Hbin. cbn. repeat (split; [auto|]).
  intros h' Hin. apply elem_of_app in Hin as [Hin|Hin]; [auto|].
  apply list_elem_of_singleton in Hin as ->. auto.
Qed.

Lemma quiet_lookup_lt (t : loc) (σ : state) : quiet t σ -> t < length (file_objs σ).
Proof. intros (o & Ho & _). now apply lookup_lt_Some in Ho. Qed.

Lemma new_hunk_quiet (t : loc) (o : Hunk.t) (σ : state) :
  Hunk.lines o = [] -> quiet t σ -> quiet t (new_hunk o σ).
Proof.
  intros Ho (fo & Hfo & Hb & Ha & Hd & Hhs & Hcur). exists fo.
  split; [exact Hfo|]. split; [exact Hb|]. split; [exact Ha|]. split; [exact Hd|].
  split.
  - eapply Forall_impl; [exact Hhs|]. intros h. apply empty_at_new_hunk.
  - intros h Hc. state_simpl. injection Hc as <-.
    destruct (decide (currentFile σ = Some t)) as [Hf|Hf].
    + left. split; [exact Hf|]. exists o. split; [|exact Ho]. now apply list_lookup_middle.
    + right. split; [exact Hf|]. intros Hin.
      rewrite Forall_forall in Hhs. destruct (Hhs _ Hin) as (ho & Hl & _).
      apply lookup_lt_Some in Hl. lia.
Qed.

Lemma hunk_header_quiet (t : loc) (line : string) (σ : state) :
  quiet t σ -> quiet t (hunk_header line σ).
Proof.
  intros H. unfold hunk_header. destruct (startsWith line "@@"); [|exact H].
  destruct (currentFile σ) as [f|] eqn:Hf; [|exact H].
  pose proof (save_hunk_quiet t f σ Hf H) as H'.
  destruct (regex_match re_hunk_header line); [|exact H'].
  apply new_hunk_quiet; [reflexivity|exact H'].
Qed.

Lemma hunk_content_quiet (t : loc) (line : string) (σ : state) :
  quiet t σ -> quiet t (hunk_content line σ).
Proof.
  intros H. unfold hunk_content.
  destruct (currentHunk σ) as [h|] eqn:Hh; [|exact H].
  destruct (currentFile σ) as [f|] eqn:Hf; [|exact H].
  destruct (file_objs σ !! f) as [fo|] eqn:Hfo; [|exact H].
  destruct (hunk_objs σ !! h) as [ho|] eqn:Hho; [|exact H].
  destruct (FileDiff.isBinary fo) eqn:Hbin; [exact H|]. cbn [negb].
  assert (Hne : f <> t).
  { intros ->. destruct H as (o & Ho & Hb & _). congruence. }
  assert (Hout : forall l, quiet t (update_hunk h (Hunk.push_line l) σ)).
  { intros l. destruct H as (o & Ho & Hb & Ha & Hd & Hhs & Hcur).
    destruct (Hcur h Hh) as [[Hc _]|[_ Hnot]]; [congruence|].
    exists o. repeat (split; [assumption|]). split.
    - apply Forall_forall. intros h' Hin. apply empty_at_update_hunk.
      + intros ->. contradiction.
      + rewrite Forall_forall in Hhs. now apply Hhs.
    - intros h' Hc. state_simpl. right. split; [congruence|]. congruence. }
  assert (Hcount : forall l upd,
             quiet t (update_file f upd (update_hunk h (Hunk.push_line l) σ))).
  { intros l upd. apply quiet_update_current; [exact Hf| |apply Hout].
    intros E. contradiction. }
  repeat match goal with
         | |- context [if ?b then _ else _] => destruct b
         end; auto.
Qed.

(** The file header branch. *)
Lemma file_header_quiet (t : loc) (line : string) (σ : state) :
  quiet t σ -> quiet t (file_header line σ).
Proof.
  intros H. unfold file_header. destruct (startsWith line "diff --git "); [|exact H].
  set (σ1 := match currentFile σ with
             | Some f =>
                 push_file f
                   match currentHunk σ with
                   | Some h => set_currentHunk None (update_file f (FileDiff.push_hunk h) σ)
                   | None => σ
                   end
             | None => σ
             end).
  assert (H1 : quiet t σ1 /\ (currentHunk σ1 = None \/ currentFile σ1 <> Some t)).
  { subst σ1. destruct (currentFile σ) as [f|] eqn:Hf.
    - destruct (currentHunk σ) as [h|] eqn:Hh.
      + pose proof (save_hunk_quiet t f σ Hf H) as H'. unfold save_hunk in H'.
        rewrite Hh in H'. destruct H' as (o & Ho & Hb & Ha & Hd & Hhs & _).
        split; [|left; reflexivity].
        exists o. repeat (split; [assumption|]). intros h' Hc. discriminate Hc.
      + split; [|left; exact Hh].
        destruct H as (o & Ho & Hb & Ha & Hd & Hhs & Hcur).
        exists o. repeat (split; [assumption|]). state_simpl. exact Hcur.
    - split; [exact H|]. right. congruence. }
  clearbody σ1. destruct H1 as [H1 Hcase].
  destruct (regex_match re_file_header line); [|exact H1].
  pose proof (quiet_lookup_lt t σ1 H1) as Hlt.
  destruct H1 as (o & Ho & Hb & Ha & Hd & Hhs & Hcur).
  exists o. state_simpl. split; [now apply lookup_app_l_Some|].
  repeat (split; [assumption|]).
  intros h Hc. right. split; [intros [= E]; lia|].
  destruct Hcase as [Hn|Hn]; [congruence|].
  destruct (Hcur h Hc) as [[Hc' _]|[_ Hnot]]; [contradiction|exact Hnot].
Qed.

Lemma step_quiet (t : loc) (line : string) (σ : state) :
  quiet t σ -> quiet t (step σ line).
Proof.
  intros H. unfold step.
  apply hunk_content_quiet, hunk_header_quiet, markers_quiet, file_header_quiet, H.
Qed.

Lemma save_last_quiet (t : loc) (σ : state) : quiet t σ -> quiet t (save_last σ).
Proof.
  intros H. unfold save_last. destruct (currentFile σ) as [f|] eqn:Hf; [|exact H].
  destruct (save_hunk_quiet t f σ Hf H) as (o & Ho & Hb & Ha & Hd & Hhs & Hcur).
  exists o. repeat (split; [assumption|]). exact Hcur.
Qed.
Lemma step_binary_quiet (t : loc) (line : string) (σ : state) :
  is_Some (regex_match re_binary line) -> fresh t σ -> quiet t (step σ line).
Proof.
  intros Hm H. pose proof (binary_line_start line Hm) as Hb. unfold step.
  rewrite file_header_other
    by (now apply (startsWith_excludes line "Binary files " "diff --git ")).
  apply hunk_content_quiet, hunk_header_quiet, binary_files_fresh_quiet; [exact Hm|].
  apply marker_fresh; [apply benign_rename_from|].
  apply marker_fresh; [apply benign_deleted_file_mode|].
  apply marker_fresh; [apply benign_new_file_mode|exact H].
Qed.

(** *** The cursors *)

Lemma marker_cursors (hit : bool) (upd : FileDiff.t loc -> FileDiff.t loc) (σ : state) :
  files (marker hit upd σ) = files σ
  /\ currentFile (marker hit upd σ) = currentFile σ
  /\ currentHunk (marker hit upd σ) = currentHunk σ.
Proof.
  unfold marker. destruct hit; [|auto].
  destruct (currentFile σ) eqn:Hf; rewrite <- ?Hf; auto.
Qed.

Lemma hunk_header_cursors (line : string) (σ : state) :
  files (hunk_header line σ) = files σ
  /\ currentFile (hunk_header line σ) = currentFile σ
  /\ (currentFile σ = None -> currentHunk (hunk_header line σ) = currentHunk σ).
Proof.
  unfold hunk_header, save_hunk.
  destruct (startsWith line "@@"); [|auto].
  destruct (currentFile σ) as [f|] eqn:Hf; [|auto].
  destruct (regex_match re_hunk_header line), (currentHunk σ);
    state_simpl; (split; [reflexivity|]); (split; [exact Hf|]); intros [=].
Qed.

Lemma hunk_content_cursors (line : string) (σ : state) :
  files (hunk_content line σ) = files σ
  /\ currentFile (hunk_content line σ) = currentFile σ
  /\ currentHunk (hunk_content line σ) = currentHunk σ.
Proof.
  unfold hunk_content.
  destruct (currentHunk σ) as [h|] eqn:Hh; [|now rewrite Hh].
  destruct (currentFile σ) as [f|] eqn:Hf; [|now rewrite Hh, Hf].
  destruct (file_objs σ !! f); [|now rewrite Hh, Hf].
  destruct (hunk_objs σ !! h); [|now rewrite Hh, Hf].
  repeat match goal with
         | |- context [if ?b then _ else _] => destruct b
         end; state_simpl; auto.
Qed.

(** After the file header branch, the other branches of a turn leave
    [files], [currentFile] and the pairing of the cursors as they are. *)
Lemma step_cursors (line : string) (σ : state) :
  files (step σ line) = files (file_header line σ)
  /\ currentFile (step σ line) = currentFile (file_header line σ)
  /\ (cursor_ok (file_header line σ) -> cursor_ok (step σ line)).
Proof.
  unfold step.
  set (σ1 := file_header line σ).
  destruct (marker_cursors (startsWith line "new file mode")
              (fun o => FileDiff.set_oldPath "/dev/null" (FileDiff.set_type FileDiff.added o))
              σ1) as (A1 & A2 & A3).
  fold (new_file_mode line σ1) in A1, A2, A3. set (σ2 := new_file_mode line σ1) in *.
  destruct (marker_cursors (startsWith line "deleted file mode")
              (fun o => FileDiff.set_newPath "/dev/null" (FileDiff.set_type FileDiff.deleted o))
              σ2) as (B1 & B2 & B3).
  fold (deleted_file_mode line σ2) in B1, B2, B3. set (σ3 := deleted_file_mode line σ2) in *.
  destruct (marker_cursors (startsWith line "rename from")
              (FileDiff.set_type FileDiff.renamed) σ3) as (C1 & C2 & C3).
  fold (rename_from line σ3) in C1, C2, C3. set (σ4 := rename_from line σ3) in *.
  destruct (marker_cursors (bool_decide (is_Some (regex_match re_binary line)))
              (FileDiff.set_isBinary true) σ4) as (D1 & D2 & D3).
  fold (binary_files line σ4) in D1, D2, D3. set (σ5 := binary_files line σ4) in *.
  destruct (hunk_header_cursors line σ5) as (E1 & E2 & E3).
  set (σ6 := hunk_header line σ5) in *.
  destruct (hunk_content_cursors line σ6) as (F1 & F2 & F3).
  split; [congruence|]. split; [congruence|].
  unfold cursor_ok. intros Hc Hnone. rewrite F3. rewrite F2, E2 in Hnone.
  rewrite E3 by exact Hnone. rewrite D3, C3, B3, A3. apply Hc. congruence.
Qed.

Lemma file_header_cursor_ok (line : string) (σ : state) :
  cursor_ok σ -> cursor_ok (file_header line σ).
Proof.
  unfold cursor_ok, file_header. intros Hc.
  destruct (startsWith line "diff --git "); [|exact Hc].
  destruct (currentFile σ) as [f|] eqn:Hf.
  - destruct (regex_match re_file_header line), (currentHunk σ);
      state_simpl; intros; congruence.
  - destruct (regex_match re_file_header line); state_simpl; [discriminate|].
    rewrite Hf. exact Hc.
Qed.

Lemma run_cursor_ok (lines : list string) (σ : state) :
  cursor_ok σ -> cursor_ok (fold_left step lines σ).
Proof.
  revert σ. induction lines as [|line lines IH]; intros σ Hc; [exact Hc|].
  cbn [fold_left]. apply IH, step_cursors, file_header_cursor_ok, Hc.
Qed.

Lemma file_header_pending (k : nat) (t : loc) (line : string) (σ : state) :
  pending k t σ -> pending k t (file_header line σ).
Proof.
  unfold pending, file_header. intros H.
  destruct (startsWith line "diff --git "); [|exact H].
  assert (H1 : files
                 match currentFile σ with
                 | Some f =>
                     push_file f
                       match currentHunk σ with
                       | Some h =>
                           set_currentHunk None (update_file f (FileDiff.push_hunk h) σ)
                       | None => σ
                       end
                 | None => σ
                 end !! k = Some t).
  { destruct H as [[Hlen Hf]|H].
    - rewrite Hf. destruct (currentHunk σ); state_simpl; subst k;
        now apply list_lookup_middle.
    - destruct (currentFile σ) as [f|]; [|exact H].
      destruct (currentHunk σ); state_simpl; now apply lookup_app_l_Some. }
  right. destruct (regex_match re_file_header line); [|exact H1]. exact H1.
Qed.

Lemma step_pending (k : nat) (t : loc) (line : string) (σ : state) :
  pending k t σ -> pending k t (step σ line).
Proof.
  intros H. apply (file_header_pending k t line) in H.
  destruct (step_cursors line σ) as (Hfiles & Hcur & _).
  unfold pending. now rewrite Hfiles, Hcur.
Qed.

Lemma save_last_pending (k : nat) (t : loc) (σ : state) :
  pending k t σ -> files (save_last σ) !! k = Some t.
Proof.
  unfold save_last, save_hunk. intros [[Hlen Hf]|H].
  - rewrite Hf. destruct (currentHunk σ); state_simpl; subst k;
      now apply list_lookup_middle.
  - destruct (currentFile σ) as [f|]; [|exact H].
    destruct (currentHunk σ); state_simpl; now apply lookup_app_l_Some.
Qed.

Lemma run_quiet_pending (k : nat) (t : loc) (lines : list string) (σ : state) :
  quiet t σ -> pending k t σ ->
  quiet t (fold_left step lines σ) /\ pending k t (fold_left step lines σ).
Proof.
  revert σ. induction lines as [|line lines IH]; intros σ Hq Hp; [auto|].
  cbn [fold_left]. apply IH; [now apply step_quiet|now apply step_pending].
Qed.

Lemma run_fresh_pending (k : nat) (t : loc) (lines : list string) (σ : state) :
  Forall (fun l => startsWith l "diff --git " = false /\ startsWith l "@@" = false) lines ->
  fresh t σ -> pending k t σ ->
  fresh t (fold_left step lines σ) /\ pending k t (fold_left step lines σ).
Proof.
  intros Hall. revert σ. induction Hall as [|line lines [Hd Hh] _ IH]; intros σ Hf Hp; [auto|].
  cbn [fold_left]. apply IH; [now apply step_fresh|now apply step_pending].
Qed.

(** Reading a quiet file. *)
Lemma read_file_quiet (t : loc) (σ : state) :
  quiet t σ ->
  FileDiff.isBinary (read_file σ t) = true
  /\ FileDiff.additions (read_file σ t) = 0
  /\ FileDiff.deletions (read_file σ t) = 0
  /\ Forall (fun h => Hunk.lines h = []) (FileDiff.hunks (read_file σ t)).
Proof.
  intros (o & Ho & Hb & Ha & Hd & Hhs & _). unfold read_file. rewrite Ho. cbn.
  repeat (split; [assumption|]).
  apply Forall_fmap. eapply Forall_impl; [exact Hhs|].
  intros h (ho & Hl & He). unfold read_hunk. cbn. now rewrite Hl.
Qed.
(** *** A file without hunks, once it is pushed *)

Lemma frozen_update_file (t f : loc) (upd : FileDiff.t loc -> FileDiff.t loc) (σ : state) :
  currentFile σ = Some f -> frozen t σ -> frozen t (update_file f upd σ).
Proof.
  intros Hf [(o & Ho & Hh) Hne]. split; [|exact Hne].
  exists o. split; [|exact Hh]. state_simpl.
  rewrite list_lookup_alter_ne; [exact Ho|]. intros ->. contradiction.
Qed.

Lemma frozen_same_files (t : loc) (σ σ' : state) :
  file_objs σ' = file_objs σ -> currentFile σ' = currentFile σ ->
  frozen t σ -> frozen t σ'.
Proof. unfold frozen. intros -> ->. auto. Qed.

Lemma marker_frozen (t : loc) (hit : bool) (upd : FileDiff.t loc -> FileDiff.t loc) (σ : state) :
  frozen t σ -> frozen t (marker hit upd σ).
Proof.
  intros H. unfold marker. destruct hit; [|exact H].
  destruct (currentFile σ) as [f|] eqn:Hf; [|exact H]. now apply frozen_update_file.
Qed.

Lemma save_hunk_frozen (t f : loc) (σ : state) :
  currentFile σ = Some f -> frozen t σ -> frozen t (save_hunk f σ).
Proof.
  intros Hf H. unfold save_hunk. destruct (currentHunk σ); [|exact H].
  now apply frozen_update_file.
Qed.

Lemma hunk_header_frozen (t : loc) (line : string) (σ : state) :
  frozen t σ -> frozen t (hunk_header line σ).
Proof.
  intros H. unfold hunk_header. destruct (startsWith line "@@"); [|exact H].
  destruct (currentFile σ) as [f|] eqn:Hf; [|exact H].
  pose proof (save_hunk_frozen t f σ Hf H) as H'.
  destruct (regex_match re_hunk_header line); [|exact H'].
  eapply frozen_same_files; [| |exact H']; reflexivity.
Qed.

Lemma hunk_content_frozen (t : loc) (line : string) (σ : state) :
  frozen t σ -> frozen t (hunk_content line σ).
Proof.
  intros H. unfold hunk_content.
  destruct (currentHunk σ) as [h|]; [|exact H].
  destruct (currentFile σ) as [f|] eqn:Hf; [|exact H].
  destruct (file_objs σ !! f); [|exact H].
  destruct (hunk_objs σ !! h); [|exact H].
  assert (Hh : forall upd, frozen t (update_hunk h upd σ)).
  { intros upd. eapply frozen_same_files; [| |exact H]; reflexivity. }
  repeat match goal with
         | |- context [if ?b then _ else _] => destruct b
         end;
    first [ exact H | apply Hh | apply frozen_update_file; [exact Hf|apply Hh] ].
Qed.

(** The file header branch, on a file that is frozen or that is new and
    gives way to the next file. *)
Lemma file_header_frozen (t : loc) (line : string) (σ : state) :
  frozen t σ
  \/ (fresh t σ /\ startsWith line "diff --git " = true
      /\ is_Some (regex_match re_file_header line)) ->
  frozen t (file_header line σ).
Proof.
  unfold file_header. intros [H|(Hfr & Hd & [m Hm])].
  - destruct (startsWith line "diff --git "); [|exact H].
    set (σ1 := match currentFile σ with
               | Some f =>
                   push_file f
                     match currentHunk σ with
                     | Some h => set_currentHunk None (update_file f (FileDiff.push_hunk h) σ)
                     | None => σ
                     end
               | None => σ
               end).
    assert (H1 : frozen t σ1).
    { subst σ1. destruct (currentFile σ) as [f|] eqn:Hf; [|exact H].
      destruct (currentHunk σ) as [h|].
      - eapply frozen_same_files;
          [| |exact (frozen_update_file t f (FileDiff.push_hunk h) σ Hf H)]; reflexivity.
      - eapply frozen_same_files; [| |exact H]; reflexivity. }
    clearbody σ1. destruct (regex_match re_file_header line); [|exact H1].
    destruct H1 as [(o & Ho & Hh) _]. split.
    + exists o. split; [|exact Hh]. state_simpl. now apply lookup_app_l_Some.
    + state_simpl. intros [= E]. apply lookup_lt_Some in Ho. lia.
  - destruct Hfr as (Hf & Hh & o & Ho & Hhs & _). rewrite Hd, Hm, Hf, Hh. split.
    + exists o. split; [|exact Hhs]. state_simpl. now apply lookup_app_l_Some.
    + state_simpl. intros [= E]. apply lookup_lt_Some in Ho. lia.
Qed.

Lemma step_frozen (t : loc) (line : string) (σ : state) :
  frozen t σ
  \/ (fresh t σ /\ startsWith line "diff --git " = true
      /\ is_Some (regex_match re_file_header line)) ->
  frozen t (step σ line).
Proof.
  intros H. unfold step.
  apply hunk_content_frozen, hunk_header_frozen.
  unfold binary_files, rename_from, deleted_file_mode, new_file_mode.
  now apply marker_frozen, marker_frozen, marker_frozen, marker_frozen, file_header_frozen.
Qed.

Lemma run_frozen (t : loc) (lines : list string) (σ : state) :
  frozen t σ -> frozen t (fold_left step lines σ).
Proof.
  revert σ. induction lines as [|line lines IH]; intros σ H; [exact H|].
  cbn [fold_left]. apply IH, step_frozen. now left.
Qed.

(** A line that starts with [diff --git] without holding the two paths
    pushes the new file and leaves it new and current. *)
Lemma step_fresh_pushed (t : loc) (line : string) (σ : state) :
  startsWith line "diff --git " = true -> regex_match re_file_header line = None ->
  fresh t σ -> fresh t (step σ line).
Proof.
  intros Hd Hm H. unfold step.
  assert (H1 : fresh t (file_header line σ)).
  { unfold file_header. rewrite Hd, Hm.
    destruct H as (Hc & Hh & o & Ho & Hhs & Ha & Hdl). rewrite Hc, Hh.
    unfold fresh. state_simpl. repeat (split; [assumption|]). eauto 10. }
  pose proof (markers_fresh t line _ H1) as H'.
  rewrite hunk_header_other
    by (apply (startsWith_excludes line "diff --git "); (reflexivity || exact Hd)).
  rewrite hunk_content_no_hunk; [exact H'|apply H'].
Qed.

(** The file of a section that records no hunk has no hunk in the end. *)
Lemma section_without_hunks (t : loc) (tail rest : list string) (σ : state) :
  Forall no_hunk_no_file tail -> section_ends rest -> fresh t σ ->
  exists o, file_objs (save_last (fold_left step (tail ++ rest) σ)) !! t = Some o
    /\ FileDiff.hunks o = [].
Proof.
  intros Htail Hrest Hf. rewrite fold_left_app.
  assert (Hf' : fresh t (fold_left step tail σ)).
  { clear Hrest. revert σ Hf. induction Htail as [|line tail [Hh Hd] _ IH]; intros σ Hf;
      [exact Hf|].
    cbn [fold_left]. apply IH.
    destruct (startsWith line "diff --git ") eqn:E.
    - apply step_fresh_pushed; auto.
    - now apply step_fresh. }
  set (σ1 := fold_left step tail σ) in *. clearbody σ1.
  assert (Hend : forall σ', frozen t σ' ->
            exists o, file_objs (save_last σ') !! t = Some o /\ FileDiff.hunks o = []).
  { intros σ' [(o & Ho & Hh) Hne]. unfold save_last.
    destruct (currentFile σ') as [f|] eqn:Hc; [|eauto].
    unfold save_hunk. destruct (currentHunk σ'); state_simpl; [|eauto].
    exists o. split; [|exact Hh]. rewrite list_lookup_alter_ne; [exact Ho|]. congruence. }
  destruct Hrest as [->|(header & rest' & -> & Hd & Hm)].
  - cbn [fold_left]. destruct Hf' as (Hc & Hh & o & Ho & Hhs & _).
    unfold save_last, save_hunk. rewrite Hc, Hh. state_simpl. eauto.
  - cbn [fold_left]. apply Hend, run_frozen, step_frozen. right. auto.
Qed.

End FileProofs.

(** *** Every location read is a location of the store

    so that [read_file] and [read_hunk] never fall back on their default. *)

Section Closed.
Import Parser.

Lemma closed_update_file (f : loc) (upd : FileDiff.t loc -> FileDiff.t loc) (σ : state) :
  (forall o, hunks_in (length (hunk_objs σ)) o -> hunks_in (length (hunk_objs σ)) (upd o)) ->
  closed σ -> closed (update_file f upd σ).
Proof.
  intros Hupd (Hf & Hh & Hfs & Hos). unfold closed. state_simpl. rewrite length_alter.
  repeat (split; [assumption|]). apply Forall_alter; [exact Hos|]. intros o _. apply Hupd.
Qed.

Lemma closed_update_hunk (h : loc) (upd : Hunk.t -> Hunk.t) (σ : state) :
  closed σ -> closed (update_hunk h upd σ).
Proof.
  intros (Hf & Hh & Hfs & Hos). unfold closed. state_simpl. rewrite length_alter. auto.
Qed.

Lemma closed_save_hunk (f : loc) (σ : state) : closed σ -> closed (save_hunk f σ).
Proof.
  intros H. unfold save_hunk. destruct (currentHunk σ) as [h|] eqn:Hh; [|exact H].
  apply closed_update_file; [|exact H]. intros o Ho. unfold hunks_in in *. cbn.
  apply Forall_app. split; [exact Ho|]. apply Forall_singleton. now apply H.
Qed.

Lemma closed_marker (hit : bool) (upd : FileDiff.t loc -> FileDiff.t loc) (σ : state) :
  benign upd -> closed σ -> closed (marker hit upd σ).
Proof.
  intros Hb H. unfold marker. destruct hit; [|exact H].
  destruct (currentFile σ); [|exact H]. apply closed_update_file; [|exact H].
  intros o. unfold hunks_in. destruct (Hb o) as (-> & _). auto.
Qed.

Lemma closed_push_file (f : loc) (σ : state) :
  currentFile σ = Some f -> closed σ -> closed (push_file f σ).
Proof.
  intros Hc (Hf & Hh & Hfs & Hos). unfold closed. state_simpl.
  repeat (split; [assumption|]). split; [|exact Hos].
  apply Forall_app. split; [exact Hfs|]. apply Forall_singleton. now apply Hf.
Qed.

Lemma closed_file_header (line : string) (σ : state) : closed σ -> closed (file_header line σ).
Proof.
  intros H. unfold file_header. destruct (startsWith line "diff --git "); [|exact H].
  set (σ1 := match currentFile σ with
             | Some f =>
                 push_file f
                   match currentHunk σ with
                   | Some h => set_currentHunk None (update_file f (FileDiff.push_hunk h) σ)
                   | None => σ
                   end
             | None => σ
             end).
  assert (H1 : closed σ1).
  { subst σ1. destruct (currentFile σ) as [f|] eqn:Hf; [|exact H].
    pose proof (closed_save_hunk f σ H) as H'. unfold save_hunk in H'.
    destruct (currentHunk σ) as [h|] eqn:Hh.
    - apply closed_push_file; [exact Hf|].
      destruct H' as (Hf' & _ & Hfs & Hos). unfold closed. state_simpl.
      repeat (split; [assumption|]). split; [|split; assumption]. intros h' [=].
    - now apply closed_push_file. }
  clearbody σ1. destruct (regex_match re_file_header line); [|exact H1].
  destruct H1 as (Hf & Hh & Hfs & Hos). unfold closed. state_simpl. rewrite length_app.
  split; [intros f [= <-]; cbn; lia|]. split; [exact Hh|]. split.
  - eapply Forall_impl; [exact Hfs|]. cbn. intros; lia.
  - apply Forall_app. split; [exact Hos|]. apply Forall_singleton. constructor.
Qed.

Lemma closed_hunk_header (line : string) (σ : state) : closed σ -> closed (hunk_header line σ).
Proof.
  intros H. unfold hunk_header. destruct (startsWith line "@@"); [|exact H].
  destruct (currentFile σ) as [f|] eqn:Hf; [|exact H].
  pose proof (closed_save_hunk f σ H) as H'.
  destruct (regex_match re_hunk_header line); [|exact H'].
  destruct H' as (Hf' & Hh & Hfs & Hos). unfold closed. state_simpl. rewrite length_app.
  split; [exact Hf'|]. split; [intros h [= <-]; cbn; lia|]. split; [exact Hfs|].
  eapply Forall_impl; [exact Hos|]. intros o Ho. unfold hunks_in in *.
  eapply Forall_impl; [exact Ho|]. cbn. intros; lia.
Qed.

Lemma closed_hunk_content (line : string) (σ : state) : closed σ -> closed (hunk_content line σ).
Proof.
  intros H. unfold hunk_content.
  destruct (currentHunk σ) as [h|]; [|exact H].
  destruct (currentFile σ) as [f|]; [|exact H].
  destruct (file_objs σ !! f); [|exact H].
  destruct (hunk_objs σ !! h); [|exact H].
  repeat match goal with
         | |- context [if ?b then _ else _] => destruct b
         end;
    repeat first [ exact H
                 | apply closed_update_hunk
                 | apply closed_update_file; [intros o Ho; exact Ho|] ].
Qed.

Lemma closed_step (line : string) (σ : state) : closed σ -> closed (step σ line).
Proof.
  intros H. unfold step.
  apply closed_hunk_content, closed_hunk_header.
  apply closed_marker; [apply benign_binary_files|].
  apply closed_marker; [apply benign_rename_from|].
  apply closed_marker; [apply benign_deleted_file_mode|].
  apply closed_marker; [apply benign_new_file_mode|].
  now apply closed_file_header.
Qed.

Lemma closed_run_lines (lines : list string) : closed (run_lines lines).
Proof.
  unfold run_lines.
  assert (H : closed (fold_left step lines initial)).
  { assert (H0 : closed initial) by (repeat split; (discriminate || constructor)).
    revert H0. generalize initial. induction lines as [|line lines IH]; intros σ H0; [exact H0|].
    cbn [fold_left]. now apply IH, closed_step. }
  unfold save_last. destruct (currentFile (fold_left step lines initial)) as [f|] eqn:Hf;
    [|exact H].
  apply closed_push_file; [|now apply closed_save_hunk].
  unfold save_hunk. now destruct (currentHunk (fold_left step lines initial)).
Qed.

(** The files that [parseFiles] returns and their hunks are objects of
    the store. *)
Lemma parseFiles_reads_objects (lines : list string) (f h : loc) :
  f ∈ files (run_lines lines) ->
  exists o, file_objs (run_lines lines) !! f = Some o
    /\ (h ∈ FileDiff.hunks o -> is_Some (hunk_objs (run_lines lines) !! h)).
Proof.
  destruct (closed_run_lines lines) as (_ & _ & Hfs & Hos). intros Hin.
  rewrite Forall_forall in Hfs. apply Hfs, lookup_lt_is_Some in Hin as [o Ho].
  exists o. split; [exact Ho|]. intros Hh.
  rewrite Forall_forall in Hos. apply list_elem_of_lookup_2 in Ho.
  specialize (Hos o Ho). unfold hunks_in in Hos. rewrite Forall_forall in Hos.
  now apply lookup_lt_is_Some, Hos.
Qed.
End Closed.

(** C4, as stated: the file of a binary section would have no hunk and
    no counted line, whatever [@@] lines are near. A hunk header after the
    binary line still records a hunk, and a hunk before the binary line
    keeps its lines and its count. *)
Lemma binary_file_is_empty_refuted :
  ~ (forall f, parseFiles (split LF binary_then_hunk) !! 0 = Some f -> binary_file_is_empty f)
  /\ ~ (forall f, parseFiles (split LF hunk_then_binary) !! 0 = Some f -> binary_file_is_empty f).
Proof.
  split; intros H.
  - remember (parseFiles (split LF binary_then_hunk) !! 0) as o eqn:E.
    vm_compute in E. subst o.
    destruct (H _ eq_refl) as (_ & Hh & _). discriminate Hh.
  - remember (parseFiles (split LF hunk_then_binary) !! 0) as o eqn:E.
    vm_compute in E. subst o.
    destruct (H _ eq_refl) as (_ & _ & Ha & _). discriminate Ha.
Qed.

(** C4, amended. A file section is a header line followed by lines that
    are no [diff --git] lines. When such a section holds a line
    [Binary files ... differ], and no line before it in the section starts
    with [@@], the file of the section is returned with [isBinary] true, no
    addition, no deletion, and no hunk that holds a line, whatever precedes
    the section and whatever follows the binary line; and its [hunks] are
    empty when no line after the binary line starts with [@@] either, up
    to the end of the input or to the header of the next file: the next
    line that starts with [diff --git ] and holds the two paths. A line
    that starts with [diff --git ] without holding them is no such header
    and may stand among the lines after the binary line. *)
Theorem binary_section_has_no_lines
    (pre body tail rest : list string) (header binary : string) :
  startsWith header "diff --git " = true ->
  is_Some (regex_match re_file_header header) ->
  Forall plain body ->
  is_Some (regex_match re_binary binary) ->
  exists f,
    parseFiles (pre ++ header :: body ++ binary :: tail ++ rest) !! length (parseFiles pre)
    = Some f
    /\ FileDiff.isBinary f = true
    /\ FileDiff.additions f = 0
    /\ FileDiff.deletions f = 0
    /\ Forall (fun h => Hunk.lines h = []) (FileDiff.hunks f)
    /\ (Forall no_hunk_no_file tail -> section_ends rest -> FileDiff.hunks f = []).
Proof.
  intros Hd Hm Hbody Hbin.
  unfold parseFiles, run_lines, read_files. rewrite length_fmap.
  rewrite fold_left_app. cbn [fold_left]. rewrite fold_left_app. cbn [fold_left].
  set (σ0 := fold_left step pre Parser.initial).
  assert (Hc : cursor_ok σ0) by (apply run_cursor_ok; intros _; reflexivity).
  destruct (step_header_fresh header σ0 Hd Hm Hc) as [Hf Hp].
  set (k := length (Parser.files (save_last σ0))) in *.
  set (t := length (Parser.file_objs σ0)) in *.
  destruct (run_fresh_pending k t body _ Hbody Hf Hp) as [Hf' Hp'].
  pose proof (step_binary_quiet t binary _ Hbin Hf') as Hq.
  pose proof (step_pending k t binary _ Hp') as Hp''.
  destruct (run_quiet_pending k t (tail ++ rest) _ Hq Hp'') as [Hq' Hp3].
  apply save_last_quiet in Hq'. apply save_last_pending in Hp3.
  eexists. split; [rewrite list_lookup_fmap, Hp3; reflexivity|].
  destruct (read_file_quiet t _ Hq') as (A & B & C & D).
  repeat (split; [assumption|]).
  intros Htail Hrest.
  assert (Hfb : fresh t (step (fold_left step body (step σ0 header)) binary)).
  { pose proof (binary_line_start binary Hbin) as Hb.
    apply step_fresh; [| |exact Hf'].
    - now apply (startsWith_excludes binary "Binary files " "diff --git ").
    - now apply (startsWith_excludes binary "Binary files " "@@"). }
  destruct (section_without_hunks t tail rest _ Htail Hrest Hfb) as (o & Ho & Hh).
  unfold read_file. rewrite Ho. cbn. now rewrite Hh.
Qed.

Lemma binary_section_has_no_lines_witness :
  (exists f,
      parseFiles
        (["diff --git a/a.txt b/a.txt"; "@@ -1 +1 @@"; "+x"]
         ++ "diff --git a/x.png b/x.png"
         :: ["new file mode 100644"; "index 0000000..1111111"]
         ++ "Binary files /dev/null and b/x.png differ"
         :: ["@@ -0,0 +1 @@"; "+y"] ++ ["diff --git a/b.txt b/b.txt"]) !! 1 = Some f
      /\ FileDiff.isBinary f = true
      /\ FileDiff.additions f = 0
      /\ FileDiff.deletions f = 0
      /\ Forall (fun h => Hunk.lines h = []) (FileDiff.hunks f))
  /\ (exists f,
        parseFiles
          ([] ++ "diff --git a/x.png b/x.png"
           :: ["index 0000000..1111111"]
           ++ "Binary files a/x.png and b/x.png differ"
           :: [""; "diff --git garbage"; "+z"]
           ++ ["diff --git a/b.txt b/b.txt"; "@@ -1 +1 @@"; "+y"]) !! 0 = Some f
        /\ FileDiff.isBinary f = true
        /\ FileDiff.hunks f = []).
Proof.
  split.
  - destruct (binary_section_has_no_lines
                ["diff --git a/a.txt b/a.txt"; "@@ -1 +1 @@"; "+x"]
                ["new file mode 100644"; "index 0000000..1111111"]
                ["@@ -0,0 +1 @@"; "+y"]
                ["diff --git a/b.txt b/b.txt"]
                "diff --git a/x.png b/x.png"
                "Binary files /dev/null and b/x.png differ")
      as (f & H1 & H2 & H3 & H4 & H5 & _).
    + reflexivity.
    + vm_compute. eauto.
    + repeat constructor.
    + vm_compute. eauto.
    + exists f. auto.
  - destruct (binary_section_has_no_lines
                []
                ["index 0000000..1111111"]
                [""; "diff --git garbage"; "+z"]
                ["diff --git a/b.txt b/b.txt"; "@@ -1 +1 @@"; "+y"]
                "diff --git a/x.png b/x.png"
                "Binary files a/x.png and b/x.png differ")
      as (f & H1 & H2 & _ & _ & _ & H6).
    + reflexivity.
    + vm_compute. eauto.
    + repeat constructor.
    + vm_compute. eauto.
    + exists f. split; [exact H1|]. split; [exact H2|]. apply H6.
      * repeat constructor; intros _; vm_compute; reflexivity.
      * right. eexists _, _. split; [reflexivity|]. split; [reflexivity|].
        vm_compute. eauto.
Defined.

(** ** The counters and the hunks

    When every line that starts with [@@] is a hunk header, the current
    hunk is never in a [hunks] array while it receives lines, and each
    counter of a file follows the lines of its hunks. *)

Section Counters.
Import Parser.

Lemma count_push (k : HunkLine.kind) (ls : list HunkLine.t) (l : HunkLine.t) :
  count k (ls ++ [l])%list = count k ls + (if decide (HunkLine.type l = k) then 1 else 0).
Proof.
  unfold count. rewrite filter_app, length_app. f_equal.
  rewrite filter_cons, filter_nil. now destruct (decide (HunkLine.type l = k)).
Qed.

Lemma sum_list_snoc (ns : list nat) (n : nat) : sum_list (ns ++ [n])%list = sum_list ns + n.
Proof. induction ns as [|m ns IH]; cbn; [lia|]. rewrite IH. lia. Qed.

Lemma recorded_push (k : HunkLine.kind) (σ : state) (hs : list loc) (h : loc) :
  recorded k σ (hs ++ [h])%list = recorded k σ hs + count k (Hunk.lines (read_hunk σ h)).
Proof. unfold recorded. rewrite fmap_app. apply sum_list_snoc. Qed.

Lemma recorded_ext (k : HunkLine.kind) (σ σ' : state) (hs : list loc) :
  Forall (fun h => read_hunk σ' h = read_hunk σ h) hs ->
  recorded k σ' hs = recorded k σ hs.
Proof.
  unfold recorded. induction 1 as [|h hs Hh _ IH]; [reflexivity|].
  cbn. rewrite Hh. f_equal. exact IH.
Qed.

Lemma read_hunk_update_hunk_ne (h h' : loc) (upd : Hunk.t -> Hunk.t) (σ : state) :
  h <> h' -> read_hunk (update_hunk h' upd σ) h = read_hunk σ h.
Proof. intros Hne. unfold read_hunk. state_simpl. rewrite list_lookup_alter_ne; auto. Qed.

Lemma read_hunk_update_hunk_eq (h : loc) (ho : Hunk.t) (upd : Hunk.t -> Hunk.t) (σ : state) :
  hunk_objs σ !! h = Some ho ->
  read_hunk σ h = ho /\ read_hunk (update_hunk h upd σ) h = upd ho.
Proof.
  intros Hl. unfold read_hunk. state_simpl. rewrite list_lookup_alter_eq, Hl. auto.
Qed.

Lemma read_hunk_new_hunk (o : Hunk.t) (σ : state) :
  read_hunk (new_hunk o σ) (length (hunk_objs σ)) = o
  /\ forall h, h < length (hunk_objs σ) -> read_hunk (new_hunk o σ) h = read_hunk σ h.
Proof.
  unfold read_hunk. state_simpl. split.
  - now rewrite list_lookup_middle.
  - intros h Hlt. now rewrite lookup_app_l.
Qed.

Lemma counter_benign (upd : FileDiff.t loc -> FileDiff.t loc) (k : HunkLine.kind)
    (o : FileDiff.t loc) :
  benign upd -> counter k (upd o) = counter k o.
Proof. intros Hb. destruct (Hb o) as (_ & Ha & Hd & _). destruct k; cbn; auto. Qed.

(** An update of a file that leaves hunks and counters alone. *)
Lemma sound_update_file (f : loc) (upd : FileDiff.t loc -> FileDiff.t loc) (σ : state) :
  benign upd -> sound σ -> sound (update_file f upd σ).
Proof.
  intros Hb [Hu Hbal]. split.
  - intros h Hh. state_simpl. apply Forall_alter; [now apply Hu|].
    intros o _. destruct (Hb o) as (-> & _). auto.
  - intros k Hk f' o'. state_simpl. rewrite list_lookup_alter.
    destruct (decide (f = f')) as [<-|Hne].
    + destruct (file_objs σ !! f) as [o|] eqn:Ho; [|discriminate].
      intros [= <-]. rewrite counter_benign by exact Hb.
      destruct (Hb o) as (-> & _). now apply Hbal.
    + now apply Hbal.
Qed.

Lemma sound_marker (hit : bool) (upd : FileDiff.t loc -> FileDiff.t loc) (σ : state) :
  benign upd -> sound σ -> sound (marker hit upd σ).
Proof.
  intros Hb H. unfold marker. destruct hit; [|exact H].
  destruct (currentFile σ); [|exact H]. now apply sound_update_file.
Qed.

(** A content line: it is pushed on the current hunk, and the counter of
    its kind, if there is one, goes up by one. *)
Lemma sound_push_line (f h : loc) (ho : Hunk.t) (l : HunkLine.t)
    (upd : FileDiff.t loc -> FileDiff.t loc) (σ : state) :
  currentFile σ = Some f -> currentHunk σ = Some h -> hunk_objs σ !! h = Some ho ->
  (forall o, FileDiff.hunks (upd o) = FileDiff.hunks o
             /\ forall k, k <> HunkLine.context ->
                  counter k (upd o)
                  = counter k o + (if decide (HunkLine.type l = k) then 1 else 0)) ->
  sound σ ->
  sound (update_file f upd (update_hunk h (Hunk.push_line l) σ)).
Proof.
  intros Hf Hh Hho Hupd [Hu Hbal].
  pose proof (Hu h Hh) as Hnot. rewrite Forall_forall in Hnot.
  assert (Hrec : forall k o, o ∈ file_objs σ ->
            recorded k (update_file f upd (update_hunk h (Hunk.push_line l) σ))
                     (FileDiff.hunks o)
            = recorded k σ (FileDiff.hunks o)).
  { intros k o Ho. apply recorded_ext, Forall_forall. intros h' Hin.
    change (read_hunk (update_hunk h (Hunk.push_line l) σ) h' = read_hunk σ h').
    apply read_hunk_update_hunk_ne. intros ->. now apply (Hnot o). }
  assert (Hopen : forall k,
            open k (update_file f upd (update_hunk h (Hunk.push_line l) σ))
            = open k σ + (if decide (HunkLine.type l = k) then 1 else 0)).
  { intros k. unfold open. state_simpl. rewrite Hh.
    change (read_hunk (update_file f upd (update_hunk h (Hunk.push_line l) σ)) h)
      with (read_hunk (update_hunk h (Hunk.push_line l) σ) h).
    destruct (read_hunk_update_hunk_eq h ho (Hunk.push_line l) σ Hho) as [-> ->].
    cbn. apply count_push. }
  split.
  - intros h' Hh'. state_simpl. apply Forall_alter; [now apply Hu|].
    intros o _. destruct (Hupd o) as (-> & _). auto.
  - intros k Hk f' o'. rewrite Hopen.
    cbn [file_objs update_file update_hunk currentFile]. rewrite list_lookup_alter.
    destruct (decide (f = f')) as [<-|Hne].
    + destruct (file_objs σ !! f) as [o|] eqn:Ho; [|discriminate].
      intros [= <-]. destruct (Hupd o) as (Hhs & Hc). rewrite Hhs, (Hc k Hk).
      rewrite (Hrec k o) by (eapply list_elem_of_lookup_2; exact Ho).
      rewrite (Hbal k Hk f o Ho). rewrite Hf.
      destruct (decide (Some f = Some f)); [lia|contradiction].
    + intros Ho'. rewrite (Hrec k o') by (eapply list_elem_of_lookup_2; exact Ho').
      rewrite (Hbal k Hk f' o' Ho'). rewrite Hf.
      destruct (decide (Some f = Some f')) as [[= E]|_]; [contradiction|reflexivity].
Qed.
Lemma update_file_same (f : loc) (σ : state) : update_file f (fun o => o) σ = σ.
Proof.
  destruct σ as [fo ho fs cf ch]. unfold update_file. cbn. f_equal.
  now apply list_alter_id.
Qed.

Lemma sound_hunk_content (line : string) (σ : state) :
  sound σ -> sound (hunk_content line σ).
Proof.
  intros H. unfold hunk_content.
  destruct (currentHunk σ) as [h|] eqn:Hh; [|exact H].
  destruct (currentFile σ) as [f|] eqn:Hf; [|exact H].
  destruct (file_objs σ !! f) as [fo|]; [|exact H].
  destruct (hunk_objs σ !! h) as [ho|] eqn:Hho; [|exact H].
  destruct (negb (FileDiff.isBinary fo)); [|exact H].
  destruct (startsWith line "+" && negb (startsWith line "+++")).
  { apply (sound_push_line f h ho); auto.
    intros o. split; [reflexivity|]. intros k Hk.
    destruct k; cbn; try contradiction; case_decide; try congruence; lia. }
  destruct (startsWith line "-" && negb (startsWith line "---")).
  { apply (sound_push_line f h ho); auto.
    intros o. split; [reflexivity|]. intros k Hk.
    destruct k; cbn; try contradiction; case_decide; try congruence; lia. }
  destruct (startsWith line " " && (0 <? length (Hunk.lines ho))%nat); [|exact H].
  rewrite <- (update_file_same f
                (update_hunk h
                   (Hunk.push_line (HunkLine.mk HunkLine.context (substring_from 1 line))) σ)).
  apply (sound_push_line f h ho); auto.
  intros o. split; [reflexivity|]. intros k Hk.
    destruct k; cbn; try contradiction; case_decide; try congruence; lia.
Qed.

(** A hunk header: the hunk before is pushed, and a new one, in no array
    and without lines, is current. *)
Lemma sound_new_hunk (f : loc) (o : Hunk.t) (σ : state) :
  currentFile σ = Some f -> Hunk.lines o = [] -> closed σ -> sound σ ->
  sound (new_hunk o (save_hunk f σ)).
Proof.
  intros Hf Ho Hc [Hu Hbal].
  pose proof (closed_save_hunk f σ Hc) as (_ & _ & _ & Hin).
  assert (Hlen : length (hunk_objs (save_hunk f σ)) = length (hunk_objs σ)).
  { unfold save_hunk. now destruct (currentHunk σ). }
  assert (Hcur : currentFile (save_hunk f σ) = Some f).
  { unfold save_hunk. now destruct (currentHunk σ). }
  destruct (read_hunk_new_hunk o (save_hunk f σ)) as [Hnew Hold].
  split.
  - intros h Hh. state_simpl. injection Hh as <-.
    eapply Forall_impl; [exact Hin|]. intros fo Hfo Hmem.
    unfold hunks_in in Hfo. rewrite Forall_forall in Hfo. specialize (Hfo _ Hmem). lia.
  - intros k Hk f' o' Ho'.
    assert (Hopen : open k (new_hunk o (save_hunk f σ)) = 0).
    { unfold open. state_simpl. rewrite Hnew, Ho. reflexivity. }
    rewrite Hopen.
    change (currentFile (new_hunk o (save_hunk f σ))) with (currentFile (save_hunk f σ)).
    rewrite Hcur.
    change (file_objs (new_hunk o (save_hunk f σ))) with (file_objs (save_hunk f σ)) in Ho'.
    assert (Hrec : recorded k (new_hunk o (save_hunk f σ)) (FileDiff.hunks o')
                   = recorded k (save_hunk f σ) (FileDiff.hunks o')).
    { apply recorded_ext. rewrite Forall_forall in Hin.
      specialize (Hin o' (list_elem_of_lookup_2 _ _ _ Ho')).
      eapply Forall_impl; [exact Hin|]. intros h Hlt. now apply Hold. }
    rewrite Hrec. clear Hrec Hopen Hnew Hold Hin Hlen Hcur.
    unfold save_hunk in *. destruct (currentHunk σ) as [h|] eqn:Hh.
    + state_simpl. rewrite list_lookup_alter in Ho'.
      change (recorded k (update_file f (FileDiff.push_hunk h) σ) (FileDiff.hunks o'))
        with (recorded k σ (FileDiff.hunks o')).
      destruct (decide (f = f')) as [<-|Hne].
      * destruct (file_objs σ !! f) as [fo|] eqn:Hfo; [|discriminate].
        injection Ho' as <-. cbn [FileDiff.hunks FileDiff.push_hunk].
        rewrite recorded_push.
        replace (counter k (FileDiff.push_hunk h fo)) with (counter k fo)
          by (destruct k; reflexivity).
        rewrite (Hbal k Hk f fo Hfo), Hf. unfold open. rewrite Hh.
        destruct (decide (Some f = Some f)); [lia|contradiction].
      * rewrite (Hbal k Hk f' o' Ho'), Hf.
        destruct (decide (Some f = Some f')) as [[= E]|_]; [contradiction|reflexivity].
    + rewrite (Hbal k Hk f' o' Ho'), Hf. unfold open. rewrite Hh.
      destruct (decide (Some f = Some f')); lia.
Qed.

Lemma sound_hunk_header (line : string) (σ : state) :
  (startsWith line "@@" = true -> is_Some (regex_match re_hunk_header line)) ->
  closed σ -> sound σ -> sound (hunk_header line σ).
Proof.
  intros Hm Hc H. unfold hunk_header.
  destruct (startsWith line "@@"); [|exact H].
  destruct (currentFile σ) as [f|] eqn:Hf; [|exact H].
  destruct (Hm eq_refl) as [m ->]. now apply sound_new_hunk.
Qed.

(** What the file header branch and the end of the loop do with the
    cursors: the current hunk is pushed and the file is done. *)
Lemma recorded_save_hunk (k : HunkLine.kind) (f : loc) (σ : state) (hs : list loc) :
  recorded k (save_hunk f σ) hs = recorded k σ hs.
Proof. unfold save_hunk. now destruct (currentHunk σ). Qed.

Lemma balanced_after_push (f : loc) (σ : state) :
  currentFile σ = Some f -> sound σ ->
  forall k, k <> HunkLine.context ->
  forall f' o', file_objs (save_hunk f σ) !! f' = Some o' ->
    counter k o' = recorded k (save_hunk f σ) (FileDiff.hunks o').
Proof.
  intros Hf [Hu Hbal] k Hk f' o' Ho'. rewrite recorded_save_hunk. unfold save_hunk in Ho'.
  destruct (currentHunk σ) as [h|] eqn:Hh.
  - state_simpl. rewrite list_lookup_alter in Ho'.
    destruct (decide (f = f')) as [<-|Hne].
    + destruct (file_objs σ !! f) as [fo|] eqn:Hfo; [|discriminate].
      injection Ho' as <-. cbn [FileDiff.hunks FileDiff.push_hunk].
      rewrite recorded_push.
      replace (counter k (FileDiff.push_hunk h fo)) with (counter k fo)
        by (destruct k; reflexivity).
      rewrite (Hbal k Hk f fo Hfo), Hf. unfold open. rewrite Hh.
      destruct (decide (Some f = Some f)); [lia|contradiction].
    + rewrite (Hbal k Hk f' o' Ho'), Hf.
      destruct (decide (Some f = Some f')) as [[= E]|_]; [contradiction|lia].
  - rewrite (Hbal k Hk f' o' Ho'), Hf. unfold open. rewrite Hh.
    destruct (decide (Some f = Some f')); lia.
Qed.

Lemma sound_file_header (line : string) (σ : state) :
  closed σ -> cursor_ok σ -> sound σ -> sound (file_header line σ).
Proof.
  intros Hc Hok H. unfold file_header.
  destruct (startsWith line "diff --git "); [|exact H].
  set (σ1 := match currentFile σ with
             | Some f =>
                 push_file f
                   match currentHunk σ with
                   | Some h => set_currentHunk None (update_file f (FileDiff.push_hunk h) σ)
                   | None => σ
                   end
             | None => σ
             end).
  assert (H1 : currentHunk σ1 = None
               /\ forall k, k <> HunkLine.context ->
                  forall f' o', file_objs σ1 !! f' = Some o' ->
                    counter k o' = recorded k σ1 (FileDiff.hunks o')).
  { subst σ1. destruct (currentFile σ) as [f|] eqn:Hf.
    - pose proof (balanced_after_push f σ Hf H) as Hb. unfold save_hunk in Hb.
      destruct (currentHunk σ) as [h|] eqn:Hh; state_simpl; split; auto.
    - split; [now apply Hok|]. destruct H as [_ Hbal].
      intros k Hk f' o' Ho'. rewrite (Hbal k Hk f' o' Ho'), Hf.
      destruct (decide (None = Some f')); [discriminate|lia]. }
  clearbody σ1. destruct H1 as [Hnone Hb].
  assert (Hs1 : sound σ1).
  { split.
    - intros h Hh. congruence.
    - intros k Hk f' o' Ho'. rewrite (Hb k Hk f' o' Ho'). unfold open. rewrite Hnone.
      destruct (decide (currentFile σ1 = Some f')); lia. }
  destruct (regex_match re_file_header line) as [m|]; [|exact Hs1].
  split.
  - intros h Hh. state_simpl. congruence.
  - intros k Hk f' o'. unfold open. state_simpl. rewrite Hnone.
    assert (E : forall n : nat, n + (if decide (Some (length (file_objs σ1)) = Some f')
                                     then 0 else 0) = n)
      by (intros n; destruct (decide (Some (length (file_objs σ1)) = Some f')); lia).
    rewrite E. intros Ho'. apply lookup_app_Some in Ho' as [Ho'|[_ Ho']].
    + exact (Hb k Hk f' o' Ho').
    + apply list_lookup_singleton_Some in Ho' as [_ <-]. now destruct k.
Qed.

Lemma sound_step (line : string) (σ : state) :
  (startsWith line "@@" = true -> is_Some (regex_match re_hunk_header line)) ->
  closed σ -> cursor_ok σ -> sound σ -> sound (step σ line).
Proof.
  intros Hm Hc Hok H. unfold step.
  apply sound_hunk_content, sound_hunk_header; [exact Hm| |].
  - apply closed_marker; [apply benign_binary_files|].
    apply closed_marker; [apply benign_rename_from|].
    apply closed_marker; [apply benign_deleted_file_mode|].
    apply closed_marker; [apply benign_new_file_mode|].
    now apply closed_file_header.
  - apply sound_marker; [apply benign_binary_files|].
    apply sound_marker; [apply benign_rename_from|].
    apply sound_marker; [apply benign_deleted_file_mode|].
    apply sound_marker; [apply benign_new_file_mode|].
    now apply sound_file_header.
Qed.

Lemma sound_run (lines : list string) (σ : state) :
  hunk_headers_match lines ->
  closed σ -> cursor_ok σ -> sound σ ->
  sound (fold_left step lines σ).
Proof.
  intros Hall. revert σ. induction Hall as [|line lines Hm _ IH]; intros σ Hc Hok H; [exact H|].
  cbn [fold_left]. apply IH.
  - now apply closed_step.
  - now apply step_cursors, file_header_cursor_ok.
  - now apply sound_step.
Qed.

(** At the end, every counter is the number of such lines in the hunks
    of its file. *)
Lemma run_lines_counters (lines : list string) :
  hunk_headers_match lines ->
  forall k, k <> HunkLine.context ->
  forall f o, file_objs (run_lines lines) !! f = Some o ->
    counter k o = recorded k (run_lines lines) (FileDiff.hunks o).
Proof.
  intros Hall k Hk f o. unfold run_lines.
  assert (H : sound (fold_left step lines initial)).
  { apply sound_run; [exact Hall| | |].
    - repeat split; (discriminate || constructor).
    - intros _. reflexivity.
    - split; [intros h [=]|]. intros k' _ f' o' Ho'. destruct f'; discriminate Ho'. }
  set (σ := fold_left step lines initial) in *.
  unfold save_last. destruct (currentFile σ) as [c|] eqn:Hf.
  - intros Ho. exact (balanced_after_push c σ Hf H k Hk f o Ho).
  - intros Ho. destruct H as [_ Hbal]. rewrite (Hbal k Hk f o Ho), Hf.
    destruct (decide (None = Some f)); [discriminate|lia].
Qed.

Lemma count_lines_read_file (k : HunkLine.kind) (σ : state) (f : loc) (o : FileDiff.t loc) :
  file_objs σ !! f = Some o ->
  count_lines k (read_file σ f) = recorded k σ (FileDiff.hunks o)
  /\ counter k (read_file σ f) = counter k o.
Proof.
  intros Ho. unfold read_file, count_lines, recorded. rewrite Ho. cbn.
  split; [|now destruct k]. now rewrite <- list_fmap_compose.
Qed.
End Counters.

(** X17. The counters of every file agree with the lines of its hunks, for
    every input whose [@@] lines are all hunk headers. *)
Lemma counts_agree_when_hunk_headers_match (lines : list string) :
  hunk_headers_match lines ->
  Forall (fun f => FileDiff.additions f = count_lines HunkLine.add f
                   /\ FileDiff.deletions f = count_lines HunkLine.del f)
         (parseFiles lines).
Proof.
  intros Hall. unfold parseFiles, read_files. apply Forall_fmap, Forall_forall.
  intros f _. set (σ := run_lines lines).
  change ((fun o => FileDiff.additions o = count_lines HunkLine.add o
                    /\ FileDiff.deletions o = count_lines HunkLine.del o)
            (read_file σ f)).
  cbv beta.
  destruct (Parser.file_objs σ !! f) as [o|] eqn:Ho.
  - destruct (count_lines_read_file HunkLine.add σ f o Ho) as [Ea Ca].
    destruct (count_lines_read_file HunkLine.del σ f o Ho) as [Ed Cd].
    rewrite Ea, Ed.
    change (FileDiff.additions (read_file σ f)) with (counter HunkLine.add (read_file σ f)).
    change (FileDiff.deletions (read_file σ f)) with (counter HunkLine.del (read_file σ f)).
    rewrite Ca, Cd. split.
    + now apply (run_lines_counters lines Hall HunkLine.add) with (f := f).
    + now apply (run_lines_counters lines Hall HunkLine.del) with (f := f).
  - unfold read_file. rewrite Ho. split; reflexivity.
Qed.

Lemma counts_agree_when_hunk_headers_match_witness :
  Forall (fun f => FileDiff.additions f = count_lines HunkLine.add f
                   /\ FileDiff.deletions f = count_lines HunkLine.del f)
         (parseFiles ["diff --git a/f b/f"; "@@ -1,2 +1,2 @@"; " a"; "-b"; "+c";
                      "@@ -9 +9 @@"; "-d"; "diff --git a/g b/g"; "@@ -1 +1 @@"; "+e"]).
Proof.
  apply (counts_agree_when_hunk_headers_match
           ["diff --git a/f b/f"; "@@ -1,2 +1,2 @@"; " a"; "-b"; "+c";
            "@@ -9 +9 @@"; "-d"; "diff --git a/g b/g"; "@@ -1 +1 @@"; "+e"]).
  unfold hunk_headers_match.
  repeat constructor; intros H; vm_compute in H; try discriminate H; vm_compute; eauto.
Defined.

(** Without a current hunk, a content line and a line that starts with
    [@@] without being a hunk header leave the state of the parser as it
    is: such lines are dropped. *)
Lemma line_dropped_without_hunk (line : string) (σ : Parser.state) :
  Parser.currentHunk σ = None ->
  startsWith line "+" = true \/ startsWith line "-" = true \/ startsWith line " " = true
  \/ (startsWith line "@@" = true /\ regex_match re_hunk_header line = None) ->
  step σ line = σ.
Proof.
  intros Hh Hline.
  assert (Hbin : bool_decide (is_Some (regex_match re_binary line)) = false).
  { apply bool_decide_eq_false. intros Hm. apply binary_line_start in Hm.
    unfold startsWith in *.
    destruct Hline as [H|[H|[H|[H _]]]];
      destruct (prefix_compatible _ _ _ H Hm); discriminate. }
  assert (Hd : startsWith line "diff --git " = false
               /\ startsWith line "new file mode" = false
               /\ startsWith line "deleted file mode" = false
               /\ startsWith line "rename from" = false).
  { unfold startsWith in *.
    destruct Hline as [H|[H|[H|[H _]]]]; repeat split;
      match goal with
      | |- String.prefix ?q line = false =>
          destruct (String.prefix q line) eqn:Hq; [|reflexivity];
          destruct (prefix_compatible _ _ _ H Hq); discriminate
      end. }
  destruct Hd as (D1 & D2 & D3 & D4).
  unfold step. rewrite (file_header_other line σ D1).
  unfold new_file_mode, deleted_file_mode, rename_from, binary_files, marker.
  rewrite D2, D3, D4, Hbin.
  assert (Hhdr : hunk_header line σ = σ).
  { unfold hunk_header, save_hunk. rewrite Hh.
    destruct Hline as [H|[H|[H|[H Hm]]]].
    - now rewrite (startsWith_excludes line "+" "@@").
    - now rewrite (startsWith_excludes line "-" "@@").
    - now rewrite (startsWith_excludes line " " "@@").
    - rewrite H, Hm. now destruct (Parser.currentFile σ). }
  rewrite Hhdr. now apply hunk_content_no_hunk.
Qed.

(** * Further properties of the parser and of the functions that read its results

    ** formatRelativeTime on a valid date *)

Lemma append_assoc (a b c : string) : (a ++ b) ++ c = a ++ (b ++ c).
Proof.
  induction a as [|x a IH]; [reflexivity|].
  change (String x ((a ++ b) ++ c) = String x (a ++ (b ++ c))). now rewrite IH.
Qed.

Lemma append_length (a b : string) :
  String.length (a ++ b) = String.length a + String.length b.
Proof.
  induction a as [|x a IH]; [reflexivity|].
  change (S (String.length (a ++ b)) = S (String.length a + String.length b)). now rewrite IH.
Qed.

Lemma ago_not_just_now (n : Number.t) (unit : string) : ago n unit <> "just now".
Proof.
  unfold ago. rewrite <- !append_assoc.
  generalize (((Number.toString n ++ " ") ++ unit) ++ (if Number.neq n 1 then "s" else "")).
  intros s E.
  assert (L : String.length (s ++ " ago") = 8) by now rewrite E.
  rewrite append_length in L. cbn in L.
  destruct s as [|a [|b [|c [|d [|e s]]]]]; cbn in L; try lia.
  discriminate E.
Qed.

(** X1. The label is [just now] exactly when the date is less than sixty
    seconds before the clock, a date after the clock included. *)
Lemma formatRelativeTime_just_now
    (Date_parse : string -> option Z) (Date_now t : Z) (dateString : string) :
  dateString <> "" ->
  Date_parse dateString = Some t ->
  (formatRelativeTime Date_parse Date_now dateString = "just now"
   <-> (Date_now - t < 60000)%Z).
Proof.
  intros Hne Ht. unfold formatRelativeTime, relative_time, time_value. rewrite Ht.
  cbn [truthy negb]. destruct (String.eqb_spec dateString ""); [contradiction|].
  cbn [negb Number.sub Number.floor_div Number.lt].
  destruct (Z.ltb_spec ((Date_now - t) / 1000) 60) as [H|H].
  - split; [intros _|reflexivity].
    Z.to_euclidean_division_equations. lia.
  - split.
    + intros E. exfalso.
      repeat match type of E with
             | context [if ?b then _ else _] => destruct b
             end; now apply ago_not_just_now in E.
    + intros Hlt. exfalso. Z.to_euclidean_division_equations. lia.
Qed.

Lemma formatRelativeTime_just_now_witness :
  formatRelativeTime (fun _ => Some 5000%Z) 1000 "tomorrow" = "just now".
Proof.
  apply (formatRelativeTime_just_now (fun _ => Some 5000%Z) 1000 5000 "tomorrow");
    [discriminate|reflexivity|reflexivity].
Defined.


Ltac settle_thresholds :=
  repeat match goal with
         | |- context [(?a <? ?b)%Z] =>
             destruct (Z.ltb_spec a b);
             try (exfalso; Z.to_euclidean_division_equations; lia)
         end.

(** X2. Between the fourth week and the thirtieth day, and between the
    twelfth month of thirty days and the 365th day, the count of the label
    is zero: [0 months ago] from 28 days on, [0 years ago] from 360 days
    on. *)
Lemma formatRelativeTime_zero_count
    (Date_parse : string -> option Z) (Date_now t : Z) (dateString : string) :
  dateString <> "" ->
  Date_parse dateString = Some t ->
  ((28 * 86400000 <= Date_now - t < 30 * 86400000)%Z ->
   formatRelativeTime Date_parse Date_now dateString = "0 months ago")
  /\ ((360 * 86400000 <= Date_now - t < 365 * 86400000)%Z ->
      formatRelativeTime Date_parse Date_now dateString = "0 years ago").
Proof.
  intros Hne Ht. unfold formatRelativeTime, relative_time, time_value. rewrite Ht.
  cbn [truthy negb]. destruct (String.eqb_spec dateString ""); [contradiction|].
  cbn [negb Number.sub Number.floor_div Number.lt].
  set (d := (Date_now - t)%Z). split; intros Hd.
  - settle_thresholds.
    replace (((((d / 1000) / 60) / 60) / 24) / 30)%Z with 0%Z
      by (Z.to_euclidean_division_equations; lia).
    reflexivity.
  - settle_thresholds.
    replace (((((d / 1000) / 60) / 60) / 24) / 365)%Z with 0%Z
      by (Z.to_euclidean_division_equations; lia).
    reflexivity.
Qed.

Lemma formatRelativeTime_zero_count_witness :
  formatRelativeTime (fun _ => Some 0%Z) (28 * 86400000) "2026-01-01" = "0 months ago"
  /\ formatRelativeTime (fun _ => Some 0%Z) (360 * 86400000) "2025-01-01" = "0 years ago".
Proof.
  split.
  - apply (proj1 (formatRelativeTime_zero_count (fun _ => Some 0%Z) (28 * 86400000) 0
                    "2026-01-01" ltac:(discriminate) eq_refl)). lia.
  - apply (proj2 (formatRelativeTime_zero_count (fun _ => Some 0%Z) (360 * 86400000) 0
                    "2025-01-01" ltac:(discriminate) eq_refl)). lia.
Defined.

(** ** formatRelativeTime: the table of labels *)





(** ** Quantifiers *)

Lemma append_cons (c : ascii) (a b : string) : String c a ++ b = String c (a ++ b).
Proof. reflexivity. Qed.

Lemma append_nil_r (a : string) : a ++ "" = a.
Proof. induction a as [|c a IH]; [reflexivity|]. now rewrite append_cons, IH. Qed.

Lemma substring_to_all (s : string) : substring_to (String.length s) s = s.
Proof. induction s as [|c s IH]; [reflexivity|]. cbn. now rewrite IH. Qed.

Lemma consumed_all (s : string) : consumed s "" = s.
Proof. unfold consumed. cbn. rewrite Nat.sub_0_r. apply substring_to_all. Qed.

Lemma substring_to_app (a b : string) : substring_to (String.length a) (a ++ b) = a.
Proof. induction a as [|c a IH]; [now destruct b|]. rewrite append_cons. cbn. now rewrite IH. Qed.

Lemma substring_from_app (a b : string) : substring_from (String.length a) (a ++ b) = b.
Proof. induction a as [|c a IH]; [reflexivity|]. rewrite append_cons. cbn. exact IH. Qed.

Lemma consumed_app (a b : string) : consumed (a ++ b) b = a.
Proof.
  unfold consumed. rewrite append_length.
  replace (String.length a + String.length b - String.length b) with (String.length a) by lia.
  apply substring_to_app.
Qed.

Lemma prefix_app (a b : string) : String.prefix a (a ++ b) = true.
Proof.
  induction a as [|c a IH]; [apply prefix_nil_l|].
  rewrite append_cons, prefix_cons, Ascii.eqb_refl. exact IH.
Qed.

(** A greedy quantifier without upper bound takes a whole run of the
    class when the rest of the pattern matches after the run. *)
Lemma rep_greedy_run (cls : ascii -> bool) (run rest : string)
    (k : option ascii -> string -> option MatchResult) (m : MatchResult) :
  all_in cls run = true ->
  match rest with "" => True | String c _ => cls c = false end ->
  forall lo prev,
    lo <= String.length run ->
    k (last_char prev run) rest = Some m ->
    rep cls true lo None prev (run ++ rest) k = Some m.
Proof.
  intros Hall Hrest. induction run as [|c run IH]; intros lo prev Hlo Hk.
  - cbn in Hlo. assert (lo = 0) as -> by lia. cbn in Hk.
    change ("" ++ rest) with rest. destruct rest as [|c rest]; cbn; [exact Hk|].
    rewrite Hrest. cbn. exact Hk.
  - cbn in Hall. apply andb_true_iff in Hall as [Hc Hall].
    rewrite append_cons. cbn [rep]. rewrite Hc. cbn [andb may_repeat fmap option_fmap option_map].
    rewrite (IH Hall (pred lo) (Some c)); [reflexivity|cbn in Hlo; lia|exact Hk].
Qed.


(** A quantifier followed by [$] finds no match in a text that holds a
    character outside its class. *)
Lemma rep_blocked (cls : ascii -> bool) (greedy : bool)
    (k : option ascii -> string -> option MatchResult) (s : string) :
  all_in cls s = false ->
  (forall p c s', k p (String c s') = None) ->
  forall lo hi prev, rep cls greedy lo hi prev s k = None.
Proof.
  intros Hs Hk. induction s as [|c s IH]; intros lo hi prev; [discriminate Hs|].
  cbn in Hs. cbn [rep].
  assert (Hstop : match lo with O => k prev (String c s) | S _ => None end = None)
    by (destruct lo; [apply Hk|reflexivity]).
  destruct (cls c) eqn:Hc; cbn [andb] in *; [|exact Hstop].
  destruct (may_repeat hi); [|exact Hstop].
  destruct greedy; rewrite (IH Hs), Hstop; reflexivity.
Qed.

(** ** getFileExtension *)

Lemma lacks_not_char (x : ascii) (s : string) : all_in (not_char x) s = lacks x s.
Proof. induction s as [|c s IH]; [reflexivity|]. cbn. now rewrite IH. Qed.

Lemma lacks_app (x : ascii) (a b : string) : lacks x (a ++ b) = lacks x a && lacks x b.
Proof.
  induction a as [|c a IH]; [reflexivity|].
  rewrite append_cons. cbn. rewrite IH. now rewrite andb_assoc.
Qed.

Lemma match_here_extension (prev : option ascii) (s : string) :
  match_here false re_extension prev s
  = if String.prefix "." s
    then rep (not_char ".") true 1 None (last_char prev ".") (substring_from 1 s)
           (fun _ s' =>
              if at_eol false s'
              then Some [consumed s s'; consumed (substring_from 1 s) s']
              else None)
    else None.
Proof. reflexivity. Qed.

Lemma match_here_extension_dot (prev : option ascii) (e : string) :
  e <> "" -> lacks "." e = true ->
  match_here false re_extension prev ("." ++ e) = Some ["." ++ e; e].
Proof.
  intros Hne He. rewrite match_here_extension.
  change (String.prefix "." ("." ++ e)) with (String.prefix "." (String "." e)).
  rewrite prefix_one_char, Ascii.eqb_refl.
  change (substring_from 1 ("." ++ e)) with e.
  rewrite <- (append_nil_r e) at 1.
  apply rep_greedy_run.
  - now rewrite lacks_not_char.
  - exact I.
  - destruct e; [contradiction|cbn; lia].
  - cbn [at_eol]. now rewrite !consumed_all.
Qed.

Lemma match_here_extension_none (prev : option ascii) (s : string) :
  (s = "" \/ lacks "." (substring_from 1 s) = false \/ String.prefix "." s = false) ->
  match_here false re_extension prev s = None.
Proof.
  rewrite match_here_extension. intros [->|[H|H]]; [reflexivity| |now rewrite H].
  destruct (String.prefix "." s); [|reflexivity].
  apply rep_blocked; [now rewrite lacks_not_char|reflexivity].
Qed.

Lemma search_extension (stem e : string) (prev : option ascii) :
  e <> "" -> lacks "." e = true ->
  search false re_extension prev (stem ++ "." ++ e) = Some ["." ++ e; e].
Proof.
  intros Hne He. revert prev. induction stem as [|c stem IH]; intros prev.
  - change ("" ++ "." ++ e) with ("." ++ e).
    change ("." ++ e) with (String "." e) at 1. cbn [search].
    change (String "." e) with ("." ++ e). now rewrite match_here_extension_dot.
  - rewrite append_cons. cbn [search]. rewrite match_here_extension_none; [apply IH|].
    right. left. cbn [substring_from]. rewrite lacks_app. cbn. apply andb_false_r.
Qed.

Lemma search_extension_none (s : string) (prev : option ascii) :
  lacks "." s = true -> search false re_extension prev s = None.
Proof.
  revert prev. induction s as [|c s IH]; intros prev H; cbn [search].
  - now rewrite match_here_extension_none by auto.
  - cbn in H. apply andb_true_iff in H as [Hc H].
    rewrite match_here_extension_none; [now apply IH|].
    right. right. rewrite prefix_one_char. now apply negb_true_iff in Hc.
Qed.

Lemma search_extension_trailing_dot (stem : string) (prev : option ascii) :
  search false re_extension prev (stem ++ ".") = None.
Proof.
  revert prev. induction stem as [|c stem IH]; intros prev.
  - reflexivity.
  - rewrite append_cons. cbn [search]. rewrite match_here_extension_none; [apply IH|].
    right. left. cbn [substring_from]. rewrite lacks_app. cbn. apply andb_false_r.
Qed.

Lemma getFileExtension_after_dot (stem e : string) :
  lacks "." e = true -> getFileExtension (stem ++ "." ++ e) = e.
Proof.
  intros He. unfold getFileExtension, regex_match.
  destruct (String.eqb_spec e "") as [->|Hne].
  - now rewrite search_extension_trailing_dot.
  - now rewrite search_extension.
Qed.

Lemma getFileExtension_no_dot (e : string) :
  lacks "." e = true -> getFileExtension e = "".
Proof.
  intros He. unfold getFileExtension, regex_match. now rewrite search_extension_none.
Qed.

(** X4. The extension of a path is what follows its last dot: for a path
    that ends with a dot and a text without dot that is not empty, it is
    that text; for a path without dot, and for a path that ends with a dot,
    it is empty. *)
Lemma getFileExtension_last_dot (stem e : string) :
  lacks "." e = true ->
  getFileExtension (stem ++ "." ++ e) = e
  /\ getFileExtension e = "".
Proof.
  intros He. split; [now apply getFileExtension_after_dot|now apply getFileExtension_no_dot].
Qed.

Lemma getFileExtension_last_dot_witness :
  getFileExtension ("src/v1.2/archive.tar" ++ "." ++ "gz") = "gz"
  /\ getFileExtension "gz" = "".
Proof. apply (getFileExtension_last_dot "src/v1.2/archive.tar" "gz"). reflexivity. Defined.


(** ** detectLanguage *)

Lemma lower_char_idempotent (c : ascii) : lower_char (lower_char c) = lower_char c.
Proof. each_char c; reflexivity. Qed.

Lemma toLowerCase_idempotent (s : string) : toLowerCase (toLowerCase s) = toLowerCase s.
Proof. induction s as [|c s IH]; [reflexivity|]. cbn. now rewrite lower_char_idempotent, IH. Qed.

Lemma lacks_dot_lower (s : string) : lacks "." (toLowerCase s) = lacks "." s.
Proof. induction s as [|c s IH]; [reflexivity|]. cbn. now rewrite lower_char_dot, IH. Qed.

Lemma lacks_slash_lower (s : string) : lacks "/" (toLowerCase s) = lacks "/" s.
Proof. induction s as [|c s IH]; [reflexivity|]. cbn. now rewrite lower_char_slash, IH. Qed.

Lemma split_not_nil (sep : ascii) (s : string) : split sep s <> [].
Proof.
  destruct s as [|c s]; cbn; [discriminate|].
  destruct (Ascii.eqb c sep); [discriminate|]. destruct (split sep s); discriminate.
Qed.

Lemma split_app_last (sep : ascii) (a b : string) :
  lacks sep b = true -> split sep (a ++ b) = app_last (split sep a) b.
Proof.
  intros Hb. induction a as [|c a IH].
  - change ("" ++ b) with b. cbn. clear -Hb. induction b as [|c b IH]; [reflexivity|].
    cbn in Hb. apply andb_true_iff in Hb as [Hc Hb]. apply negb_true_iff in Hc.
    cbn. rewrite Hc, (IH Hb). reflexivity.
  - rewrite append_cons. cbn [split]. rewrite IH.
    pose proof (split_not_nil sep a) as Hne.
    destruct (Ascii.eqb c sep).
    + destruct (split sep a); [contradiction|reflexivity].
    + destruct (split sep a) as [|h [|h' t]]; [contradiction|reflexivity|reflexivity].
Qed.

Lemma last_app_last (pieces : list string) (b : string) :
  pieces <> [] -> List.last (app_last pieces b) "" = List.last pieces "" ++ b.
Proof.
  induction pieces as [|p ps IH]; [contradiction|]. intros _.
  destruct ps as [|p' ps]; [reflexivity|].
  change (List.last (p :: app_last (p' :: ps) b) "" = List.last (p' :: ps) "" ++ b).
  rewrite <- IH by discriminate.
  destruct (app_last (p' :: ps) b) eqn:E; [|reflexivity].
  destruct ps; discriminate E.
Qed.

(** The file name of a path that ends with a text without slash. *)
Lemma filename_app (a b : string) :
  lacks "/" b = true ->
  List.last (split "/" (a ++ b)) "" = List.last (split "/" a) "" ++ b.
Proof.
  intros Hb. rewrite split_app_last by exact Hb. apply last_app_last, split_not_nil.
Qed.

Lemma languageMap_entries (k v : string) :
  own_property languageMap k = Some v ->
  lacks "." k = true /\ lacks "/" k = true /\ k <> "" /\ k <> "gitignore" /\ v <> "".
Proof.
  unfold languageMap. cbn [own_property].
  repeat match goal with
         | |- (if String.eqb ?a k then _ else _) = _ -> _ =>
             destruct (String.eqb_spec a k) as [<-|_];
             [intros [= <-]; repeat split; (reflexivity || discriminate)|]
         end.
  discriminate.
Qed.

Lemma dotted_name_not_gitignore (a b : string) :
  lacks "." b = true -> b <> "gitignore" -> a ++ "." ++ b <> ".gitignore".
Proof.
  intros Hb Hne E. destruct a as [|c a].
  - injection E as E. contradiction.
  - rewrite append_cons in E. injection E as _ E.
    assert (H : lacks "." (a ++ "." ++ b) = lacks "." "gitignore") by now rewrite E.
    rewrite lacks_app in H. cbn in H. rewrite andb_false_r in H. discriminate.
Qed.

(** The language of a path that ends with a dot and an extension, read
    from the lower-case extension. *)
Lemma detectLanguage_by_extension (stem e : string) :
  lacks "." e = true -> lacks "/" e = true -> e <> "" -> toLowerCase e <> "gitignore" ->
  detectLanguage (stem ++ "." ++ e)
  = let v := get languageMap (toLowerCase e) in if truthy v then v else JString "plaintext".
Proof.
  intros Hd Hs Hne Hg. unfold detectLanguage.
  rewrite (getFileExtension_after_dot stem e Hd).
  rewrite filename_app by (rewrite lacks_app, Hs; reflexivity).
  rewrite !toLowerCase_app.
  set (x := toLowerCase (List.last (split "/" stem) "")).
  change (toLowerCase ".") with ".".
  assert (Hk : lacks "." (toLowerCase e) = true) by now rewrite lacks_dot_lower.
  assert (Hdot : lacks "." (x ++ "." ++ toLowerCase e) = false).
  { rewrite lacks_app. cbn. apply andb_false_r. }
  destruct (String.eqb_spec (x ++ "." ++ toLowerCase e) "dockerfile") as [E|_];
    [rewrite E in Hdot; discriminate|].
  destruct (String.eqb_spec (x ++ "." ++ toLowerCase e) "makefile") as [E|_];
    [rewrite E in Hdot; discriminate|].
  destruct (String.eqb_spec (x ++ "." ++ toLowerCase e) ".gitignore") as [E|_];
    [now apply dotted_name_not_gitignore in E|].
  reflexivity.
Qed.

(** X5. A path that ends with a dot and an extension of the table, in any
    letter case, has the language that the table gives, whatever comes
    before the dot. *)
Lemma detectLanguage_known_extension (stem e lang : string) :
  own_property languageMap (toLowerCase e) = Some lang ->
  detectLanguage (stem ++ "." ++ e) = JString lang.
Proof.
  intros Hown. destruct (languageMap_entries _ _ Hown) as (Hd & Hs & Hne & Hg & Hv).
  rewrite lacks_dot_lower in Hd. rewrite lacks_slash_lower in Hs.
  rewrite detectLanguage_by_extension; auto.
  - unfold get. rewrite Hown. cbn. now destruct (String.eqb_spec lang "").
  - intros ->. contradiction.
Qed.

Lemma detectLanguage_known_extension_witness :
  detectLanguage ("/Users/Me/My.Projects/lib/Parser" ++ "." ++ "TSX") = JString "tsx".
Proof.
  apply (detectLanguage_known_extension "/Users/Me/My.Projects/lib/Parser" "TSX" "tsx").
  reflexivity.
Defined.

(** X6. The result is a string that is not empty, except for the extensions
    [constructor] and [__proto__], which the table inherits from
    [Object.prototype]: there the result is an object, for every path that
    ends with a dot and such an extension. *)
Lemma detectLanguage_string_or_object :
  (forall p : string,
      (exists s, s <> "" /\ detectLanguage p = JString s)
      \/ (detectLanguage p = JObject
          /\ (toLowerCase (getFileExtension p) = "constructor"
              \/ toLowerCase (getFileExtension p) = "__proto__")))
  /\ (forall stem e : string,
        toLowerCase e = "constructor" \/ toLowerCase e = "__proto__" ->
        detectLanguage (stem ++ "." ++ e) = JObject).
Proof.
  split.
  - intros p. unfold detectLanguage.
    destruct (String.eqb _ "dockerfile"); [left; eexists; split; [|reflexivity]; discriminate|].
    destruct (String.eqb _ "makefile"); [left; eexists; split; [|reflexivity]; discriminate|].
    destruct (String.eqb _ ".gitignore"); [left; eexists; split; [|reflexivity]; discriminate|].
    pose proof (toLowerCase_idempotent (getFileExtension p)) as Hid.
    set (ext := toLowerCase (getFileExtension p)) in *. unfold get.
    destruct (own_property languageMap ext) as [v|] eqn:Hown.
    + destruct (languageMap_entries _ _ Hown) as (_ & _ & _ & _ & Hv).
      left. exists v. split; [exact Hv|]. cbn. now destruct (String.eqb_spec v "").
    + destruct (existsb (String.eqb ext) object_prototype_keys) eqn:Hex.
      * right. split; [reflexivity|].
        unfold object_prototype_keys in Hex. cbn [existsb] in Hex.
        repeat match type of Hex with
               | (String.eqb ext ?k || _) = true =>
                   destruct (String.eqb_spec ext k) as [E|_];
                   [rewrite E in Hid; try discriminate Hid; auto|cbn [orb] in Hex]
               end.
        discriminate Hex.
      * left. exists "plaintext". split; [discriminate|reflexivity].
  - intros stem e He.
    assert (H : lacks "." e = true /\ lacks "/" e = true /\ e <> ""
                /\ toLowerCase e <> "gitignore"
                /\ get languageMap (toLowerCase e) = JObject).
    { rewrite <- (lacks_dot_lower e), <- (lacks_slash_lower e).
      assert (e <> "") by (intros ->; destruct He; discriminate).
      destruct He as [-> | ->]; repeat split; (assumption || discriminate). }
    destruct H as (Hd & Hs & Hne & Hg & Hget).
    rewrite detectLanguage_by_extension by assumption. now rewrite Hget.
Qed.

Lemma detectLanguage_string_or_object_witness :
  detectLanguage ("lib/Base" ++ "." ++ "Constructor") = JObject.
Proof.
  apply (proj2 detectLanguage_string_or_object "lib/Base" "Constructor"). left. reflexivity.
Defined.


(** ** parseFiles: the lines that are not read *)

Section MoreFiles.
Import Parser.

(** A line that starts like none of the file, marker and hunk headers is
    read as a content line only. *)
Lemma step_content_only (line : string) (σ : state) :
  startsWith line "diff --git " = false ->
  startsWith line "new file mode" = false ->
  startsWith line "deleted file mode" = false ->
  startsWith line "rename from" = false ->
  startsWith line "Binary files " = false ->
  startsWith line "@@" = false ->
  step σ line = hunk_content line σ.
Proof.
  intros D1 D2 D3 D4 D5 D6.
  assert (Hbin : bool_decide (is_Some (regex_match re_binary line)) = false).
  { apply bool_decide_eq_false. intros Hm. apply binary_line_start in Hm. congruence. }
  unfold step. rewrite (file_header_other line σ D1).
  unfold new_file_mode, deleted_file_mode, rename_from, binary_files, marker.
  rewrite D2, D3, D4, Hbin. now rewrite hunk_header_other.
Qed.

Lemma step_triple_ignored (line : string) (σ : state) :
  startsWith line "+++" = true \/ startsWith line "---" = true -> step σ line = σ.
Proof.
  intros H.
  rewrite step_content_only;
    try (destruct H as [H|H];
         [apply (startsWith_excludes line "+++")|apply (startsWith_excludes line "---")];
         (reflexivity || exact H)).
  unfold hunk_content.
  destruct (currentHunk σ); [|reflexivity]. destruct (currentFile σ); [|reflexivity].
  destruct (file_objs σ !! _); [|reflexivity]. destruct (hunk_objs σ !! _); [|reflexivity].
  destruct (negb _); [|reflexivity].
  destruct H as [H|H]; rewrite H.
  - rewrite andb_false_r.
    rewrite (startsWith_excludes line "+++" "-"), (startsWith_excludes line "+++" " ");
      (reflexivity || exact H).
  - rewrite (startsWith_excludes line "---" "+") by (reflexivity || exact H).
    rewrite andb_false_r.
    rewrite (startsWith_excludes line "---" " "); (reflexivity || exact H).
Qed.

Lemma step_other_ignored (line : string) (σ : state) :
  startsWith line "diff --git " = false ->
  startsWith line "new file mode" = false ->
  startsWith line "deleted file mode" = false ->
  startsWith line "rename from" = false ->
  startsWith line "Binary files " = false ->
  startsWith line "@@" = false ->
  startsWith line "+" = false -> startsWith line "-" = false -> startsWith line " " = false ->
  step σ line = σ.
Proof.
  intros D1 D2 D3 D4 D5 D6 Hp Hm Hs. rewrite step_content_only by assumption.
  unfold hunk_content.
  destruct (currentHunk σ); [|reflexivity]. destruct (currentFile σ); [|reflexivity].
  destruct (file_objs σ !! _); [|reflexivity]. destruct (hunk_objs σ !! _); [|reflexivity].
  rewrite Hp, Hm, Hs. now destruct (negb _).
Qed.

End MoreFiles.

(** X12. The lines that are never read, wherever they stand: the result is
    that of the patch without the line. Such are the lines that start
    with three plus signs or three minus signs, so that an added line
    whose text starts with two plus signs and a deleted line whose text
    starts with two minus signs are lost; and the lines that start with
    none of the words and signs that the loop looks for, among them the
    empty line, [index], [rename to] and the backslash line of a missing
    final newline. *)
Lemma parseFiles_skips_unread (pre post : list string) (line : string) :
  unread line ->
  parseFiles (pre ++ line :: post)%list = parseFiles (pre ++ post)%list.
Proof.
  intros H. unfold parseFiles, run_lines.
  rewrite !fold_left_app. cbn [fold_left].
  destruct H as [H|[H|(D1 & D2 & D3 & D4 & D5 & D6 & Hp & Hm & Hs)]].
  - rewrite step_triple_ignored; auto.
  - rewrite step_triple_ignored; auto.
  - now rewrite step_other_ignored.
Qed.

Lemma parseFiles_skips_unread_witness :
  parseFiles (["diff --git a/f.c b/f.c"; "@@ -1,2 +1,2 @@"; "-i++;"] ++ "+++i;" :: ["+j;"])%list
  = parseFiles (["diff --git a/f.c b/f.c"; "@@ -1,2 +1,2 @@"; "-i++;"] ++ ["+j;"])%list.
Proof.
  apply (parseFiles_skips_unread
           ["diff --git a/f.c b/f.c"; "@@ -1,2 +1,2 @@"; "-i++;"] ["+j;"] "+++i;").
  left. reflexivity.
Defined.


(** ** parseFiles: the number of files *)

Section FileCount.
Import Parser.

Lemma marker_no_file (hit : bool) (upd : FileDiff.t loc -> FileDiff.t loc) (σ : state) :
  currentFile σ = None -> marker hit upd σ = σ.
Proof. unfold marker. intros ->. now destruct hit. Qed.

(** Before the first file, a line that starts no file changes nothing. *)
Lemma step_idle (line : string) (σ : state) :
  currentFile σ = None -> currentHunk σ = None -> ~ valid_header line -> step σ line = σ.
Proof.
  intros Hf Hh Hv.
  assert (E : file_header line σ = σ).
  { unfold file_header. destruct (startsWith line "diff --git ") eqn:Hd; [|reflexivity].
    rewrite Hf. destruct (regex_match re_file_header line) eqn:Hm; [|reflexivity].
    exfalso. apply Hv. split; [exact Hd|]. now rewrite Hm. }
  unfold step. rewrite E.
  unfold new_file_mode, deleted_file_mode, rename_from, binary_files.
  rewrite (marker_no_file _ _ σ Hf).
  rewrite (marker_no_file _ _ σ Hf).
  rewrite (marker_no_file _ _ σ Hf).
  rewrite (marker_no_file _ _ σ Hf).
  assert (E' : hunk_header line σ = σ).
  { unfold hunk_header. rewrite Hf. now destruct (startsWith line "@@"). }
  rewrite E'. now apply hunk_content_no_hunk.
Qed.

Lemma run_idle (pre : list string) :
  Forall (fun l => ~ valid_header l) pre -> fold_left step pre initial = initial.
Proof.
  induction pre as [|l pre IH] using rev_ind; [reflexivity|].
  intros H. apply Forall_app in H as [Hpre Hl]. apply Forall_inv in Hl.
  rewrite fold_left_app. cbn [fold_left]. rewrite (IH Hpre). now apply step_idle.
Qed.

(** With a current file, a turn of the loop keeps one, and pushes to
    [files] exactly when the line starts with [diff --git ]. *)
Lemma step_file_count (line : string) (σ : state) :
  is_Some (currentFile σ) ->
  is_Some (currentFile (step σ line))
  /\ length (files (step σ line))
     = length (files σ) + (if startsWith line "diff --git " then 1 else 0).
Proof.
  intros [f Hf]. destruct (step_cursors line σ) as (-> & -> & _).
  unfold file_header. destruct (startsWith line "diff --git ").
  - rewrite Hf.
    destruct (regex_match re_file_header line), (currentHunk σ);
      state_simpl; rewrite ?Hf, length_app; cbn [length]; split; eauto.
  - rewrite Hf. split; [eauto|lia].
Qed.

Lemma run_file_count (lines : list string) (σ : state) :
  is_Some (currentFile σ) ->
  is_Some (currentFile (fold_left step lines σ))
  /\ length (files (fold_left step lines σ))
     = length (files σ) + length (header_lines lines).
Proof.
  revert σ. induction lines as [|l lines IH]; intros σ Hf.
  - cbn. split; [exact Hf|lia].
  - cbn [fold_left]. destruct (step_file_count l σ Hf) as [Hf' Hn].
    destruct (IH _ Hf') as [Hf'' Hn']. split; [exact Hf''|].
    rewrite Hn', Hn. unfold header_lines. rewrite filter_cons.
    destruct (decide (startsWith l "diff --git " = true)) as [->|Hne].
    + cbn [length]. lia.
    + destruct (startsWith l "diff --git "); [congruence|lia].
Qed.

Lemma step_first_header (line : string) :
  valid_header line ->
  is_Some (currentFile (step initial line)) /\ files (step initial line) = [].
Proof.
  intros [Hd [m Hm]]. destruct (step_cursors line initial) as (-> & -> & _).
  unfold file_header. rewrite Hd, Hm. cbn. eauto.
Qed.

Lemma save_last_length (σ : state) :
  is_Some (currentFile σ) -> length (files (save_last σ)) = S (length (files σ)).
Proof.
  intros [f Hf]. unfold save_last, save_hunk. rewrite Hf.
  destruct (currentHunk σ); state_simpl; rewrite length_app; cbn; lia.
Qed.

End FileCount.

(** X13. The lines before the first line that starts a file are not read. *)
Lemma parseFiles_before_first_header (pre rest : list string) :
  Forall (fun l => ~ valid_header l) pre ->
  parseFiles (pre ++ rest)%list = parseFiles rest.
Proof.
  intros H. unfold parseFiles, run_lines. now rewrite fold_left_app, run_idle.
Qed.

Lemma parseFiles_before_first_header_witness :
  parseFiles (["From: A <a@b.c>"; "Subject: x"; "---"; " f | 2 +-"; "diff --git f f"]
                ++ ["diff --git a/f b/f"; "@@ -1 +1 @@"; "-x"; "+y"])%list
  = parseFiles ["diff --git a/f b/f"; "@@ -1 +1 @@"; "-x"; "+y"].
Proof.
  apply (parseFiles_before_first_header
           ["From: A <a@b.c>"; "Subject: x"; "---"; " f | 2 +-"; "diff --git f f"]).
  repeat constructor; intros [H1 H2]; vm_compute in H1, H2;
    solve [discriminate | destruct H2; discriminate].
Defined.

(** X14. From the first line that starts a file on, every line that starts
    with [diff --git ] adds an entry to the result, whether it holds the
    two paths or not: the number of files is one more than the number of
    such lines after the first. *)
Lemma parseFiles_length (pre rest : list string) (header : string) :
  Forall (fun l => ~ valid_header l) pre ->
  valid_header header ->
  length (parseFiles (pre ++ header :: rest)%list) = S (length (header_lines rest)).
Proof.
  intros Hpre Hv. unfold parseFiles, read_files, run_lines.
  rewrite fold_left_app, (run_idle pre Hpre), length_fmap. cbn [fold_left].
  destruct (step_first_header header Hv) as [Hf H0].
  destruct (run_file_count rest _ Hf) as [Hf' Hn].
  rewrite save_last_length by exact Hf'. rewrite Hn, H0. reflexivity.
Qed.

Lemma parseFiles_length_witness :
  length (parseFiles (["From: me"; "diff --git"] ++ "diff --git a/f b/f"
                        :: ["+x"; "diff --git g g"; "diff --git a/h b/h"])%list)
  = S (length (header_lines ["+x"; "diff --git g g"; "diff --git a/h b/h"])).
Proof.
  apply (parseFiles_length ["From: me"; "diff --git"] ["+x"; "diff --git g g"; "diff --git a/h b/h"]
           "diff --git a/f b/f").
  - repeat constructor; intros [H _]; vm_compute in H; discriminate.
  - split; [reflexivity|]. vm_compute. eauto.
Defined.

(** X15. The result is empty exactly when no line starts a file. *)
Lemma parseFiles_nil_iff (lines : list string) :
  parseFiles lines = [] <-> Forall (fun l => ~ valid_header l) lines.
Proof.
  split.
  - induction lines as [|l lines IH]; [constructor|]. intros H.
    assert (Hl : ~ valid_header l).
    { intros Hv. apply (f_equal length) in H.
      unfold parseFiles, read_files, run_lines in H. rewrite length_fmap in H.
      cbn [fold_left] in H.
      destruct (step_first_header l Hv) as [Hf _].
      destruct (run_file_count lines _ Hf) as [Hf' _].
      rewrite save_last_length in H by exact Hf'. discriminate. }
    constructor; [exact Hl|]. apply IH.
    rewrite <- H. unfold parseFiles, run_lines. cbn [fold_left].
    now rewrite step_idle.
  - intros H. unfold parseFiles, run_lines. now rewrite run_idle.
Qed.

Lemma parseFiles_nil_iff_witness :
  parseFiles ["--- a/f"; "+++ b/f"; "@@ -1 +1 @@"; "-x"; "+y"; "diff --git f f"] = [].
Proof.
  apply (proj2 (parseFiles_nil_iff _)).
  repeat constructor; intros [H1 H2]; vm_compute in H1, H2;
    solve [discriminate | destruct H2; discriminate].
Defined.


(** ** parseFiles: a file section that is well formed *)

Section WellFormed.
Import Parser.

Lemma step_preamble (l : string) (o : FileDiff.t loc) :
  preamble_line l -> step (section_state o []) l = section_state (mark l o) [].
Proof.
  intros (D1 & D2 & D3).
  assert (Hbin : bool_decide (is_Some (regex_match re_binary l)) = false).
  { apply bool_decide_eq_false. intros Hm. apply binary_line_start in Hm. congruence. }
  unfold step. rewrite file_header_other by exact D1.
  unfold new_file_mode, deleted_file_mode, rename_from, binary_files, marker, mark.
  rewrite Hbin.
  destruct (startsWith l "new file mode") eqn:E1;
    [rewrite (startsWith_excludes l "new file mode" "deleted file mode"),
       (startsWith_excludes l "new file mode" "rename from") by (reflexivity || exact E1)
    |destruct (startsWith l "deleted file mode") eqn:E2;
     [rewrite (startsWith_excludes l "deleted file mode" "rename from")
        by (reflexivity || exact E2)
     |destruct (startsWith l "rename from") eqn:E3]];
    cbn; (rewrite hunk_header_other; [|exact D2]); now apply hunk_content_no_hunk.
Qed.

Lemma run_preamble (pre : list string) (o : FileDiff.t loc) :
  Forall preamble_line pre ->
  fold_left step pre (section_state o [])
  = section_state (fold_left (fun o l => mark l o) pre o) [].
Proof.
  intros H. revert o. induction H as [|l pre Hl _ IH]; intros o; [reflexivity|].
  cbn [fold_left]. now rewrite step_preamble, IH.
Qed.

Lemma step_section_header (header : string) (m : MatchResult) :
  startsWith header "diff --git " = true ->
  regex_match re_file_header header = Some m ->
  step initial header
  = section_state (FileDiff.mk (group m 1) (group m 2) FileDiff.modified [] 0 0 false) [].
Proof.
  intros Hd Hm.
  assert (Hbin : bool_decide (is_Some (regex_match re_binary header)) = false).
  { apply bool_decide_eq_false. intros H. apply binary_line_start in H.
    now rewrite (startsWith_excludes header "diff --git " "Binary files ") in H. }
  unfold step, file_header. rewrite Hd, Hm.
  unfold new_file_mode, deleted_file_mode, rename_from, binary_files, marker.
  rewrite Hbin.
  rewrite (startsWith_excludes header "diff --git " "new file mode"),
    (startsWith_excludes header "diff --git " "deleted file mode"),
    (startsWith_excludes header "diff --git " "rename from") by (reflexivity || exact Hd).
  rewrite hunk_header_other
    by (apply (startsWith_excludes header "diff --git "); (reflexivity || exact Hd)).
  now apply hunk_content_no_hunk.
Qed.

Lemma total_snoc (k : HunkLine.kind) (hs : list Hunk.t) (h : Hunk.t) :
  total k (hs ++ [h])%list = total k hs + count k (Hunk.lines h).
Proof. unfold total. rewrite fmap_app. apply sum_list_snoc. Qed.

Lemma seq_pred_snoc (hs : list Hunk.t) (h : Hunk.t) :
  seq 0 (pred (length (hs ++ [h])%list))
  = match hs with
    | [] => []
    | _ => (seq 0 (pred (length hs)) ++ [pred (length hs)])%list
    end.
Proof.
  rewrite length_app. cbn [length]. replace (length hs + 1) with (S (length hs)) by lia.
  cbn [pred]. destruct hs as [|h0 hs]; [reflexivity|].
  cbn [length pred]. now rewrite seq_S.
Qed.

Lemma step_hunk_start (l : string) (o : FileDiff.t loc) (hs : list Hunk.t) :
  hunk_start l ->
  step (section_state o hs) l = section_state o (hs ++ [hunk_of l []])%list.
Proof.
  intros [Hs [m Hm]].
  assert (Hbin : bool_decide (is_Some (regex_match re_binary l)) = false).
  { apply bool_decide_eq_false. intros H. apply binary_line_start in H.
    now rewrite (startsWith_excludes l "@@" "Binary files ") in H. }
  unfold step.
  rewrite file_header_other
    by (apply (startsWith_excludes l "@@"); (reflexivity || exact Hs)).
  unfold new_file_mode, deleted_file_mode, rename_from, binary_files, marker.
  rewrite Hbin.
  rewrite (startsWith_excludes l "@@" "new file mode"),
    (startsWith_excludes l "@@" "deleted file mode"),
    (startsWith_excludes l "@@" "rename from") by (reflexivity || exact Hs).
  assert (E : hunk_header l (section_state o hs) = section_state o (hs ++ [hunk_of l []])%list).
  { unfold hunk_header, save_hunk, hunk_of. rewrite Hs, Hm.
    unfold section_state. rewrite seq_pred_snoc, !total_snoc.
    replace (pred (length (hs ++ [_])%list)) with (length hs)
      by (rewrite length_app; cbn; lia).
    destruct hs as [|h0 hs]; cbn; rewrite ?Nat.add_0_r; reflexivity. }
  rewrite E. unfold hunk_content.
  destruct (currentHunk _); [|reflexivity]. destruct (currentFile _); [|reflexivity].
  destruct (file_objs _ !! _); [|reflexivity]. destruct (hunk_objs _ !! _); [|reflexivity].
  rewrite (startsWith_excludes l "@@" "+"), (startsWith_excludes l "@@" "-"),
    (startsWith_excludes l "@@" " ") by (reflexivity || exact Hs).
  now destruct (negb _).
Qed.

Lemma section_state_snoc (o : FileDiff.t loc) (hs : list Hunk.t) (h : Hunk.t) :
  section_state o (hs ++ [h])%list
  = Parser.mk
      [FileDiff.mk (FileDiff.oldPath o) (FileDiff.newPath o) (FileDiff.type o)
         (seq 0 (length hs))
         (total HunkLine.add hs + count HunkLine.add (Hunk.lines h))
         (total HunkLine.del hs + count HunkLine.del (Hunk.lines h)) false]
      (hs ++ [h])%list [] (Some 0) (Some (length hs)).
Proof.
  unfold section_state. rewrite !total_snoc.
  replace (pred (length (hs ++ [h])%list)) with (length hs)
    by (rewrite length_app; cbn; lia).
  now destruct hs.
Qed.

Lemma alter_last {A : Type} (f : A -> A) (xs : list A) (x : A) :
  alter f (length xs) (xs ++ [x])%list = (xs ++ [f x])%list.
Proof.
  replace (length xs) with (length xs + 0) by lia. now rewrite alter_app_r.
Qed.

Lemma content_line_starts (l : string) :
  content_line l ->
  startsWith l "diff --git " = false
  /\ startsWith l "new file mode" = false
  /\ startsWith l "deleted file mode" = false
  /\ startsWith l "rename from" = false
  /\ startsWith l "Binary files " = false
  /\ startsWith l "@@" = false.
Proof.
  unfold content_line, added_line, deleted_line, context_line.
  intros [H|[H|H]]; [apply andb_true_iff in H as [H _]|apply andb_true_iff in H as [H _]|];
    repeat split;
    first [apply (startsWith_excludes l "+"); (reflexivity || exact H)
          |apply (startsWith_excludes l "-"); (reflexivity || exact H)
          |apply (startsWith_excludes l " "); (reflexivity || exact H)].
Qed.

Lemma step_content (l : string) (o : FileDiff.t loc) (hs : list Hunk.t) (h : Hunk.t) :
  content_line l ->
  step (section_state o (hs ++ [h])%list) l
  = section_state o (hs ++ [with_lines (lines_after (Hunk.lines h) l) h])%list.
Proof.
  intros Hc. destruct (content_line_starts l Hc) as (D1 & D2 & D3 & D4 & D5 & D6).
  rewrite step_content_only by assumption.
  rewrite !section_state_snoc. unfold hunk_content.
  cbn [currentHunk currentFile file_objs hunk_objs].
  change ([?x] !! 0) with (Some x).
  rewrite list_lookup_middle by reflexivity.
  cbn [FileDiff.isBinary negb]. unfold update_file, update_hunk. state_simpl.
  rewrite !alter_last.
  change (alter ?f 0 [?x]) with [f x].
  fold (added_line l). fold (deleted_line l). fold (context_line l).
  unfold lines_after, with_lines, Hunk.push_line, FileDiff.incr_additions,
    FileDiff.incr_deletions, entry.
  cbn [FileDiff.oldPath FileDiff.newPath FileDiff.type FileDiff.hunks FileDiff.additions
       FileDiff.deletions FileDiff.isBinary Hunk.lines Hunk.oldStart Hunk.oldLines
       Hunk.newStart Hunk.newLines Hunk.heading].
  destruct (added_line l) eqn:Ea.
  { unfold added_line in Ea. apply andb_true_iff in Ea as [Ea _]. rewrite Ea.
    cbn [orb]. rewrite !count_push. cbn [HunkLine.type].
    repeat case_decide; try congruence. do 3 f_equal; [f_equal; lia|]. f_equal. lia. }
  destruct (deleted_line l) eqn:Ed.
  { unfold deleted_line in Ed. apply andb_true_iff in Ed as [Ed _]. rewrite Ed.
    rewrite (startsWith_excludes l "-" "+") by (reflexivity || exact Ed).
    cbn [orb]. rewrite !count_push. cbn [HunkLine.type].
    repeat case_decide; try congruence. do 3 f_equal; [f_equal; lia|]. f_equal. lia. }
  cbn [orb]. destruct (context_line l) eqn:Ec.
  - unfold context_line in Ec.
    rewrite (startsWith_excludes l " " "+"), (startsWith_excludes l " " "-")
      by (reflexivity || exact Ec).
    cbn [andb]. destruct (0 <? length (Hunk.lines h))%nat; [|now destruct h].
    rewrite !count_push. cbn [HunkLine.type].
    repeat case_decide; try congruence. do 3 f_equal; [f_equal; lia|]. f_equal. lia.
  - destruct Hc as [?|[?|?]]; congruence.
Qed.

Lemma run_content (body : list string) (o : FileDiff.t loc) (hs : list Hunk.t) (h : Hunk.t) :
  Forall content_line body ->
  fold_left step body (section_state o (hs ++ [h])%list)
  = section_state o (hs ++ [with_lines (fold_left lines_after body (Hunk.lines h)) h])%list.
Proof.
  intros H. revert h. induction H as [|l body Hl _ IH]; intros h.
  - cbn. now destruct h.
  - cbn [fold_left]. rewrite step_content by exact Hl. now rewrite IH.
Qed.

Lemma lines_after_grow (body : list string) (ls : list HunkLine.t) :
  Forall content_line body -> ls <> [] ->
  fold_left lines_after body ls = (ls ++ (entry <$> body))%list.
Proof.
  intros H. revert ls. induction H as [|l body Hl _ IH]; intros ls Hne.
  - cbn. now rewrite app_nil_r.
  - cbn [fold_left]. unfold lines_after at 2.
    assert (E : added_line l || deleted_line l || (context_line l && (0 <? length ls)%nat)
                = true).
    { destruct ls; [contradiction|]. cbn. rewrite andb_true_r.
      destruct Hl as [-> | [-> | ->]]; cbn; now rewrite ?orb_true_r. }
    rewrite E, IH by (now destruct ls). now rewrite <- app_assoc.
Qed.

Lemma lines_after_start (body : list string) :
  Forall content_line body ->
  fold_left lines_after body [] = entry <$> drop_leading_context body.
Proof.
  induction 1 as [|l body Hl Hbody IH]; [reflexivity|].
  cbn [fold_left drop_leading_context]. unfold lines_after at 2.
  destruct (context_line l) eqn:Ec.
  - unfold added_line, deleted_line. unfold context_line in Ec.
    rewrite (startsWith_excludes l " " "+"), (startsWith_excludes l " " "-")
      by (reflexivity || exact Ec).
    exact IH.
  - assert (E : added_line l || deleted_line l = true).
    { destruct Hl as [-> | [-> | ?]]; [reflexivity|apply orb_true_r|congruence]. }
    cbn [andb]. rewrite orb_false_r, E. now rewrite lines_after_grow.
Qed.

Lemma run_hunks (hunks : list (string * list string)) (o : FileDiff.t loc) (hs : list Hunk.t) :
  Forall (fun hb => hunk_start hb.1 /\ Forall content_line hb.2) hunks ->
  fold_left step (concat ((fun hb => hb.1 :: hb.2) <$> hunks)) (section_state o hs)
  = section_state o (hs ++ ((fun hb => hunk_of hb.1 hb.2) <$> hunks))%list.
Proof.
  intros H. revert hs. induction H as [|[l body] hunks [Hl Hbody] _ IH]; intros hs.
  - cbn. now rewrite app_nil_r.
  - cbn [fmap list_fmap concat fst snd] in *. rewrite fold_left_app. cbn [fold_left].
    rewrite step_hunk_start by exact Hl. rewrite run_content by exact Hbody.
    rewrite lines_after_start by exact Hbody.
    change (with_lines _ (hunk_of l [])) with (hunk_of l body).
    rewrite IH. now rewrite <- app_assoc.
Qed.

Lemma read_all (hs : list Hunk.t) :
  (fun i => default empty_hunk (hs !! i)) <$> seq 0 (length hs) = hs.
Proof.
  apply list_eq. intros i. rewrite list_lookup_fmap.
  destruct (decide (i < length hs)) as [Hi|Hi].
  - rewrite lookup_seq_lt by exact Hi. cbn.
    destruct (lookup_lt_is_Some_2 hs i Hi) as [x Hx]. now rewrite Hx.
  - rewrite lookup_seq_ge by lia. cbn. symmetry. apply lookup_ge_None. lia.
Qed.

Lemma read_section (o : FileDiff.t loc) (hs : list Hunk.t) :
  read_files (save_last (section_state o hs)) = [section_file o hs].
Proof.
  destruct hs as [|h hs _] using rev_ind; [reflexivity|].
  rewrite section_state_snoc. unfold section_file. rewrite !total_snoc.
  unfold save_last, save_hunk, read_files, read_file, read_hunk. cbn.
  unfold FileDiff.with_hunks. cbn. f_equal. f_equal.
  rewrite <- seq_S.
  replace (S (length hs)) with (length (hs ++ [h])%list) by (rewrite length_app; cbn; lia).
  apply read_all.
Qed.

Lemma mark_fields {A B : Type} (l : string) (o1 : FileDiff.t A) (o2 : FileDiff.t B) :
  FileDiff.oldPath o1 = FileDiff.oldPath o2 /\ FileDiff.newPath o1 = FileDiff.newPath o2
  /\ FileDiff.type o1 = FileDiff.type o2 ->
  FileDiff.oldPath (mark l o1) = FileDiff.oldPath (mark l o2)
  /\ FileDiff.newPath (mark l o1) = FileDiff.newPath (mark l o2)
  /\ FileDiff.type (mark l o1) = FileDiff.type (mark l o2).
Proof.
  intros (H1 & H2 & H3). unfold mark.
  repeat match goal with
         | |- context [if ?b then _ else _] => destruct b
         end; cbn; auto.
Qed.

Lemma marks_fields {A B : Type} (pre : list string) (o1 : FileDiff.t A) (o2 : FileDiff.t B) :
  FileDiff.oldPath o1 = FileDiff.oldPath o2 /\ FileDiff.newPath o1 = FileDiff.newPath o2
  /\ FileDiff.type o1 = FileDiff.type o2 ->
  forall hs,
    section_file (fold_left (fun o l => mark l o) pre o1) hs
    = section_file (fold_left (fun o l => mark l o) pre o2) hs.
Proof.
  revert o1 o2. induction pre as [|l pre IH]; intros o1 o2 H hs.
  - cbn. unfold section_file. destruct H as (-> & -> & ->). reflexivity.
  - cbn [fold_left]. apply IH. now apply mark_fields.
Qed.

End WellFormed.

(** X8. A file section that is well formed: a header line, lines that start
    neither a file nor a hunk nor a binary note, then hunks, each a hunk
    header followed by content lines. The result is one file. Its paths
    are those of the header, its kind and the [/dev/null] paths are set
    by the marker lines in their order, its hunks are those of the hunk
    headers, each with the numbers that [parseInt] makes of the digits of
    its header (Numbers, that is doubles: from 2^53 on the nearest double,
    not always the integer written), with the trimmed heading, and with
    its body from the first added or deleted line on (the context lines
    that lead a hunk are dropped), and its counters count the added and
    the deleted lines. *)
Lemma parseFiles_section (header : string) (m : MatchResult) (pre : list string)
    (hunks : list (string * list string)) :
  startsWith header "diff --git " = true ->
  regex_match re_file_header header = Some m ->
  Forall preamble_line pre ->
  Forall (fun hb => hunk_start hb.1 /\ Forall content_line hb.2) hunks ->
  parseFiles (header :: pre ++ concat ((fun hb => hb.1 :: hb.2) <$> hunks))%list
  = [section_file
       (fold_left (fun o l => mark l o) pre
          (FileDiff.mk (H := Hunk.t) (group m 1) (group m 2) FileDiff.modified [] 0 0 false))
       ((fun hb => hunk_of hb.1 hb.2) <$> hunks)].
Proof.
  intros Hd Hm Hpre Hhunks. unfold parseFiles, run_lines. cbn [fold_left].
  rewrite (step_section_header header m Hd Hm), fold_left_app.
  rewrite run_preamble by exact Hpre. rewrite run_hunks by exact Hhunks.
  cbn [app]. rewrite read_section. f_equal. apply marks_fields. cbn. auto.
Qed.

Lemma parseFiles_section_witness :
  parseFiles
    ("diff --git a/src/new.c b/src/new.c"
       :: ["new file mode 100644"; "index 0000000..e69de29"; "--- /dev/null"; "+++ b/src/new.c"]
       ++ concat ((fun hb => hb.1 :: hb.2)
                    <$> [("@@ -0,0 +1,2 @@", ["+int x;"; "+int y;"]);
                         ("@@ -10,3 +12 @@ int main()", [" a"; "-b"; " c"; "+d"])]))%list
  = [section_file
       (fold_left (fun o l => mark l o)
          ["new file mode 100644"; "index 0000000..e69de29"; "--- /dev/null"; "+++ b/src/new.c"]
          (FileDiff.mk (H := Hunk.t)
             (group ["diff --git a/src/new.c b/src/new.c"; "src/new.c"; "src/new.c"] 1)
             (group ["diff --git a/src/new.c b/src/new.c"; "src/new.c"; "src/new.c"] 2)
             FileDiff.modified [] 0 0 false))
       ((fun hb => hunk_of hb.1 hb.2)
          <$> [("@@ -0,0 +1,2 @@", ["+int x;"; "+int y;"]);
               ("@@ -10,3 +12 @@ int main()", [" a"; "-b"; " c"; "+d"])])].
Proof.
  apply (parseFiles_section "diff --git a/src/new.c b/src/new.c"
           ["diff --git a/src/new.c b/src/new.c"; "src/new.c"; "src/new.c"]).
  - reflexivity.
  - vm_compute. reflexivity.
  - repeat constructor.
  - repeat match goal with
           | |- Forall _ _ => constructor
           | |- _ /\ _ => split
           | |- hunk_start _ => split
           | |- content_line _ =>
               first [left; reflexivity|right; left; reflexivity|right; right; reflexivity]
           | |- is_Some _ => vm_compute; eauto
           | |- _ = _ => reflexivity
           end.
Defined.


(** ** parseFiles: every file section is read on its own *)

Section Sections.
Import Parser.

Variable β : state.

Lemma graft_update_file (f : loc) (upd upd' : FileDiff.t loc -> FileDiff.t loc) (τ : state) :
  (forall o, shift_file (length (hunk_objs β)) (upd o)
             = upd' (shift_file (length (hunk_objs β)) o)) ->
  update_file (length (file_objs β) + f) upd' (graft β τ) = graft β (update_file f upd τ).
Proof.
  intros H. unfold update_file, graft. state_simpl. f_equal.
  rewrite alter_app_r. f_equal. symmetry. apply list_fmap_alter, Forall_forall. auto.
Qed.

Lemma graft_update_hunk (h : loc) (upd : Hunk.t -> Hunk.t) (τ : state) :
  update_hunk (length (hunk_objs β) + h) upd (graft β τ) = graft β (update_hunk h upd τ).
Proof.
  unfold update_hunk, graft. state_simpl. now rewrite alter_app_r.
Qed.

Lemma graft_push_file (f : loc) (τ : state) :
  push_file (length (file_objs β) + f) (graft β τ) = graft β (push_file f τ).
Proof.
  unfold push_file, graft. state_simpl. f_equal. now rewrite fmap_app, app_assoc.
Qed.

Lemma graft_set_currentHunk (h : option loc) (τ : state) :
  set_currentHunk (Nat.add (length (hunk_objs β)) <$> h) (graft β τ)
  = graft β (set_currentHunk h τ).
Proof. reflexivity. Qed.

Lemma graft_new_file (o : FileDiff.t loc) (τ : state) :
  FileDiff.hunks o = [] ->
  new_file o (graft β τ) = graft β (new_file o τ).
Proof.
  intros Ho. unfold new_file, graft. state_simpl.
  rewrite fmap_app, app_assoc, length_app, length_fmap. f_equal. f_equal.
  destruct o. cbn in Ho. subst. reflexivity.
Qed.

Lemma graft_new_hunk (o : Hunk.t) (τ : state) :
  new_hunk o (graft β τ) = graft β (new_hunk o τ).
Proof.
  unfold new_hunk, graft. state_simpl. now rewrite app_assoc, length_app.
Qed.

Lemma graft_push_hunk (f h : loc) (τ : state) :
  update_file (length (file_objs β) + f) (FileDiff.push_hunk (length (hunk_objs β) + h))
    (graft β τ)
  = graft β (update_file f (FileDiff.push_hunk h) τ).
Proof.
  apply graft_update_file. intros o. unfold shift_file, FileDiff.with_hunks, FileDiff.push_hunk.
  cbn. now rewrite fmap_app.
Qed.

Lemma graft_file_header (line : string) (τ : state) :
  file_header line (graft β τ) = graft β (file_header line τ).
Proof.
  unfold file_header. destruct (startsWith line "diff --git "); [|reflexivity].
  change (currentFile (graft β τ)) with (Nat.add (length (file_objs β)) <$> currentFile τ).
  change (currentHunk (graft β τ)) with (Nat.add (length (hunk_objs β)) <$> currentHunk τ).
  destruct (currentFile τ) as [f|], (currentHunk τ) as [h|];
    cbn [fmap option_fmap option_map];
    rewrite ?graft_push_hunk;
    try change (set_currentHunk None (graft β ?x))
      with (set_currentHunk (Nat.add (length (hunk_objs β)) <$> None) (graft β x));
    rewrite ?graft_set_currentHunk, ?graft_push_file;
    destruct (regex_match re_file_header line); try reflexivity;
    now rewrite graft_new_file.
Qed.

Lemma graft_marker (hit : bool) (upd : FileDiff.t loc -> FileDiff.t loc) (τ : state) :
  (forall o, shift_file (length (hunk_objs β)) (upd o)
             = upd (shift_file (length (hunk_objs β)) o)) ->
  marker hit upd (graft β τ) = graft β (marker hit upd τ).
Proof.
  intros H. unfold marker. destruct hit; [|reflexivity].
  change (currentFile (graft β τ)) with (Nat.add (length (file_objs β)) <$> currentFile τ).
  destruct (currentFile τ) as [f|]; cbn [fmap option_fmap option_map]; [|reflexivity].
  now apply graft_update_file.
Qed.

Lemma graft_hunk_header (line : string) (τ : state) :
  hunk_header line (graft β τ) = graft β (hunk_header line τ).
Proof.
  unfold hunk_header, save_hunk. destruct (startsWith line "@@"); [|reflexivity].
  change (currentFile (graft β τ)) with (Nat.add (length (file_objs β)) <$> currentFile τ).
  change (currentHunk (graft β τ)) with (Nat.add (length (hunk_objs β)) <$> currentHunk τ).
  destruct (currentFile τ) as [f|], (currentHunk τ) as [h|];
    cbn [fmap option_fmap option_map]; try reflexivity;
    rewrite ?graft_push_hunk;
    destruct (regex_match re_hunk_header line); try reflexivity;
    now rewrite graft_new_hunk.
Qed.

Lemma graft_hunk_content (line : string) (τ : state) :
  hunk_content line (graft β τ) = graft β (hunk_content line τ).
Proof.
  unfold hunk_content.
  change (currentFile (graft β τ)) with (Nat.add (length (file_objs β)) <$> currentFile τ).
  change (currentHunk (graft β τ)) with (Nat.add (length (hunk_objs β)) <$> currentHunk τ).
  destruct (currentHunk τ) as [h|]; cbn [fmap option_fmap option_map]; [|reflexivity].
  destruct (currentFile τ) as [f|]; cbn [fmap option_fmap option_map]; [|reflexivity].
  assert (Ef : file_objs (graft β τ) !! (length (file_objs β) + f)
               = shift_file (length (hunk_objs β)) <$> file_objs τ !! f).
  { unfold graft. state_simpl. rewrite lookup_app_r by lia.
    replace (length (file_objs β) + f - length (file_objs β)) with f by lia.
    apply list_lookup_fmap. }
  assert (Eh : hunk_objs (graft β τ) !! (length (hunk_objs β) + h) = hunk_objs τ !! h).
  { unfold graft. state_simpl. rewrite lookup_app_r by lia. f_equal. lia. }
  rewrite Ef, Eh.
  destruct (file_objs τ !! f) as [fo|]; cbn [fmap option_fmap option_map]; [|reflexivity].
  destruct (hunk_objs τ !! h) as [ho|]; [|reflexivity].
  change (FileDiff.isBinary (shift_file _ fo)) with (FileDiff.isBinary fo).
  destruct (negb (FileDiff.isBinary fo)); [|reflexivity].
  repeat match goal with
         | |- context [if ?b then _ else _] => destruct b
         end;
    rewrite ?graft_update_hunk; try reflexivity;
    now apply graft_update_file.
Qed.

Lemma graft_step (line : string) (τ : state) :
  step (graft β τ) line = graft β (step τ line).
Proof.
  unfold step, new_file_mode, deleted_file_mode, rename_from, binary_files.
  rewrite graft_file_header.
  rewrite !graft_marker by reflexivity.
  now rewrite graft_hunk_header, graft_hunk_content.
Qed.

Lemma graft_run (lines : list string) (τ : state) :
  fold_left step lines (graft β τ) = graft β (fold_left step lines τ).
Proof.
  revert τ. induction lines as [|l lines IH]; intros τ; [reflexivity|].
  cbn [fold_left]. now rewrite graft_step, IH.
Qed.

Lemma graft_save_last (τ : state) : save_last (graft β τ) = graft β (save_last τ).
Proof.
  unfold save_last, save_hunk.
  change (currentFile (graft β τ)) with (Nat.add (length (file_objs β)) <$> currentFile τ).
  change (currentHunk (graft β τ)) with (Nat.add (length (hunk_objs β)) <$> currentHunk τ).
  destruct (currentFile τ) as [f|], (currentHunk τ) as [h|];
    cbn [fmap option_fmap option_map]; try reflexivity;
    now rewrite ?graft_push_hunk, graft_push_file.
Qed.

Lemma read_graft (τ : state) :
  closed β -> read_files (graft β τ) = (read_files β ++ read_files τ)%list.
Proof.
  intros (_ & _ & Hfs & Hos). unfold read_files.
  change (files (graft β τ))
    with (files β ++ (Nat.add (length (file_objs β)) <$> files τ))%list.
  rewrite fmap_app. f_equal.
  - apply Forall_fmap_ext. eapply Forall_impl; [exact Hfs|].
    intros f Hf. cbv beta in Hf. unfold read_file.
    assert (E : file_objs (graft β τ) !! f = file_objs β !! f).
    { unfold graft. state_simpl. now apply lookup_app_l. }
    rewrite E. destruct (file_objs β !! f) as [o|] eqn:Ho; [|reflexivity].
    cbn [default]. f_equal. apply Forall_fmap_ext.
    rewrite Forall_forall in Hos. apply list_elem_of_lookup_2 in Ho.
    eapply Forall_impl; [exact (Hos o Ho)|].
    intros h Hh. cbv beta in Hh. unfold read_hunk, graft. state_simpl.
    now rewrite lookup_app_l.
  - rewrite <- list_fmap_compose. apply list_fmap_ext. intros _ f _. cbn [compose].
    unfold read_file.
    assert (E : file_objs (graft β τ) !! (length (file_objs β) + f)
                = shift_file (length (hunk_objs β)) <$> file_objs τ !! f).
    { unfold graft. state_simpl. rewrite lookup_app_r by lia.
      replace (length (file_objs β) + f - length (file_objs β)) with f by lia.
      apply list_lookup_fmap. }
    rewrite E. destruct (file_objs τ !! f) as [o|]; cbn [fmap option_fmap option_map default];
      [|reflexivity].
    unfold shift_file, FileDiff.with_hunks. cbn. f_equal.
    rewrite <- list_fmap_compose. apply list_fmap_ext. intros _ h _. cbn [compose].
    unfold read_hunk, graft. state_simpl. rewrite lookup_app_r by lia.
    do 2 f_equal. lia.
Qed.

End Sections.

Section SectionsCompose.
Import Parser.

(** A line that starts a file, read at any point of a run, starts a run
    of its own after what was read so far. *)
Lemma step_header_graft (header : string) (σ : state) :
  cursor_ok σ -> valid_header header ->
  step σ header = graft (save_last σ) (step initial header).
Proof.
  intros Hc [Hd [m Hm]]. rewrite (step_section_header header m Hd Hm).
  assert (Hbin : bool_decide (is_Some (regex_match re_binary header)) = false).
  { apply bool_decide_eq_false. intros H. apply binary_line_start in H.
    now rewrite (startsWith_excludes header "diff --git " "Binary files ") in H. }
  unfold step.
  unfold new_file_mode, deleted_file_mode, rename_from, binary_files, marker.
  rewrite Hbin.
  rewrite (startsWith_excludes header "diff --git " "new file mode"),
    (startsWith_excludes header "diff --git " "deleted file mode"),
    (startsWith_excludes header "diff --git " "rename from") by (reflexivity || exact Hd).
  rewrite hunk_header_other
    by (apply (startsWith_excludes header "diff --git "); (reflexivity || exact Hd)).
  unfold file_header, save_last, save_hunk, graft, section_state. rewrite Hd, Hm.
  destruct (currentFile σ) as [f|] eqn:Hf.
  - destruct (currentHunk σ) as [h|] eqn:Hh;
      (rewrite hunk_content_no_hunk; [|state_simpl; try exact Hh; reflexivity]);
      unfold new_file, push_file, set_currentHunk, update_file; state_simpl;
      rewrite ?Hh; f_equal; cbn; rewrite ?app_nil_r, ?Nat.add_0_r; reflexivity.
  - rewrite hunk_content_no_hunk by (state_simpl; now apply Hc).
    unfold new_file. state_simpl. rewrite (Hc Hf).
    f_equal; cbn; rewrite ?app_nil_r, ?Nat.add_0_r; reflexivity.
Qed.

End SectionsCompose.

(** X9. Every file section is read on its own: at a line that starts a
    file, the result is that of the lines before it, followed by that of
    the lines from it on. *)
Lemma parseFiles_app (pre rest : list string) (header : string) :
  valid_header header ->
  parseFiles (pre ++ header :: rest)%list
  = (parseFiles pre ++ parseFiles (header :: rest))%list.
Proof.
  intros Hv. unfold parseFiles, run_lines.
  rewrite fold_left_app. cbn [fold_left].
  rewrite step_header_graft; [|apply run_cursor_ok; intros _; reflexivity|exact Hv].
  rewrite graft_run, graft_save_last.
  apply read_graft, (closed_run_lines pre).
Qed.

Lemma parseFiles_app_witness :
  parseFiles (["diff --git a/f b/f"; "@@ -1 +1 @@"; "-x"; "+y"]
                ++ "diff --git a/g b/g" :: ["@@ -3,2 +3 @@"; "-z"])%list
  = (parseFiles ["diff --git a/f b/f"; "@@ -1 +1 @@"; "-x"; "+y"]
       ++ parseFiles ("diff --git a/g b/g" :: ["@@ -3,2 +3 @@"; "-z"]))%list.
Proof.
  apply (parseFiles_app ["diff --git a/f b/f"; "@@ -1 +1 @@"; "-x"; "+y"]
           ["@@ -3,2 +3 @@"; "-z"] "diff --git a/g b/g").
  split; [reflexivity|]. vm_compute. eauto.
Defined.


(** ** The paths of a file header *)

Lemma search_here (multiline : bool) (r : regex) (prev : option ascii) (s : string)
    (m : MatchResult) :
  match_here multiline r prev s = Some m -> search multiline r prev s = Some m.
Proof. intros H. destruct s; cbn [search]; now rewrite H. Qed.

(** A lazy quantifier without upper bound stops at the first position
    where the rest of the pattern matches: the end of a run of characters
    at each of which the rest of the pattern fails. *)
Lemma rep_lazy_run (cls blocked : ascii -> bool) (run rest : string)
    (k : option ascii -> string -> option MatchResult) (m : MatchResult) :
  all_in cls run = true ->
  all_in blocked run = true ->
  (forall p c s', blocked c = true -> k p (String c s') = None) ->
  forall lo prev,
    lo <= String.length run ->
    k (last_char prev run) rest = Some m ->
    rep cls false lo None prev (run ++ rest) k = Some m.
Proof.
  intros Hall Hblocked Hk. induction run as [|c run IH]; intros lo prev Hlo Hm.
  - cbn in Hlo. assert (lo = 0) as -> by lia. cbn in Hm.
    change ("" ++ rest) with rest. destruct rest as [|c rest]; cbn; [exact Hm|].
    rewrite Hm. now destruct (cls c).
  - cbn in Hall, Hblocked.
    apply andb_true_iff in Hall as [Hc Hall]. apply andb_true_iff in Hblocked as [Hb Hblocked].
    rewrite append_cons. cbn [rep]. rewrite Hc.
    cbn [andb may_repeat fmap option_fmap option_map].
    assert (E : match lo with O => k prev (String c (run ++ rest)) | S _ => None end = None)
      by (destruct lo; [now apply Hk|reflexivity]).
    rewrite E. apply (IH Hall Hblocked); [cbn in Hlo; lia|exact Hm].
Qed.

Lemma ends_line_dot (rest : string) :
  ends_line rest -> match rest with "" => True | String c _ => dot c = false end.
Proof. destruct rest as [|c rest]; [auto|]. unfold dot. cbn. now intros ->. Qed.

Lemma length_pos (s : string) : s <> "" -> 1 <= String.length s.
Proof. destruct s; [contradiction|cbn; lia]. Qed.

Lemma match_file_header (p q rest : string) :
  p <> "" -> q <> "" ->
  all_in dot p = true -> lacks " " p = true -> all_in dot q = true -> ends_line rest ->
  regex_match re_file_header ("diff --git a/" ++ p ++ " b/" ++ q ++ rest)
  = Some ["diff --git a/" ++ p ++ " b/" ++ q; p; q].
Proof.
  intros Hp Hq Dp Sp Dq Hrest. apply search_here.
  unfold match_here, re_file_header. cbn [run].
  rewrite prefix_app.
  rewrite (substring_from_app "diff --git a/").
  unfold plus_lazy, plus. cbn [run].
  rewrite (rep_lazy_run dot (not_char " ") p (" b/" ++ q ++ rest) _
             ["diff --git a/" ++ p ++ " b/" ++ q; p; q]); try reflexivity; try assumption.
  - now rewrite lacks_not_char.
  - intros p' c s' Hc. unfold not_char in Hc.
    rewrite prefix_cons, Ascii.eqb_sym. apply negb_true_iff in Hc. now rewrite Hc.
  - now apply length_pos.
  - rewrite prefix_app, (substring_from_app " b/"). cbn [run].
    rewrite (rep_greedy_run dot q rest _ ["diff --git a/" ++ p ++ " b/" ++ q; p; q]);
      try reflexivity; try assumption.
    + now apply ends_line_dot.
    + now apply length_pos.
    + rewrite !consumed_app. f_equal. f_equal.
      rewrite <- (consumed_app ("diff --git a/" ++ p ++ " b/" ++ q) rest) at 1.
      f_equal. now rewrite !append_assoc.
Qed.

(** X10. The file of a header line alone: the two paths are read from the
    line; a carriage return at the end of the line belongs to no path. *)
Lemma parseFiles_header_paths (p q rest : string) :
  p <> "" -> q <> "" ->
  all_in dot p = true -> lacks " " p = true -> all_in dot q = true -> ends_line rest ->
  parseFiles ["diff --git a/" ++ p ++ " b/" ++ q ++ rest]
  = [FileDiff.mk p q FileDiff.modified [] 0 0 false].
Proof.
  intros Hp Hq Dp Sp Dq Hrest. unfold parseFiles, run_lines. cbn [fold_left].
  rewrite (step_section_header ("diff --git a/" ++ p ++ " b/" ++ q ++ rest) _ eq_refl
             (match_file_header p q rest Hp Hq Dp Sp Dq Hrest)).
  apply read_section.
Qed.

Lemma parseFiles_header_paths_witness :
  parseFiles ["diff --git a/" ++ "src/app.js" ++ " b/" ++ "src/my app.js" ++ String "013" ""]
  = [FileDiff.mk "src/app.js" "src/my app.js" FileDiff.modified [] 0 0 false].
Proof.
  apply (parseFiles_header_paths "src/app.js" "src/my app.js" (String "013" ""));
    (discriminate || reflexivity).
Defined.

(** ** The numbers of a hunk header *)

Lemma rep_bound_zero (cls : ascii -> bool) (greedy : bool) (prev : option ascii) (s : string)
    (k : option ascii -> string -> option MatchResult) :
  rep cls greedy 0 (Some 0) prev s k = k prev s.
Proof. destruct s as [|c s]; [reflexivity|]. cbn. now rewrite andb_false_r. Qed.

Lemma consumed_self (s : string) : consumed s s = "".
Proof. unfold consumed. rewrite Nat.sub_diag. now destruct s. Qed.

(** The optional comma and the optional digits of a count, followed by a
    space. *)
Lemma run_count (R : regex) (o : option string) (t : string) (prev : option ascii)
    (caps : list string) (k : cont) (m : MatchResult) :
  match o with Some b => all_in is_digit b = true | None => True end ->
  run false R (last_char prev (count_text o)) (String " " t) (caps ++ [default "" o])%list k
  = Some m ->
  run false (opt (char ",") · Group (star is_digit) · R)%re prev
    (count_text o ++ String " " t) caps k
  = Some m.
Proof.
  intros Ho Hm. unfold opt, star. cbn [run].
  destruct o as [b|]; cbn [count_text default] in *.
  - change (("," ++ b) ++ String " " t) with (String "," (b ++ String " " t)).
    cbn [rep]. change (char "," ",") with true.
    cbn [andb may_repeat pred fmap option_fmap option_map].
    rewrite rep_bound_zero.
    rewrite (rep_greedy_run is_digit b (String " " t) _ m); [reflexivity|exact Ho|reflexivity|lia|].
    rewrite consumed_app. exact Hm.
  - change ("" ++ String " " t) with (String " " t). cbn [rep].
    change (char "," " ") with false. change (is_digit " ") with false. cbn [andb].
    rewrite consumed_self. exact Hm.
Qed.

Lemma run_lit (R : regex) (l s : string) (prev : option ascii) (caps : list string) (k : cont) :
  run false (Lit l · R)%re prev (l ++ s) caps k = run false R (last_char prev l) s caps k.
Proof. cbn [run]. now rewrite prefix_app, substring_from_app. Qed.

Lemma run_digits (R : regex) (a tail : string) (prev : option ascii) (caps : list string)
    (k : cont) (m : MatchResult) :
  a <> "" -> all_in is_digit a = true ->
  match tail with "" => True | String c _ => is_digit c = false end ->
  run false R (last_char prev a) tail (caps ++ [a])%list k = Some m ->
  run false (Group (plus is_digit) · R)%re prev (a ++ tail) caps k = Some m.
Proof.
  intros Ha Da Ht Hm. unfold plus. cbn [run].
  rewrite (rep_greedy_run is_digit a tail _ m); [reflexivity|exact Da|exact Ht| |].
  - now apply length_pos.
  - rewrite consumed_app. exact Hm.
Qed.

Lemma count_tail_not_digit (o : option string) (t : string) :
  match count_text o ++ String " " t with
  | "" => True
  | String c _ => is_digit c = false
  end.
Proof. destruct o; reflexivity. Qed.

Lemma match_hunk_header (a c h rest : string) (ob od : option string) :
  a <> "" -> all_in is_digit a = true ->
  c <> "" -> all_in is_digit c = true ->
  match ob with Some b => all_in is_digit b = true | None => True end ->
  match od with Some d => all_in is_digit d = true | None => True end ->
  all_in dot h = true -> ends_line rest ->
  regex_match re_hunk_header
    ("@@ -" ++ a ++ count_text ob ++ " +" ++ c ++ count_text od ++ " @@" ++ h ++ rest)
  = Some ["@@ -" ++ a ++ count_text ob ++ " +" ++ c ++ count_text od ++ " @@" ++ h;
          a; default "" ob; c; default "" od; h].
Proof.
  intros Ha Da Hc Dc Hb Hd Dh Hrest. apply search_here.
  unfold match_here, re_hunk_header.
  rewrite run_lit.
  apply run_digits; [exact Ha|exact Da|apply (count_tail_not_digit ob)|].
  apply (run_count _ ob); [exact Hb|].
  change (String " " (String "+" ?x)) with (" +" ++ x).
  rewrite run_lit.
  apply run_digits; [exact Hc|exact Dc|apply (count_tail_not_digit od)|].
  apply (run_count _ od); [exact Hd|].
  change (String " " (String "@" (String "@" ?x))) with (" @@" ++ x).
  rewrite run_lit. unfold star. cbn [run].
  rewrite (rep_greedy_run dot h rest _
             ["@@ -" ++ a ++ count_text ob ++ " +" ++ c ++ count_text od ++ " @@" ++ h;
              a; default "" ob; c; default "" od; h]);
    [reflexivity|exact Dh|now apply ends_line_dot|lia|].
  rewrite consumed_app. cbn [app]. f_equal. f_equal.
  rewrite <- (consumed_app
                ("@@ -" ++ a ++ count_text ob ++ " +" ++ c ++ count_text od ++ " @@" ++ h)
                rest) at 1.
  f_equal. now rewrite !append_assoc.
Qed.

(** The Numbers that [parseInt] gives: the integer itself below 2^53, the
    nearest double with ties to even from there on, [Infinity] past the
    largest double, and [NaN] where no digit leads. *)
Lemma parseInt_small :
  parseInt "0" = 0%float /\ parseInt "007" = 7%float /\ parseInt "12" = 12%float
  /\ parseInt "9007199254740991" = 9007199254740991%float
  /\ parseInt "9007199254740992" = 9007199254740992%float.
Proof. repeat split; vm_compute; reflexivity. Qed.

Lemma parseInt_rounds :
  parseInt "9007199254740993" = 9007199254740992%float
  /\ parseInt "9007199254740995" = 9007199254740996%float
  /\ parseInt "99999999999999999999" = 100000000000000000000%float.
Proof. repeat split; vm_compute; reflexivity. Qed.

Lemma parseInt_no_digit : parseInt "" = nan /\ parseInt "x1" = nan.
Proof. split; reflexivity. Qed.

Lemma parseInt_huge :
  parseInt (String.concat "" (repeat "9999999999" 31)) = infinity.
Proof. vm_compute. reflexivity. Qed.

(** X11. The hunk of a hunk header [@@ -A,B +C,D @@H] that follows the
    header of a file. A and C are strings of digits that are not empty;
    each of the counts [,B] and [,D] is left out, or is a comma before a
    string of digits that may be empty; H holds no line terminator; and
    the line ends after H or goes on with a line terminator. The two
    starts are [parseInt] of A and of C, and a count is [parseInt] of its
    digits, or 1 when it is left out or has no digit (a count [0] stays
    0). These are Numbers, that is doubles: from 2^53 on [parseInt] gives
    the double nearest to the integer written, which need not be that
    integer. The heading is H trimmed, and the hunk has no lines. *)
Lemma parseFiles_hunk_numbers (header : string) (m : MatchResult) (a c h rest : string)
    (ob od : option string) :
  startsWith header "diff --git " = true ->
  regex_match re_file_header header = Some m ->
  a <> "" -> all_in is_digit a = true ->
  c <> "" -> all_in is_digit c = true ->
  match ob with Some b => all_in is_digit b = true | None => True end ->
  match od with Some d => all_in is_digit d = true | None => True end ->
  all_in dot h = true -> ends_line rest ->
  parseFiles
    [header;
     "@@ -" ++ a ++ count_text ob ++ " +" ++ c ++ count_text od ++ " @@" ++ h ++ rest]
  = [FileDiff.mk (group m 1) (group m 2) FileDiff.modified
       [Hunk.mk (parseInt a) (count_of ob) (parseInt c) (count_of od) (trim h) []]
       0 0 false].
Proof.
  intros Hd Hm Ha Da Hc Dc Hb Hd' Dh Hrest.
  pose proof (match_hunk_header a c h rest ob od Ha Da Hc Dc Hb Hd' Dh Hrest) as Hh.
  unfold parseFiles, run_lines. cbn [fold_left].
  rewrite (step_section_header header m Hd Hm).
  rewrite step_hunk_start by (split; [reflexivity|now rewrite Hh]).
  rewrite read_section. unfold section_file, hunk_of. rewrite Hh.
  cbn [app default group nth drop_leading_context fmap list_fmap
       FileDiff.oldPath FileDiff.newPath FileDiff.type].
  do 2 f_equal. f_equal. f_equal; destruct ob, od; reflexivity.
Qed.

Lemma parseFiles_hunk_numbers_witness :
  parseFiles
    ["diff --git a/f b/f";
     "@@ -" ++ "12" ++ count_text (Some "0") ++ " +" ++ "13" ++ count_text None ++ " @@"
       ++ " int main() " ++ String "013" ""]
  = [FileDiff.mk (group ["diff --git a/f b/f"; "f"; "f"] 1)
       (group ["diff --git a/f b/f"; "f"; "f"] 2) FileDiff.modified
       [Hunk.mk (parseInt "12") (count_of (Some "0")) (parseInt "13") (count_of None)
          (trim " int main() ") []]
       0 0 false].
Proof.
  apply (parseFiles_hunk_numbers "diff --git a/f b/f" ["diff --git a/f b/f"; "f"; "f"]
           "12" "13" " int main() " (String "013" "") (Some "0") None);
    solve [reflexivity | discriminate | vm_compute; reflexivity | exact I].
Defined.


(** ** isValidPatch and parse *)

Lemma text_lines_split (s : string) :
  text_lines s = concat (text_lines <$> split LF s).
Proof.
  induction s as [|c s IH]; [reflexivity|].
  cbn [split text_lines].
  pose proof (split_not_nil LF s) as Hne.
  destruct (Ascii.eqb_spec c LF) as [->|Hc].
  - change (is_line_terminator LF) with true. cbn [fmap list_fmap concat text_lines app].
    now rewrite IH.
  - destruct (split LF s) as [|h t]; [contradiction|].
    cbn [fmap list_fmap concat text_lines] in *.
    destruct (is_line_terminator c).
    + cbn [app]. now rewrite IH.
    + rewrite IH. destruct (text_lines_cons h) as (lh & resth & E). rewrite E. reflexivity.
Qed.

Lemma prefix_trans (p q s : string) :
  String.prefix p q = true -> String.prefix q s = true -> String.prefix p s = true.
Proof.
  revert q s. induction p as [|a p IH]; intros q s Hpq Hqs; [apply prefix_nil_l|].
  destruct q as [|b q]; [discriminate Hpq|]. destruct s as [|c s]; [discriminate Hqs|].
  rewrite prefix_cons in *.
  apply andb_true_iff in Hpq as [Hab Hpq]. apply andb_true_iff in Hqs as [Hbc Hqs].
  apply Ascii.eqb_eq in Hab as ->. rewrite Hbc. cbn. now apply (IH q).
Qed.

(** A line of the text as [split] cuts it starts like a line of the text
    as the [m] flag delimits them. *)
Lemma split_line_start (p l s : string) :
  one_line p = true -> l ∈ split LF s -> String.prefix p l = true ->
  exists line, line ∈ text_lines s /\ String.prefix p line = true.
Proof.
  intros Hp Hl Hpl. exists (hd "" (text_lines l)). split.
  - rewrite (text_lines_split s). apply list_elem_of_In, in_concat.
    exists (text_lines l). split.
    + apply list_elem_of_In, list_elem_of_fmap. eauto.
    + destruct (text_lines_cons l) as (first & rest & E). rewrite E. now left.
  - now rewrite <- prefix_first_line.
Qed.

Lemma parseFiles_has_header (lines : list string) :
  parseFiles lines <> [] -> Exists valid_header lines.
Proof.
  induction lines as [|l lines IH]; [intros H; now contradiction H|].
  intros H.
  destruct (startsWith l "diff --git ") eqn:Hd;
    [destruct (regex_match re_file_header l) as [m|] eqn:Hm|].
  - left. split; [exact Hd|]. now rewrite Hm.
  - right. apply IH. intros E. apply H. rewrite <- E.
    unfold parseFiles, run_lines. cbn [fold_left]. rewrite step_idle; auto.
    intros [_ [x Hx]]. congruence.
  - right. apply IH. intros E. apply H. rewrite <- E.
    unfold parseFiles, run_lines. cbn [fold_left]. rewrite step_idle; auto.
    intros [Hd' _]. congruence.
Qed.

(** X18. The check that comes before [parse] in [loadPatchFromText] loses no
    file: an input for which [parse] returns a file is accepted by
    [isValidPatch]. *)
Lemma parse_files_pass_isValidPatch (v : JsValue) (r : ParsedPatch.t) :
  parse v = Return r -> ParsedPatch.files r <> [] -> isValidPatch v = true.
Proof.
  unfold parse. destruct (negb (truthy v) || negb (is_string v)) eqn:G; [discriminate|].
  intros [= <-]. cbn [ParsedPatch.files]. intros Hne.
  destruct v as [| | | | |s| |];
    try (cbn [is_string negb] in G; rewrite orb_true_r in G; discriminate G).
  cbn [string_of] in Hne.
  apply parseFiles_has_header, Exists_exists in Hne as (l & Hl & Hd & _).
  apply isValidPatch_lines.
  destruct (split_line_start "diff --git" l s eq_refl Hl) as (line & Hin & Hp).
  { unfold startsWith in Hd. now apply (prefix_trans _ "diff --git "). }
  exists line, "diff --git". split; [exact Hin|]. split; [|exact Hp].
  apply (list_elem_of_lookup_2 _ 0). reflexivity.
Qed.

Lemma parse_files_pass_isValidPatch_witness :
  isValidPatch (JString "x
diff --git a/f b/f") = true.
Proof.
  remember (parse (JString "x
diff --git a/f b/f")) as c eqn:E.
  vm_compute in E. destruct c as [r|e]; [|discriminate E].
  apply (parse_files_pass_isValidPatch _ r); [symmetry; exact E|].
  injection E as ->. discriminate.
Defined.


(** ** extractMetadata *)

Lemma rep_exact (cls : ascii -> bool) (h rest : string)
    (k : option ascii -> string -> option MatchResult) (m : MatchResult) :
  all_in cls h = true ->
  forall prev,
    k (last_char prev h) rest = Some m ->
    rep cls true (String.length h) (Some (String.length h)) prev (h ++ rest) k = Some m.
Proof.
  intros Hall. induction h as [|c h IH]; intros prev Hm.
  - change ("" ++ rest) with rest. cbn [String.length]. now rewrite rep_bound_zero.
  - cbn in Hall. apply andb_true_iff in Hall as [Hc Hall].
    rewrite append_cons. cbn [String.length rep]. rewrite Hc.
    cbn [andb may_repeat pred fmap option_fmap option_map].
    now rewrite (IH Hall (Some c) Hm).
Qed.

(** A lazy quantifier without upper bound stops at the end of a run when
    the rest of the pattern fails at every earlier position. *)
Lemma rep_lazy_stop (cls : ascii -> bool) (run rest : string)
    (k : option ascii -> string -> option MatchResult) (m : MatchResult) :
  all_in cls run = true ->
  (forall a c b p, run = a ++ String c b -> k p (String c (b ++ rest)) = None) ->
  forall lo prev,
    lo <= String.length run ->
    k (last_char prev run) rest = Some m ->
    rep cls false lo None prev (run ++ rest) k = Some m.
Proof.
  induction run as [|c run IH]; intros Hall Hk lo prev Hlo Hm.
  - cbn in Hlo. assert (lo = 0) as -> by lia. cbn in Hm.
    change ("" ++ rest) with rest. destruct rest as [|c rest]; cbn; [exact Hm|].
    rewrite Hm. now destruct (cls c).
  - cbn in Hall. apply andb_true_iff in Hall as [Hc Hall].
    rewrite append_cons. cbn [rep]. rewrite Hc.
    cbn [andb may_repeat fmap option_fmap option_map].
    assert (E : match lo with O => k prev (String c (run ++ rest)) | S _ => None end = None)
      by (destruct lo; [apply (Hk "" c run); reflexivity|reflexivity]).
    rewrite E. apply IH; [exact Hall| |cbn in Hlo; lia|exact Hm].
    intros a c' b p ->. apply (Hk (String c a) c' b). reflexivity.
Qed.

Lemma match_commit_hash (h t : string) :
  String.length h = 40 -> all_in is_hex_lower h = true ->
  regex_match re_commit_hash ("From " ++ h ++ t) = Some ["From " ++ h; h].
Proof.
  intros Hlen Hhex. apply search_here. unfold match_here, re_commit_hash.
  cbn [run at_bol]. rewrite prefix_app, (substring_from_app "From ").
  unfold times. cbn [run]. rewrite <- Hlen.
  rewrite (rep_exact is_hex_lower h t _ ["From " ++ h; h]); [reflexivity|exact Hhex|].
  rewrite consumed_app. cbn [app]. do 2 f_equal.
  now rewrite <- (consumed_app ("From " ++ h) t) at 1.
Qed.

Lemma lacks_cons_false (x c : ascii) (s : string) :
  lacks x (String c s) = true -> Ascii.eqb x c = false /\ lacks x s = true.
Proof.
  cbn. intros H. apply andb_true_iff in H as [H1 H2]. split; [|exact H2].
  apply negb_true_iff in H1. now rewrite Ascii.eqb_sym.
Qed.

Lemma match_author (n e t : string) :
  n <> "" -> all_in dot n = true -> lacks "<" n = true ->
  e <> "" -> all_in dot e = true -> lacks ">" e = true ->
  regex_match re_author ("From: " ++ n ++ " <" ++ e ++ ">" ++ t)
  = Some ["From: " ++ n ++ " <" ++ e ++ ">"; n; e].
Proof.
  intros Hn Dn Ln He De Le. apply search_here. unfold match_here, re_author.
  cbn [run at_bol]. rewrite prefix_app, (substring_from_app "From: ").
  unfold plus_lazy. cbn [run].
  rewrite (rep_lazy_stop dot n (" <" ++ e ++ ">" ++ t) _
             ["From: " ++ n ++ " <" ++ e ++ ">"; n; e]); try reflexivity; try assumption.
  - intros a c b p ->. rewrite lacks_app in Ln.
    apply andb_true_iff in Ln as [_ Ln]. apply lacks_cons_false in Ln as [_ Lb].
    rewrite prefix_cons. destruct b as [|c2 b].
    + change (String.prefix "<" ("" ++ " <" ++ ?x)) with false.
      now rewrite andb_false_r.
    + rewrite append_cons, prefix_cons. apply lacks_cons_false in Lb as [-> _].
      now rewrite andb_false_r.
  - now apply length_pos.
  - rewrite prefix_app, (substring_from_app " <"). cbn [run].
    rewrite (rep_lazy_run dot (not_char ">") e (">" ++ t) _
               ["From: " ++ n ++ " <" ++ e ++ ">"; n; e]); try reflexivity; try assumption.
    + now rewrite lacks_not_char.
    + intros p c s' Hc. unfold not_char in Hc. apply negb_true_iff in Hc.
      rewrite prefix_cons, Ascii.eqb_sym, Hc. reflexivity.
    + now apply length_pos.
    + rewrite prefix_app. rewrite !consumed_app. cbn [app]. do 2 f_equal.
      rewrite (substring_from_app ">").
      rewrite <- (consumed_app ("From: " ++ n ++ " <" ++ e ++ ">") t) at 1.
      f_equal. now rewrite !append_assoc.
Qed.

Lemma refs_line_other (l : string) :
  match l with
  | "" => True
  | String c _ => is_white_space c = false /\ c <> "("%char
  end ->
  regex_test false re_refs_line l = false.
Proof.
  intros H. unfold regex_test. apply bool_decide_eq_false. intros [m Hm].
  unfold re_refs_line in Hm. destruct l as [|c l].
  - cbn in Hm. discriminate Hm.
  - destruct H as [Hws Hc]. cbn [search] in Hm.
    rewrite search_bol_after_start in Hm.
    unfold match_here, star in Hm. cbn [run at_bol rep] in Hm.
    rewrite Hws in Hm. cbn [andb] in Hm. rewrite prefix_cons in Hm.
    apply Ascii.eqb_neq in Hc. rewrite Ascii.eqb_sym, Hc in Hm. discriminate Hm.
Qed.

Lemma trimEnd_idempotent (s : string) : trimEnd (trimEnd s) = trimEnd s.
Proof.
  induction s as [|c s IH]; [reflexivity|]. cbn [trimEnd].
  destruct (trimEnd s) as [|c' t] eqn:E.
  - destruct (is_white_space c) eqn:Hc; [reflexivity|]. cbn. now rewrite Hc.
  - cbn [trimEnd]. cbn [trimEnd] in IH. rewrite IH. reflexivity.
Qed.

Lemma trimStart_head (s : string) :
  match trimStart s with "" => True | String c _ => is_white_space c = false end.
Proof.
  induction s as [|c s IH]; [exact I|]. cbn. destruct (is_white_space c) eqn:Hc; [exact IH|exact Hc].
Qed.

Lemma trimStart_trimEnd (s : string) :
  match s with "" => True | String c _ => is_white_space c = false end ->
  trimStart (trimEnd s) = trimEnd s.
Proof.
  destruct s as [|c s]; [reflexivity|]. intros Hc. cbn [trimEnd].
  destruct (trimEnd s); rewrite ?Hc; cbn [trimStart]; now rewrite Hc.
Qed.

Lemma trim_idempotent (s : string) : trim (trim s) = trim s.
Proof.
  unfold trim. rewrite trimStart_trimEnd by apply trimStart_head. apply trimEnd_idempotent.
Qed.

Section MetaProofs.
Import Meta.

Lemma meta_step_quiet (σ : state) (l : string) :
  inMessage σ = false -> meta_quiet l -> meta_step σ l = σ.
Proof.
  intros Hin (H1 & H2 & H3 & H4 & H5).
  unfold meta_step, commit_hash, author, date, refs, continue_message.
  now rewrite H1, H2, H3, H4, Hin, H5.
Qed.

Lemma run_meta_quiet (post : list string) (σ : state) :
  inMessage σ = false -> Forall meta_quiet post -> fold_left meta_step post σ = σ.
Proof.
  intros Hin H. induction H as [|l post Hl _ IH]; [reflexivity|].
  cbn [fold_left]. now rewrite meta_step_quiet.
Qed.

End MetaProofs.

(** X19. The header of a mail that [git format-patch] writes: a line
    [From ] with the hash, a line [From: ] with the name, a space and the
    address between [<] and [>], a line [Date: ], a line [Subject: ] and
    an empty line. The hash is 40 characters, each a digit or a letter
    from [a] to [f] in lower case; the name and the address are not empty
    and hold no line terminator, the name holds no [<] and the address no
    [>]; any text may follow the hash, and any text the [>]. The lines
    after the empty line start with none of [From ], [From: ], [Date: ]
    and [Subject: ], and none of them is a parenthesised list (white
    space or none, an opening parenthesis, any characters but line
    terminators, a closing parenthesis at the end). Then the commit hash,
    the author, the address, the trimmed date and the trimmed subject are
    those of the four lines, and there are no refs. *)
Lemma extractMetadata_format_patch (h t n e t' d s : string) (post : list string) :
  String.length h = 40 -> all_in is_hex_lower h = true ->
  n <> "" -> all_in dot n = true -> lacks "<" n = true ->
  e <> "" -> all_in dot e = true -> lacks ">" e = true ->
  Forall meta_quiet post ->
  extractMetadata
    (("From " ++ h ++ t) :: ("From: " ++ n ++ " <" ++ e ++ ">" ++ t') :: ("Date: " ++ d)
       :: ("Subject: " ++ s) :: "" :: post)
  = CommitMetadata.mk (Some h) (Some n) (Some e) (Some (trim d)) (trim s) [].
Proof.
  intros Hlen Hhex Hn Dn Ln He De Le Hpost.
  unfold extractMetadata. cbn [take fold_left].
  assert (S1 : meta_step Meta.initial ("From " ++ h ++ t)
               = Meta.update (Meta.set_commitHash h) Meta.initial).
  { unfold meta_step, commit_hash, author, date, refs, continue_message.
    change (startsWith ("From " ++ h ++ t) "From ")
      with (String.prefix "From " ("From " ++ h ++ t)).
    rewrite (prefix_app "From " (h ++ t)).
    change (startsWith ("From " ++ h ++ t) "From: ") with false.
    change (startsWith ("From " ++ h ++ t) "Date: ") with false.
    change (startsWith ("From " ++ h ++ t) "Subject: ") with false.
    rewrite (match_commit_hash h t Hlen Hhex). cbn [Meta.inMessage Meta.update Meta.initial].
    rewrite refs_line_other; [reflexivity|]. split; [reflexivity|discriminate]. }
  rewrite S1. clear S1.
  set (σ1 := Meta.update (Meta.set_commitHash h) Meta.initial).
  assert (S2 : meta_step σ1 ("From: " ++ n ++ " <" ++ e ++ ">" ++ t')
               = Meta.update (fun md => Meta.set_authorEmail e (Meta.set_author n md)) σ1).
  { unfold meta_step, commit_hash, author, date, refs, continue_message.
    change (startsWith ("From: " ++ n ++ " <" ++ e ++ ">" ++ t') "From ") with false.
    change (startsWith ("From: " ++ n ++ " <" ++ e ++ ">" ++ t') "From: ")
      with (String.prefix "From: " ("From: " ++ n ++ " <" ++ e ++ ">" ++ t')).
    rewrite (prefix_app "From: ").
    change (startsWith ("From: " ++ n ++ " <" ++ e ++ ">" ++ t') "Date: ") with false.
    change (startsWith ("From: " ++ n ++ " <" ++ e ++ ">" ++ t') "Subject: ") with false.
    rewrite (match_author n e t' Hn Dn Ln He De Le). cbn [Meta.inMessage Meta.update σ1 Meta.initial].
    rewrite refs_line_other; [reflexivity|]. split; [reflexivity|discriminate]. }
  rewrite S2. clear S2.
  set (σ2 := Meta.update _ σ1).
  assert (S3 : meta_step σ2 ("Date: " ++ d) = Meta.update (Meta.set_date (trim d)) σ2).
  { unfold meta_step, commit_hash, author, date, refs, continue_message.
    change (startsWith ("Date: " ++ d) "From ") with false.
    change (startsWith ("Date: " ++ d) "From: ") with false.
    change (startsWith ("Date: " ++ d) "Date: ") with (String.prefix "Date: " ("Date: " ++ d)).
    rewrite (prefix_app "Date: " d).
    change (startsWith ("Date: " ++ d) "Subject: ") with false.
    change (substring_from 6 ("Date: " ++ d)) with d.
    cbn [Meta.inMessage Meta.update σ2 σ1 Meta.initial].
    rewrite refs_line_other; [reflexivity|]. split; [reflexivity|discriminate]. }
  rewrite S3. clear S3.
  set (σ3 := Meta.update _ σ2).
  assert (S4 : meta_step σ3 ("Subject: " ++ s)
               = Meta.mk (Meta.metadata σ3) true [trim s]).
  { unfold meta_step, commit_hash, author, date.
    change (startsWith ("Subject: " ++ s) "From ") with false.
    change (startsWith ("Subject: " ++ s) "From: ") with false.
    change (startsWith ("Subject: " ++ s) "Date: ") with false.
    change (startsWith ("Subject: " ++ s) "Subject: ")
      with (String.prefix "Subject: " ("Subject: " ++ s)).
    rewrite (prefix_app "Subject: " s).
    change (substring_from 9 ("Subject: " ++ s)) with s. reflexivity. }
  rewrite S4. clear S4.
  change (meta_step (Meta.mk (Meta.metadata σ3) true [trim s]) "")
    with (Meta.mk (Meta.metadata σ3) false [trim s]).
  rewrite run_meta_quiet; [|reflexivity|now apply Forall_take].
  cbn [Meta.messageLines Meta.metadata join]. rewrite trim_idempotent. reflexivity.
Qed.

Lemma extractMetadata_format_patch_witness :
  extractMetadata
    (("From " ++ "0123456789abcdef0123456789abcdef01234567" ++ " Mon Sep 17 00:00:00 2001")
       :: ("From: " ++ "Ada Lovelace" ++ " <" ++ "ada@example.org" ++ ">" ++ "")
       :: ("Date: " ++ "Tue, 3 Nov 2026 10:00:00 +0100 ")
       :: ("Subject: " ++ "[PATCH] Fix the parser")
       :: "" :: ["---"; " f.c | 2 +-"; "diff --git a/f.c b/f.c"; "+(x)"])
  = CommitMetadata.mk (Some "0123456789abcdef0123456789abcdef01234567")
      (Some "Ada Lovelace") (Some "ada@example.org")
      (Some (trim "Tue, 3 Nov 2026 10:00:00 +0100 ")) (trim "[PATCH] Fix the parser") [].
Proof.
  apply (extractMetadata_format_patch "0123456789abcdef0123456789abcdef01234567"
           " Mon Sep 17 00:00:00 2001" "Ada Lovelace" "ada@example.org" ""
           "Tue, 3 Nov 2026 10:00:00 +0100 " "[PATCH] Fix the parser");
    try solve [reflexivity | discriminate].
  repeat constructor; vm_compute; reflexivity.
Defined.

Section MessageProofs.
Import Meta.

Lemma meta_headers_message (σ : state) (l : string) :
  inMessage (date l (author l (commit_hash l σ))) = inMessage σ
  /\ messageLines (date l (author l (commit_hash l σ))) = messageLines σ.
Proof.
  unfold date, author, commit_hash, update.
  repeat match goal with
         | |- context [if ?b then _ else _] => destruct b
         | |- context [match ?o with Some _ => _ | None => _ end] => destruct o
         end; auto.
Qed.

Lemma refs_message (σ : state) (l : string) :
  inMessage (refs l σ) = inMessage σ /\ messageLines (refs l σ) = messageLines σ.
Proof.
  unfold refs, update.
  repeat match goal with
         | |- context [if ?b then _ else _] => destruct b
         | |- context [match ?o with Some _ => _ | None => _ end] => destruct o
         end; auto.
Qed.

Lemma meta_step_subject (σ : state) (s : string) :
  inMessage (meta_step σ ("Subject: " ++ s)) = true
  /\ messageLines (meta_step σ ("Subject: " ++ s)) = (messageLines σ ++ [trim s])%list.
Proof.
  unfold meta_step.
  change (startsWith ("Subject: " ++ s) "Subject: ")
    with (String.prefix "Subject: " ("Subject: " ++ s)).
  rewrite (prefix_app "Subject: " s). cbn [inMessage messageLines].
  change (substring_from 9 ("Subject: " ++ s)) with s.
  now rewrite (proj2 (meta_headers_message σ _)).
Qed.

Lemma meta_step_closed (σ : state) (l : string) :
  startsWith l "Subject: " = false -> inMessage σ = false ->
  inMessage (meta_step σ l) = false /\ messageLines (meta_step σ l) = messageLines σ.
Proof.
  intros Hs Hin. unfold meta_step. rewrite Hs.
  destruct (refs_message (continue_message l (date l (author l (commit_hash l σ)))) l)
    as [-> ->].
  destruct (meta_headers_message σ l) as [Ei El].
  unfold continue_message. rewrite Ei, Hin. now rewrite Ei, El.
Qed.

Lemma meta_step_message_line (σ : state) (l : string) :
  message_line l -> inMessage σ = true ->
  inMessage (meta_step σ l) = true
  /\ messageLines (meta_step σ l) = (messageLines σ ++ [trim l])%list.
Proof.
  intros (Hs & Ht & Hd) Hin. unfold meta_step. rewrite Hs.
  destruct (refs_message (continue_message l (date l (author l (commit_hash l σ)))) l)
    as [-> ->].
  destruct (meta_headers_message σ l) as [Ei El].
  unfold continue_message. rewrite Ei, Hin, Hd.
  destruct (String.eqb_spec (trim l) ""); [contradiction|].
  cbn [orb inMessage messageLines]. now rewrite El.
Qed.

Lemma meta_step_stop (σ : state) (l : string) :
  startsWith l "Subject: " = false ->
  trim l = "" \/ startsWith l "---" = true ->
  inMessage σ = true ->
  inMessage (meta_step σ l) = false /\ messageLines (meta_step σ l) = messageLines σ.
Proof.
  intros Hs Hstop Hin. unfold meta_step. rewrite Hs.
  destruct (refs_message (continue_message l (date l (author l (commit_hash l σ)))) l)
    as [-> ->].
  destruct (meta_headers_message σ l) as [Ei El].
  unfold continue_message. rewrite Ei, Hin.
  assert (E : String.eqb (trim l) "" || startsWith l "---" = true).
  { destruct Hstop as [->| ->]; [reflexivity|apply orb_true_r]. }
  rewrite E. cbn [inMessage messageLines]. auto.
Qed.

Lemma run_meta_closed (ls : list string) (σ : state) :
  Forall (fun l => startsWith l "Subject: " = false) ls -> inMessage σ = false ->
  inMessage (fold_left meta_step ls σ) = false
  /\ messageLines (fold_left meta_step ls σ) = messageLines σ.
Proof.
  intros H. revert σ. induction H as [|l ls Hl _ IH]; intros σ Hin; [auto|].
  cbn [fold_left]. destruct (meta_step_closed σ l Hl Hin) as [Ei El].
  destruct (IH _ Ei) as [Ei' El']. now rewrite Ei', El', El.
Qed.

Lemma run_meta_message (body : list string) (σ : state) :
  Forall message_line body -> inMessage σ = true ->
  inMessage (fold_left meta_step body σ) = true
  /\ messageLines (fold_left meta_step body σ) = (messageLines σ ++ (trim <$> body))%list.
Proof.
  intros H. revert σ. induction H as [|l ls Hl _ IH]; intros σ Hin.
  - cbn. now rewrite app_nil_r.
  - cbn [fold_left]. destruct (meta_step_message_line σ l Hl Hin) as [Ei El].
    destruct (IH _ Ei) as [Ei' El']. rewrite Ei', El', El.
    split; [reflexivity|]. now rewrite <- app_assoc.
Qed.

End MessageProofs.

(** X20. One line of the input, and no other, starts with [Subject: ]. The
    lines after it that are not blank once trimmed and do not start with
    three dashes go on with the message, up to a closing line that is
    blank once trimmed or starts with three dashes; and the subject line,
    those lines and the closing line all stand among the first 50 lines
    of the input. Then the message is the text after [Subject: ] and
    those lines, each trimmed, joined with a space, and trimmed as a
    whole; whatever other headers those lines are, they belong to the
    message. *)
Lemma extractMetadata_message (pre body post : list string) (s stop : string) :
  Forall (fun l => startsWith l "Subject: " = false) pre ->
  Forall message_line body ->
  startsWith stop "Subject: " = false ->
  trim stop = "" \/ startsWith stop "---" = true ->
  Forall (fun l => startsWith l "Subject: " = false) post ->
  length pre + length body + 2 <= 50 ->
  CommitMetadata.message
    (extractMetadata (pre ++ ("Subject: " ++ s)%string :: body ++ stop :: post)%list)
  = trim (join " " (trim s :: (trim <$> body))).
Proof.
  intros Hpre Hbody Hs Hstop Hpost Hlen. unfold extractMetadata.
  cbn [CommitMetadata.message Meta.set_message]. f_equal. f_equal.
  replace (pre ++ ("Subject: " ++ s)%string :: body ++ stop :: post)%list
    with ((pre ++ ("Subject: " ++ s)%string :: body ++ [stop]) ++ post)%list
    by (rewrite <- !app_assoc; cbn; now rewrite <- app_assoc).
  rewrite take_app_ge by (rewrite !length_app; cbn; rewrite length_app; cbn; lia).
  rewrite !fold_left_app. cbn [fold_left]. rewrite fold_left_app. cbn [fold_left].
  destruct (run_meta_closed pre Meta.initial Hpre eq_refl) as [E1 L1].
  set (σ1 := fold_left meta_step pre Meta.initial) in *.
  destruct (meta_step_subject σ1 s) as [E2 L2].
  set (σ2 := meta_step σ1 _) in *.
  destruct (run_meta_message body σ2 Hbody E2) as [E3 L3].
  set (σ3 := fold_left meta_step body σ2) in *.
  destruct (meta_step_stop σ3 stop Hs Hstop E3) as [E4 L4].
  set (σ4 := meta_step σ3 stop) in *.
  destruct (run_meta_closed (take (50 - length (pre ++ ("Subject: " ++ s)%string :: body ++ [stop])%list)
                               post) σ4 (Forall_take _ _ _ Hpost) E4) as [_ L5].
  rewrite L5, L4, L3, L2, L1. reflexivity.
Qed.

Lemma extractMetadata_message_witness :
  CommitMetadata.message
    (extractMetadata
       (["From: A <a@b.c>"] ++ ("Subject: " ++ "[PATCH] Fix")%string
          :: ["  the parser"; "MIME-Version: 1.0"] ++ "" :: ["Body"; "---"])%list)
  = trim (join " " (trim "[PATCH] Fix" :: (trim <$> ["  the parser"; "MIME-Version: 1.0"]))).
Proof.
  apply (extractMetadata_message ["From: A <a@b.c>"] ["  the parser"; "MIME-Version: 1.0"]
           ["Body"; "---"] "[PATCH] Fix" "").
  - repeat constructor.
  - repeat constructor; vm_compute; discriminate.
  - reflexivity.
  - left. reflexivity.
  - repeat constructor.
  - cbn. lia.
Defined.

(** ** extractMetadata: the refs *)

Lemma rep_greedy_is_Some (cls : ascii -> bool) (run rest : string)
    (k : option ascii -> string -> option MatchResult) :
  all_in cls run = true ->
  forall lo prev,
    lo <= String.length run ->
    is_Some (k (last_char prev run) rest) ->
    is_Some (rep cls true lo None prev (run ++ rest) k).
Proof.
  intros Hall. induction run as [|c run IH]; intros lo prev Hlo Hk.
  - cbn in Hlo. assert (lo = 0) as -> by lia. cbn in Hk.
    change ("" ++ rest) with rest. destruct rest as [|c rest]; cbn; [exact Hk|].
    destruct (cls c && true); [|exact Hk].
    destruct (rep cls true 0 None (Some c) rest k); [eauto|exact Hk].
  - cbn in Hall. apply andb_true_iff in Hall as [Hc Hall].
    rewrite append_cons. cbn [rep]. rewrite Hc.
    cbn [andb may_repeat fmap option_fmap option_map].
    destruct (IH Hall (pred lo) (Some c)) as [m Hm]; [cbn in Hlo; lia|exact Hk|].
    rewrite Hm. eauto.
Qed.

Lemma white_space_not_paren (c : ascii) : is_white_space c = true -> Ascii.eqb "(" c = false.
Proof. each_char c; (discriminate || reflexivity). Qed.

Lemma refs_line_matches (ws x : string) :
  all_in is_white_space ws = true -> all_in dot x = true ->
  regex_test false re_refs_line (ws ++ "(" ++ x ++ ")") = true.
Proof.
  intros Hws Hx. unfold regex_test. apply bool_decide_eq_true.
  assert (H : is_Some (match_here false re_refs_line None (ws ++ "(" ++ x ++ ")"))).
  { unfold match_here, re_refs_line, star. cbn [run at_bol].
    apply rep_greedy_is_Some; [exact Hws|lia|].
    rewrite prefix_app, (substring_from_app "(").
    apply rep_greedy_is_Some; [exact Hx|lia|].
    cbn. eauto. }
  destruct H as [m Hm]. rewrite (search_here _ _ _ _ m Hm). eauto.
Qed.

Lemma search_skip_white_space (ws s : string) (prev : option ascii) :
  all_in is_white_space ws = true ->
  search false re_refs prev (ws ++ s) = search false re_refs (last_char prev ws) s.
Proof.
  revert prev. induction ws as [|c ws IH]; intros prev Hws; [reflexivity|].
  cbn in Hws. apply andb_true_iff in Hws as [Hc Hws].
  rewrite append_cons. cbn [search last_char].
  assert (E : match_here false re_refs prev (String c (ws ++ s)) = None).
  { unfold match_here, re_refs. cbn [run]. rewrite prefix_cons.
    now rewrite (white_space_not_paren c Hc). }
  rewrite E. now apply IH.
Qed.

Lemma match_refs (ws x : string) :
  all_in is_white_space ws = true -> x <> "" -> lacks ")" x = true ->
  regex_match re_refs (ws ++ "(" ++ x ++ ")") = Some ["(" ++ x ++ ")"; x].
Proof.
  intros Hws Hx Lx. unfold regex_match. rewrite search_skip_white_space by exact Hws.
  apply search_here. unfold match_here, re_refs, plus. cbn [run].
  rewrite prefix_app, (substring_from_app "(").
  rewrite (rep_greedy_run (not_char ")") x ")" _ ["(" ++ x ++ ")"; x]);
    [reflexivity|now rewrite lacks_not_char|reflexivity|now apply length_pos|].
  cbn [run]. rewrite prefix_cons. cbn [Ascii.eqb].
  change (String.prefix "" "") with true. cbn [andb substring_from String.length].
  now rewrite consumed_app, consumed_all.
Qed.

Lemma white_space_line_start (ws t p : string) (c : ascii) :
  all_in is_white_space ws = true ->
  is_white_space c = false -> c <> "("%char ->
  startsWith (ws ++ "(" ++ t) (String c p) = false.
Proof.
  intros Hws Hc Hp. unfold startsWith. destruct ws as [|w ws].
  - change ("" ++ "(" ++ t) with (String "(" t). rewrite prefix_cons.
    apply Ascii.eqb_neq in Hp. now rewrite Hp.
  - rewrite append_cons, prefix_cons. cbn in Hws. apply andb_true_iff in Hws as [Hw _].
    destruct (Ascii.eqb_spec c w) as [->|]; [congruence|reflexivity].
Qed.

Section RefsProofs.
Import Meta.

Lemma meta_headers_refs (σ : state) (l : string) :
  CommitMetadata.refs (metadata (date l (author l (commit_hash l σ))))
  = CommitMetadata.refs (metadata σ).
Proof.
  unfold date, author, commit_hash, update.
  repeat match goal with
         | |- context [if ?b then _ else _] => destruct b
         | |- context [match ?o with Some _ => _ | None => _ end] => destruct o
         end; reflexivity.
Qed.

Lemma meta_step_keeps_refs (σ : state) (l : string) :
  regex_test false re_refs_line l = false ->
  CommitMetadata.refs (metadata (meta_step σ l)) = CommitMetadata.refs (metadata σ).
Proof.
  intros Hl. unfold meta_step.
  destruct (startsWith l "Subject: "); [apply meta_headers_refs|].
  unfold refs. rewrite Hl. unfold continue_message.
  destruct (inMessage _); [destruct (_ || _)|]; apply meta_headers_refs.
Qed.

Lemma run_meta_keeps_refs (post : list string) (σ : state) :
  Forall (fun l => regex_test false re_refs_line l = false) post ->
  CommitMetadata.refs (metadata (fold_left meta_step post σ))
  = CommitMetadata.refs (metadata σ).
Proof.
  intros H. revert σ. induction H as [|l post Hl _ IH]; intros σ; [reflexivity|].
  cbn [fold_left]. now rewrite IH, meta_step_keeps_refs.
Qed.

Lemma meta_step_refs (σ : state) (ws x : string) :
  all_in is_white_space ws = true -> x <> "" -> all_in dot x = true -> lacks ")" x = true ->
  CommitMetadata.refs (metadata (meta_step σ (ws ++ "(" ++ x ++ ")")))
  = trim <$> split "," x.
Proof.
  intros Hws Hx Dx Lx. unfold meta_step.
  rewrite (white_space_line_start ws (x ++ ")") "ubject: " "S" Hws) by (reflexivity || discriminate).
  unfold refs. rewrite (refs_line_matches ws x Hws Dx), (match_refs ws x Hws Hx Lx).
  reflexivity.
Qed.

End RefsProofs.

(** X21. A line that is a parenthesised list and nothing else: white space
    or none, an opening parenthesis, a text X, and a closing parenthesis
    that ends the line. X is not empty and holds neither a closing
    parenthesis nor a line terminator (line feed, carriage return). The
    line stands among the first 50 lines of the input, and no line after
    it matches the pattern of the parenthesised lists. Then the refs are
    the pieces of X between its commas, each trimmed, whatever lines come
    before: the last line that matches is the one that counts. *)
Lemma extractMetadata_refs (pre post : list string) (ws x : string) :
  length pre < 50 ->
  all_in is_white_space ws = true ->
  x <> "" -> all_in dot x = true -> lacks ")" x = true ->
  Forall (fun l => regex_test false re_refs_line l = false) post ->
  CommitMetadata.refs (extractMetadata (pre ++ (ws ++ "(" ++ x ++ ")")%string :: post)%list)
  = trim <$> split "," x.
Proof.
  intros Hlen Hws Hx Dx Lx Hpost. unfold extractMetadata.
  cbn [CommitMetadata.refs Meta.set_message].
  replace (pre ++ (ws ++ "(" ++ x ++ ")")%string :: post)%list
    with ((pre ++ [(ws ++ "(" ++ x ++ ")")%string]) ++ post)%list
    by (now rewrite <- app_assoc).
  rewrite take_app_ge by (rewrite length_app; cbn; lia).
  rewrite !fold_left_app. cbn [fold_left].
  rewrite run_meta_keeps_refs by (now apply Forall_take).
  now apply meta_step_refs.
Qed.

Lemma extractMetadata_refs_witness :
  CommitMetadata.refs
    (extractMetadata
       (["From: A <a@b.c>"] ++ (" " ++ "(" ++ "HEAD -> main, tag: v1" ++ ")")%string
          :: ["Subject: x"])%list)
  = trim <$> split "," "HEAD -> main, tag: v1".
Proof.
  apply (extractMetadata_refs ["From: A <a@b.c>"] ["Subject: x"] " " "HEAD -> main, tag: v1");
    try solve [reflexivity | discriminate | cbn; lia].
  repeat constructor.
Defined.



(** ** groupFilesByDirectory *)

Section GroupProofs.
Context {H : Type}.

Lemma group_of_snoc (d : string) (seen : list (FileDiff.t H)) (f : FileDiff.t H) :
  group_of d (seen ++ [f])%list
  = if decide (dir f = d) then (group_of d seen ++ [f])%list else group_of d seen.
Proof.
  unfold group_of. rewrite filter_app, filter_cons, filter_nil.
  destruct (decide (dir f = d)); [reflexivity|apply app_nil_r].
Qed.

Lemma entry_of_Some {A : Type} (l arr : list A) : entry_of l = Some arr -> l = arr /\ l <> [].
Proof. destruct l; [discriminate|]. intros [= <-]. split; [reflexivity|discriminate]. Qed.

Lemma entry_of_None {A : Type} (l : list A) : entry_of l = None -> l = [].
Proof. now destruct l. Qed.

Lemma fold_thrown (files : list (FileDiff.t H)) (e : TypeError) :
  fold_left
    (fun grouped file =>
       match grouped with
       | inl e => inl e
       | inr g => group_file g file
       end)
    files (inl e)
  = inl e.
Proof. induction files as [|f files IH]; [reflexivity|exact IH]. Qed.

Lemma group_run (files seen : list (FileDiff.t H)) (g0 : gmap string (list (FileDiff.t H))) :
  Forall (fun f => ~ inherited_dir f) seen ->
  (forall d, g0 !! d = entry_of (group_of d seen)) ->
  match fold_left
          (fun grouped file =>
             match grouped with
             | inl e => inl e
             | inr g => group_file g file
             end)
          files (inr g0) with
  | inl _ => Exists inherited_dir files
  | inr g =>
      Forall (fun f => ~ inherited_dir f) files
      /\ forall d, g !! d = entry_of (group_of d (seen ++ files)%list)
  end.
Proof.
  revert seen g0. induction files as [|f files IH]; intros seen g0 Hseen Hg0.
  - cbn. rewrite app_nil_r. auto.
  - cbn [fold_left]. unfold group_file at 2.
    replace (seen ++ f :: files)%list with ((seen ++ [f]) ++ files)%list
      by (now rewrite <- app_assoc).
    destruct (g0 !! dir f) as [arr|] eqn:Hd.
    + rewrite Hg0 in Hd. apply entry_of_Some in Hd as [Harr Hne].
      assert (Hf : ~ inherited_dir f).
      { destruct (group_of (dir f) seen) as [|f' fs] eqn:E; [contradiction|].
        assert (Hin : f' ∈ group_of (dir f) seen) by (rewrite E; left).
        apply list_elem_of_filter in Hin as [Hdir Hin].
        rewrite Forall_forall in Hseen. specialize (Hseen f' Hin).
        unfold inherited_dir in *. now rewrite <- Hdir. }
      specialize (IH (seen ++ [f])%list (<[dir f := (arr ++ [f])%list]> g0)).
      destruct (fold_left _ files _).
      * right. apply IH.
        -- apply Forall_app. split; [exact Hseen|]. now constructor.
        -- intros d. rewrite group_of_snoc. destruct (decide (dir f = d)) as [<-|Hne'].
           ++ rewrite lookup_insert_eq, Harr. now destruct arr.
           ++ rewrite lookup_insert_ne by exact Hne'. apply Hg0.
      * destruct IH as [Hfiles Hg].
        -- apply Forall_app. split; [exact Hseen|]. now constructor.
        -- intros d. rewrite group_of_snoc. destruct (decide (dir f = d)) as [<-|Hne'].
           ++ rewrite lookup_insert_eq, Harr. now destruct arr.
           ++ rewrite lookup_insert_ne by exact Hne'. apply Hg0.
        -- split; [now constructor|exact Hg].
    + rewrite Hg0 in Hd. apply entry_of_None in Hd.
      case_bool_decide as Hin.
      * rewrite fold_thrown. now left.
      * specialize (IH (seen ++ [f])%list (<[dir f := [f]]> g0)).
        assert (Hseen' : Forall (fun f => ~ inherited_dir f) (seen ++ [f])%list).
        { apply Forall_app. split; [exact Hseen|]. now constructor. }
        assert (Hg' : forall d, <[dir f := [f]]> g0 !! d = entry_of (group_of d (seen ++ [f])%list)).
        { intros d. rewrite group_of_snoc. destruct (decide (dir f = d)) as [<-|Hne'].
          - rewrite lookup_insert_eq, Hd. reflexivity.
          - rewrite lookup_insert_ne by exact Hne'. apply Hg0. }
        specialize (IH Hseen' Hg').
        destruct (fold_left _ files _); [now right|].
        destruct IH as [Hfiles Hg]. split; [now constructor|exact Hg].
Qed.

End GroupProofs.

(** X22. The function throws exactly when the directory of some file is a
    name that objects inherit, such as [constructor]. Otherwise every
    directory that has a file is a key, and its array holds the files of
    that directory in their order; no other key is there. *)
Lemma groupFilesByDirectory_groups {H : Type} (files : list (FileDiff.t H)) :
  match groupFilesByDirectory files with
  | inl _ => Exists inherited_dir files
  | inr grouped =>
      Forall (fun f => ~ inherited_dir f) files
      /\ forall d, grouped !! d = entry_of (group_of d files)
  end.
Proof.
  unfold groupFilesByDirectory.
  apply (group_run files [] ∅); [constructor|].
  intros d. apply lookup_empty.
Qed.

Lemma split_app_sep (sep : ascii) (a b : string) :
  split sep (a ++ String sep b) = (split sep a ++ split sep b)%list.
Proof.
  induction a as [|c a IH].
  - change ("" ++ String sep b) with (String sep b). cbn. now rewrite Ascii.eqb_refl.
  - rewrite append_cons. cbn [split]. rewrite IH.
    pose proof (split_not_nil sep a) as Hne.
    destruct (Ascii.eqb c sep); [reflexivity|].
    destruct (split sep a); [contradiction|reflexivity].
Qed.

Lemma split_lacks (sep : ascii) (s : string) : lacks sep s = true -> split sep s = [s].
Proof.
  induction s as [|c s IH]; [reflexivity|]. intros Hs.
  cbn in Hs. apply andb_true_iff in Hs as [Hc Hs]. apply negb_true_iff in Hc.
  cbn. now rewrite Hc, (IH Hs).
Qed.

Lemma join_split (sep : ascii) (s : string) : join (String sep "") (split sep s) = s.
Proof.
  induction s as [|c s IH]; [reflexivity|]. cbn [split].
  pose proof (split_not_nil sep s) as Hne.
  destruct (Ascii.eqb_spec c sep) as [->|Hc].
  - destruct (split sep s) as [|h t]; [contradiction|].
    change (join (String sep "") ("" :: h :: t))
      with ("" ++ String sep "" ++ join (String sep "") (h :: t)).
    now rewrite IH.
  - destruct (split sep s) as [|h [|h' t]]; [contradiction| |].
    + cbn in IH. cbn. now rewrite IH.
    + change (join (String sep "") (String c h :: h' :: t))
        with (String c (h ++ String sep "" ++ join (String sep "") (h' :: t))).
      change (join (String sep "") (h :: h' :: t))
        with (h ++ String sep "" ++ join (String sep "") (h' :: t)) in IH.
      now rewrite IH.
Qed.

(** X23. The directory of a file is its path up to the last slash, and [/]
    for a path without slash. *)
Lemma dir_last_slash {H : Type} (file : FileDiff.t H) (d name : string) :
  lacks "/" name = true ->
  (path file = d ++ "/" ++ name -> dir file = d)
  /\ (path file = name -> dir file = "/").
Proof.
  intros Hname. unfold dir. split; intros ->.
  - change (d ++ "/" ++ name) with (d ++ String "/" name).
    rewrite split_app_sep, (split_lacks "/" name Hname).
    rewrite removelast_last, length_app. cbn [length].
    pose proof (split_not_nil "/" d) as Hne.
    destruct (split "/" d) as [|h t] eqn:E; [contradiction|].
    cbn [length]. replace (S (length t) + 1) with (S (S (length t))) by lia.
    cbn [Nat.ltb Nat.leb]. rewrite <- E. apply join_split.
  - now rewrite (split_lacks "/" name Hname).
Qed.

Lemma dir_last_slash_witness :
  dir (FileDiff.mk (H := Hunk.t) "src/js/viewer.js" "/dev/null" FileDiff.deleted [] 0 0 false)
  = "src/js".
Proof.
  apply (proj1 (dir_last_slash
                  (FileDiff.mk (H := Hunk.t) "src/js/viewer.js" "/dev/null" FileDiff.deleted
                     [] 0 0 false)
                  "src/js" "viewer.js" eq_refl)).
  reflexivity.
Defined.


(** ** extractFileContent *)

Lemma push_contents (ls : list HunkLine.t) (olds news : list string) :
  fold_left push_content ls (olds, news)
  = ((olds ++ (HunkLine.content <$> filter (fun l => HunkLine.type l <> HunkLine.add) ls))%list,
     (news ++ (HunkLine.content <$> filter (fun l => HunkLine.type l <> HunkLine.del) ls))%list).
Proof.
  revert olds news. induction ls as [|l ls IH]; intros olds news.
  - cbn. now rewrite !app_nil_r.
  - cbn [fold_left]. unfold push_content at 2. rewrite !filter_cons.
    destruct l as [[] text]; cbn [HunkLine.type HunkLine.content]; rewrite IH;
      repeat case_decide; try congruence; cbn [fmap list_fmap];
      now rewrite <- ?app_assoc.
Qed.

Lemma push_hunks (hs : list Hunk.t) (olds news : list string) :
  fold_left (fun acc hunk => fold_left push_content (Hunk.lines hunk) acc) hs (olds, news)
  = ((olds ++ (HunkLine.content
                 <$> filter (fun l => HunkLine.type l <> HunkLine.add)
                       (concat (Hunk.lines <$> hs))))%list,
     (news ++ (HunkLine.content
                 <$> filter (fun l => HunkLine.type l <> HunkLine.del)
                       (concat (Hunk.lines <$> hs))))%list).
Proof.
  revert olds news. induction hs as [|h hs IH]; intros olds news.
  - cbn. now rewrite !app_nil_r.
  - cbn [fold_left fmap list_fmap concat]. rewrite push_contents, IH.
    now rewrite !filter_app, !fmap_app, <- !app_assoc.
Qed.

Lemma entries_without (sign : string) (k : HunkLine.kind) (body : list string) :
  Forall content_line body ->
  (forall l, content_line l -> HunkLine.type (entry l) = k <-> startsWith l sign = true) ->
  HunkLine.content <$> filter (fun l => HunkLine.type l <> k) (entry <$> body)
  = substring_from 1 <$> filter (fun l => startsWith l sign = false) body.
Proof.
  intros Hbody Hk. induction Hbody as [|l body Hl _ IH]; [reflexivity|].
  cbn [fmap list_fmap]. rewrite !filter_cons.
  specialize (Hk l Hl).
  destruct (decide (HunkLine.type (entry l) <> k)) as [Hne|He],
           (decide (startsWith l sign = false)) as [Hs|Hs].
  - cbn [fmap list_fmap]. now rewrite <- IH.
  - exfalso. apply Hne, Hk. now destruct (startsWith l sign).
  - exfalso. apply He. intros E. apply Hk in E. congruence.
  - exact IH.
Qed.

Lemma entry_kinds (l : string) :
  content_line l ->
  (HunkLine.type (entry l) = HunkLine.add <-> startsWith l "+" = true)
  /\ (HunkLine.type (entry l) = HunkLine.del <-> startsWith l "-" = true).
Proof.
  unfold content_line, added_line, deleted_line, context_line, entry. cbn [HunkLine.type].
  intros [H|[H|H]]; [apply andb_true_iff in H as [H _]|apply andb_true_iff in H as [H _]|].
  - rewrite H, (startsWith_excludes l "+" "-") by (reflexivity || exact H).
    split; split; congruence.
  - rewrite H, (startsWith_excludes l "-" "+") by (reflexivity || exact H).
    split; split; congruence.
  - rewrite (startsWith_excludes l " " "-"), (startsWith_excludes l " " "+")
      by (reflexivity || exact H).
    split; split; congruence.
Qed.

Lemma drop_leading_context_content (body : list string) :
  Forall content_line body -> Forall content_line (drop_leading_context body).
Proof.
  induction 1 as [|l body Hl Hbody IH]; [constructor|].
  cbn. destruct (context_line l); [exact IH|now constructor].
Qed.

(** X24. The two sides that the viewer shows for the file of a well-formed
    section: of the content lines of the hunks from the first added or
    deleted line of each hunk on, the old side holds the lines that do not
    start with a plus sign, the new side those that do not start with a
    minus sign, each without its sign, joined by line feeds. Nothing
    marks where a hunk ends. *)
Lemma extractFileContent_section (header : string) (m : MatchResult) (pre : list string)
    (hunks : list (string * list string)) :
  startsWith header "diff --git " = true ->
  regex_match re_file_header header = Some m ->
  Forall preamble_line pre ->
  Forall (fun hb => hunk_start hb.1 /\ Forall content_line hb.2) hunks ->
  extractFileContent
    (parseFiles (header :: pre ++ concat ((fun hb => hb.1 :: hb.2) <$> hunks))%list !! 0)
  = (join (String LF "")
       (substring_from 1
          <$> filter (fun l => startsWith l "+" = false)
                (concat ((fun hb => drop_leading_context hb.2) <$> hunks))),
     join (String LF "")
       (substring_from 1
          <$> filter (fun l => startsWith l "-" = false)
                (concat ((fun hb => drop_leading_context hb.2) <$> hunks)))).
Proof.
  intros Hd Hm Hpre Hhunks. unfold parseFiles, run_lines. cbn [fold_left].
  rewrite (step_section_header header m Hd Hm), fold_left_app.
  rewrite run_preamble by exact Hpre. rewrite run_hunks by exact Hhunks.
  cbn [app]. rewrite read_section. cbn [lookup list_lookup].
  unfold extractFileContent, section_file. cbn [FileDiff.hunks].
  assert (E : concat (Hunk.lines <$> ((fun hb => hunk_of hb.1 hb.2) <$> hunks))
              = entry <$> concat ((fun hb => drop_leading_context hb.2) <$> hunks)).
  { clear. induction hunks as [|hb hunks IH]; [reflexivity|].
    cbn [fmap list_fmap concat]. rewrite IH. cbn [hunk_of Hunk.lines].
    now rewrite fmap_app. }
  assert (Hall : Forall content_line (concat ((fun hb => drop_leading_context hb.2) <$> hunks))).
  { clear -Hhunks. induction Hhunks as [|hb hunks [_ Hb] _ IH]; [constructor|].
    cbn [fmap list_fmap concat]. apply Forall_app. split; [|exact IH].
    now apply drop_leading_context_content. }
  rewrite push_hunks, E. cbn [app].
  rewrite (entries_without "+" HunkLine.add _ Hall) by (intros l Hl; apply (entry_kinds l Hl)).
  rewrite (entries_without "-" HunkLine.del _ Hall) by (intros l Hl; apply (entry_kinds l Hl)).
  destruct hunks as [|hb hunks]; reflexivity.
Qed.

Lemma extractFileContent_section_witness :
  extractFileContent
    (parseFiles
       ("diff --git a/f b/f"
          :: ["--- a/f"; "+++ b/f"]
          ++ concat ((fun hb => hb.1 :: hb.2)
                       <$> [("@@ -1,3 +1,3 @@", [" a"; "-b"; "+B"; " c"]);
                            ("@@ -9 +9 @@", ["-y"; "+Y"])]))%list !! 0)
  = (join (String LF "")
       (substring_from 1
          <$> filter (fun l => startsWith l "+" = false)
                (concat ((fun hb => drop_leading_context hb.2)
                           <$> [("@@ -1,3 +1,3 @@", [" a"; "-b"; "+B"; " c"]);
                                ("@@ -9 +9 @@", ["-y"; "+Y"])]))),
     join (String LF "")
       (substring_from 1
          <$> filter (fun l => startsWith l "-" = false)
                (concat ((fun hb => drop_leading_context hb.2)
                           <$> [("@@ -1,3 +1,3 @@", [" a"; "-b"; "+B"; " c"]);
                                ("@@ -9 +9 @@", ["-y"; "+Y"])])))).
Proof.
  apply (extractFileContent_section "diff --git a/f b/f" ["diff --git a/f b/f"; "f"; "f"]).
  - reflexivity.
  - vm_compute. reflexivity.
  - repeat constructor.
  - repeat match goal with
           | |- Forall _ _ => constructor
           | |- _ /\ _ => split
           | |- hunk_start _ => split
           | |- content_line _ =>
               first [left; reflexivity|right; left; reflexivity|right; right; reflexivity]
           | |- is_Some _ => vm_compute; eauto
           | |- _ = _ => reflexivity
           end.
Defined.


(** ** The paths of the files *)

(** What a successful quantifier leaves to the rest of the pattern. *)
Lemma rep_inv (cls : ascii -> bool) (greedy : bool) (s : string) :
  forall lo hi prev (k : option ascii -> string -> option MatchResult) m,
    rep cls greedy lo hi prev s k = Some m ->
    exists p s', k p s' = Some m /\ String.length s' + lo <= String.length s.
Proof.
  induction s as [|c s IH]; intros lo hi prev k m Hm.
  - cbn in Hm. destruct lo; [|discriminate]. exists prev, "". cbn. auto.
  - cbn [rep] in Hm.
    assert (Hstop : match lo with O => k prev (String c s) | S _ => None end = Some m ->
                    exists p s', k p s' = Some m
                                 /\ String.length s' + lo <= String.length (String c s)).
    { destruct lo; [|discriminate]. intros E. exists prev, (String c s). split; [exact E|lia]. }
    assert (Hgo : rep cls greedy (pred lo) (pred <$> hi) (Some c) s k = Some m ->
                  exists p s', k p s' = Some m
                               /\ String.length s' + lo <= String.length (String c s)).
    { intros E. apply IH in E as (p & s' & Hk & Hlen). exists p, s'.
      split; [exact Hk|]. cbn [String.length]. lia. }
    destruct (cls c && may_repeat hi); [|now apply Hstop].
    destruct greedy.
    + destruct (rep cls true (pred lo) (pred <$> hi) (Some c) s k) as [m'|] eqn:E.
      * injection Hm as ->. now apply Hgo.
      * now apply Hstop.
    + destruct (match lo with O => k prev (String c s) | S _ => None end) as [m'|] eqn:E.
      * injection Hm as ->. now apply Hstop.
      * now apply Hgo.
Qed.

Lemma search_inv (multiline : bool) (r : regex) (s : string) :
  forall prev m,
    search multiline r prev s = Some m ->
    exists prev' s', match_here multiline r prev' s' = Some m.
Proof.
  induction s as [|c s IH]; intros prev m Hm; cbn [search] in Hm.
  - destruct (match_here multiline r prev "") eqn:E; [|discriminate].
    injection Hm as ->. eauto.
  - destruct (match_here multiline r prev (String c s)) eqn:E.
    + injection Hm as ->. eauto.
    + now apply IH in Hm.
Qed.

Lemma consumed_not_empty (s s' : string) :
  String.length s' + 1 <= String.length s -> consumed s s' <> "".
Proof.
  unfold consumed. intros H.
  destruct (String.length s - String.length s') as [|n] eqn:E; [lia|].
  destruct s; [cbn in H; lia|discriminate].
Qed.

(** The two groups of a file header are not empty. *)
Lemma file_header_groups (line : string) (m : MatchResult) :
  regex_match re_file_header line = Some m -> group m 1 <> "" /\ group m 2 <> "".
Proof.
  intros Hm. apply search_inv in Hm as (prev & s & Hm).
  unfold match_here, re_file_header, plus_lazy, plus in Hm. cbn [run] in Hm.
  destruct (String.prefix "diff --git a/" s); [|discriminate].
  apply rep_inv in Hm as (p1 & s1 & Hm & Hlen1). cbv beta in Hm.
  destruct (String.prefix " b/" s1); [|discriminate].
  apply rep_inv in Hm as (p2 & s2 & Hm & Hlen2). injection Hm as <-.
  cbn [app group nth]. split; now apply consumed_not_empty.
Qed.

Section Named.
Import Parser.

Lemma named_update_file (f : loc) (upd : FileDiff.t loc -> FileDiff.t loc) (σ : state) :
  (forall o, consistent o -> consistent (upd o)) -> named σ -> named (update_file f upd σ).
Proof.
  intros Hupd H. unfold named, update_file. state_simpl.
  apply Forall_alter; [exact H|]. intros o _. apply Hupd.
Qed.

Lemma named_marker (hit : bool) (upd : FileDiff.t loc -> FileDiff.t loc) (σ : state) :
  (forall o, consistent o -> consistent (upd o)) -> named σ -> named (marker hit upd σ).
Proof.
  intros Hupd H. unfold marker. destruct hit; [|exact H].
  destruct (currentFile σ); [|exact H]. now apply named_update_file.
Qed.

Lemma named_step (line : string) (σ : state) : named σ -> named (step σ line).
Proof.
  intros H. unfold step.
  assert (H1 : named (file_header line σ)).
  { unfold file_header. destruct (startsWith line "diff --git "); [|exact H].
    assert (H' : named match currentFile σ with
                       | Some f =>
                           push_file f
                             match currentHunk σ with
                             | Some h =>
                                 set_currentHunk None (update_file f (FileDiff.push_hunk h) σ)
                             | None => σ
                             end
                       | None => σ
                       end).
    { destruct (currentFile σ) as [f|]; [|exact H].
      destruct (currentHunk σ) as [h|]; [|exact H].
      apply (named_update_file f (FileDiff.push_hunk h) σ); [|exact H]. now intros o. }
    destruct (regex_match re_file_header line) as [m|] eqn:Hm; [|exact H'].
    unfold named, new_file. state_simpl. apply Forall_app. split; [exact H'|].
    constructor; [|constructor].
    destruct (file_header_groups line m Hm) as [G1 G2].
    repeat split; cbn; (assumption || discriminate). }
  assert (H2 : named (binary_files line (rename_from line
                        (deleted_file_mode line (new_file_mode line (file_header line σ)))))).
  { unfold binary_files, rename_from, deleted_file_mode, new_file_mode.
    repeat apply named_marker; try exact H1;
      intros o (Ho & Hn & Ha & Hd); repeat split; cbn; solve [assumption | discriminate | reflexivity]. }
  set (σ5 := binary_files line _) in *.
  assert (H3 : named (hunk_header line σ5)).
  { unfold hunk_header, save_hunk. destruct (startsWith line "@@"); [|exact H2].
    destruct (currentFile σ5) as [f|]; [|exact H2].
    assert (H' : named match currentHunk σ5 with
                       | Some h => update_file f (FileDiff.push_hunk h) σ5
                       | None => σ5
                       end).
    { destruct (currentHunk σ5) as [h|]; [|exact H2].
      apply named_update_file; [|exact H2]. now intros o. }
    now destruct (regex_match re_hunk_header line). }
  set (σ6 := hunk_header line σ5) in *.
  unfold hunk_content.
  destruct (currentHunk σ6) as [h|]; [|exact H3].
  destruct (currentFile σ6) as [f|]; [|exact H3].
  destruct (file_objs σ6 !! f); [|exact H3]. destruct (hunk_objs σ6 !! h); [|exact H3].
  repeat match goal with
         | |- context [if ?b then _ else _] => destruct b
         end; try exact H3;
    try (apply named_update_file; [now intros o|]); exact H3.
Qed.

Lemma named_run_lines (lines : list string) : named (run_lines lines).
Proof.
  unfold run_lines.
  assert (H : named (fold_left step lines initial)).
  { assert (H0 : named initial) by constructor.
    revert H0. generalize initial. induction lines as [|l lines IH]; intros σ H0; [exact H0|].
    cbn [fold_left]. now apply IH, named_step. }
  unfold save_last, save_hunk. destruct (currentFile _) as [f|]; [|exact H].
  destruct (currentHunk _) as [h|]; [|exact H].
  apply (named_update_file f (FileDiff.push_hunk h)); [now intros o|exact H].
Qed.

End Named.

Lemma read_file_consistent (lines : list string) (f : loc) :
  f ∈ Parser.files (run_lines lines) -> consistent (read_file (run_lines lines) f).
Proof.
  intros Hf. destruct (parseFiles_reads_objects lines f 0 Hf) as (o & Ho & _).
  pose proof (named_run_lines lines) as Hn. unfold named in Hn.
  rewrite Forall_forall in Hn. apply list_elem_of_lookup_2 in Ho as Hin.
  unfold read_file. rewrite Ho. exact (Hn o Hin).
Qed.

(** X16. Every file of the result has an old path and a new path that are not
    empty; when its kind is [added] the old path is [/dev/null], and when
    its kind is [deleted] the new path is [/dev/null]. *)
Lemma parseFiles_paths (lines : list string) : Forall consistent (parseFiles lines).
Proof.
  unfold parseFiles, read_files. apply Forall_fmap, Forall_forall. intros f Hf.
  unfold compose. now apply read_file_consistent.
Qed.

(** ** generatePatchName *)

Lemma split_pieces_lack (sep : ascii) (s : string) :
  Forall (fun l => lacks sep l = true) (split sep s).
Proof.
  induction s as [|c s IH]; [now constructor|]. cbn [split].
  destruct (Ascii.eqb c sep) eqn:Hc; [now constructor|].
  destruct (split sep s) as [|h t]; [constructor; [|constructor]; cbn; now rewrite Hc|].
  apply Forall_cons in IH as [Hh Ht]. constructor; [|exact Ht]. cbn. now rewrite Hc, Hh.
Qed.

Lemma lacks_substring_from (x : ascii) (n : nat) (s : string) :
  lacks x s = true -> lacks x (substring_from n s) = true.
Proof.
  revert s. induction n as [|n IH]; intros s Hs; [now destruct s|].
  destruct s as [|c s]; [reflexivity|]. cbn in Hs. apply andb_true_iff in Hs as [_ Hs].
  cbn. now apply IH.
Qed.

Lemma lacks_trimStart (x : ascii) (s : string) :
  lacks x s = true -> lacks x (trimStart s) = true.
Proof.
  induction s as [|c s IH]; [reflexivity|]. intros Hs. cbn [trimStart].
  destruct (is_white_space c); [|exact Hs].
  cbn in Hs. apply andb_true_iff in Hs as [_ Hs]. now apply IH.
Qed.

Lemma lacks_trimEnd (x : ascii) (s : string) :
  lacks x s = true -> lacks x (trimEnd s) = true.
Proof.
  induction s as [|c s IH]; [reflexivity|]. intros Hs.
  cbn in Hs. apply andb_true_iff in Hs as [Hc Hs]. specialize (IH Hs). cbn [trimEnd].
  destruct (trimEnd s) as [|c' t].
  - destruct (is_white_space c); [reflexivity|]. cbn. now rewrite Hc.
  - cbn [lacks] in *. now rewrite Hc, IH.
Qed.

Lemma lacks_trim (x : ascii) (s : string) : lacks x s = true -> lacks x (trim s) = true.
Proof. intros Hs. unfold trim. now apply lacks_trimEnd, lacks_trimStart. Qed.

Lemma lacks_join (x : ascii) (sep : string) (pieces : list string) :
  lacks x sep = true -> Forall (fun p => lacks x p = true) pieces ->
  lacks x (join sep pieces) = true.
Proof.
  intros Hsep H. induction H as [|p ps Hp Hps IH]; [reflexivity|].
  destruct ps as [|p' ps]; [exact Hp|].
  change (join sep (p :: p' :: ps)) with (p ++ sep ++ join sep (p' :: ps)).
  now rewrite !lacks_app, Hp, Hsep, IH.
Qed.

Lemma meta_step_one_line (x : ascii) (σ : Meta.state) (l : string) :
  lacks x l = true ->
  Forall (fun p => lacks x p = true) (Meta.messageLines σ) ->
  Forall (fun p => lacks x p = true) (Meta.messageLines (meta_step σ l)).
Proof.
  intros Hl H. unfold meta_step.
  destruct (meta_headers_message σ l) as [Ei El].
  destruct (startsWith l "Subject: ").
  - cbn [Meta.messageLines]. rewrite El. apply Forall_app. split; [exact H|].
    constructor; [|constructor]. now apply lacks_trim, lacks_substring_from.
  - rewrite (proj2 (refs_message _ l)). unfold continue_message.
    destruct (Meta.inMessage _); [|now rewrite El].
    destruct (_ || _); cbn [Meta.messageLines]; rewrite El; [exact H|].
    apply Forall_app. split; [exact H|]. constructor; [|constructor]. now apply lacks_trim.
Qed.

Lemma message_one_line (x : ascii) (lines : list string) :
  lacks x " " = true ->
  Forall (fun l => lacks x l = true) lines ->
  lacks x (CommitMetadata.message (extractMetadata lines)) = true.
Proof.
  intros Hx Hlines. unfold extractMetadata. cbn [CommitMetadata.message Meta.set_message].
  apply lacks_trim, lacks_join; [exact Hx|].
  apply (Forall_take _ 50) in Hlines. revert Hlines. generalize (take 50 lines). intros ls Hls.
  assert (H0 : Forall (fun p => lacks x p = true) (Meta.messageLines Meta.initial))
    by constructor.
  revert H0. generalize Meta.initial.
  induction Hls as [|l ls Hl _ IH]; intros σ H0; [exact H0|].
  cbn [fold_left]. now apply IH, meta_step_one_line.
Qed.

(** X25. The name of a patch that [parse] returned: the first 50 characters
    of its message when it has one; else the last part of the new path of
    its first file, which for a deleted file is [null]; else, there being
    no file, the statistics of an empty patch. *)
Lemma generatePatchName_parsed (v : JsValue) (r : ParsedPatch.t) :
  parse v = Return r ->
  generatePatchName r
  = if negb (String.eqb (CommitMetadata.message (ParsedPatch.metadata r)) "")
    then substring_to 50 (CommitMetadata.message (ParsedPatch.metadata r))
    else match ParsedPatch.files r with
         | file :: _ =>
             match FileDiff.type file with
             | FileDiff.deleted => "Patch for null"
             | _ => "Patch for " ++ List.last (split "/" (FileDiff.newPath file)) ""
             end
         | [] => "Patch (0 files, +0 -0)"
         end.
Proof.
  unfold parse. destruct (negb (truthy v) || negb (is_string v)); [discriminate|].
  intros [= <-]. unfold generatePatchName.
  cbn [ParsedPatch.metadata ParsedPatch.files ParsedPatch.stats].
  set (lines := split LF (string_of v)).
  destruct (negb (String.eqb (CommitMetadata.message (extractMetadata lines)) "")).
  - rewrite split_lacks; [reflexivity|].
    apply message_one_line; [reflexivity|apply split_pieces_lack].
  - destruct (parseFiles lines) as [|file files] eqn:E; [reflexivity|].
    assert (Hc : consistent file).
    { unfold parseFiles, read_files in E.
      destruct (Parser.files (run_lines lines)) as [|f fs] eqn:Ef; [discriminate E|].
      injection E as <- _. apply read_file_consistent. rewrite Ef. left. }
    destruct Hc as (_ & Hn & _ & Hd).
    destruct (String.eqb_spec (FileDiff.newPath file) ""); [contradiction|]. cbn [negb].
    destruct (FileDiff.type file); try reflexivity. now rewrite (Hd eq_refl).
Qed.

Lemma generatePatchName_parsed_witness :
  generatePatchName
    (ParsedPatch.mk (extractMetadata ["diff --git a/old.txt b/old.txt"; "deleted file mode 100644"])
       (parseFiles ["diff --git a/old.txt b/old.txt"; "deleted file mode 100644"])
       (calculateStats (parseFiles ["diff --git a/old.txt b/old.txt"; "deleted file mode 100644"]))
       "diff --git a/old.txt b/old.txt
deleted file mode 100644")
  = "Patch for null".
Proof.
  apply (generatePatchName_parsed
           (JString "diff --git a/old.txt b/old.txt
deleted file mode 100644")).
  reflexivity.
Defined.


(** ** parse: the text, line by line *)

Lemma split_join (sep : ascii) (pieces : list string) :
  pieces <> [] -> Forall (fun p => lacks sep p = true) pieces ->
  split sep (join (String sep "") pieces) = pieces.
Proof.
  intros Hne H. induction H as [|p ps Hp Hps IH]; [contradiction|].
  destruct ps as [|p' ps]; [now apply split_lacks|].
  change (join (String sep "") (p :: p' :: ps))
    with (p ++ String sep (join (String sep "") (p' :: ps))).
  rewrite split_app_sep, (split_lacks sep p Hp), IH by discriminate. reflexivity.
Qed.

(** X7. The result for a text is made of its lines: for lines without line
    feed, joined by line feeds into a text that is not empty, [parse]
    returns the metadata, the files and the statistics of these lines,
    and the text itself. *)
Lemma parse_lines (lines : list string) :
  lines <> [] ->
  Forall (fun l => lacks LF l = true) lines ->
  join (String LF "") lines <> "" ->
  parse (JString (join (String LF "") lines))
  = Return (ParsedPatch.mk (extractMetadata lines) (parseFiles lines)
              (calculateStats (parseFiles lines)) (join (String LF "") lines)).
Proof.
  intros Hne Hlines Htext. unfold parse. cbn [truthy is_string negb orb string_of].
  destruct (String.eqb_spec (join (String LF "") lines) ""); [contradiction|].
  cbn [negb]. now rewrite split_join.
Qed.

Lemma parse_lines_witness :
  parse (JString (join (String LF "") ["diff --git a/f b/f"; "@@ -1 +1 @@"; "-x"; "+y"]))
  = Return (ParsedPatch.mk
              (extractMetadata ["diff --git a/f b/f"; "@@ -1 +1 @@"; "-x"; "+y"])
              (parseFiles ["diff --git a/f b/f"; "@@ -1 +1 @@"; "-x"; "+y"])
              (calculateStats (parseFiles ["diff --git a/f b/f"; "@@ -1 +1 @@"; "-x"; "+y"]))
              (join (String LF "") ["diff --git a/f b/f"; "@@ -1 +1 @@"; "-x"; "+y"])).
Proof.
  apply (parse_lines ["diff --git a/f b/f"; "@@ -1 +1 @@"; "-x"; "+y"]).
  - discriminate.
  - repeat constructor.
  - discriminate.
Defined.
